(** * A TCP echo pair: [client.c] and [server.c]

    Shallow embedding of the two programs and the properties of their
    message loops.  Both programs are sequences of blocking system calls
    with prints in between, so each [main] becomes a function from the
    answers of the operating system to the list of events the process
    performs and the way it ends.

    - [Libc]   : C integers, strings, buffers, [recv], the event alphabet.
    - [Server] : [signal_handler], the echo loop and [main] of server.c.
    - [Client] : the message loop and [main] of client.c, run against a
                 reactive peer.
    - [Link]   : the client connected to the server over a loss-free stream. *)

From Stdlib Require Import ZArith List String Ascii Lia Bool DecimalString.
From Stdlib.Strings Require Import Byte.
Import ListNotations.
Local Open Scope Z_scope.

(* ================================================================== *)
(** ** The C library and the kernel interface                          *)
(* ================================================================== *)

Module Libc.

(** [int] is 32 bits wide; arithmetic on it is kept in range with
    [wrap_int]. *)
Definition INT_MAX : Z := 2147483647.
Definition INT_MIN : Z := -2147483648.

Definition wrap_int (z : Z) : Z := (z - INT_MIN) mod 2 ^ 32 + INT_MIN.

(** The line feed of the format strings. *)
Definition nl : string := String (ascii_of_nat 10) EmptyString.

(** [%d] *)
Definition fmt_d (z : Z) : string := NilZero.string_of_int (Z.to_int z).

(** The bytes of a C string stored in [b]: everything before the first
    NUL. *)
Fixpoint c_str (b : list byte) : list byte :=
  match b with
  | [] => []
  | x :: rest => if Byte.eqb x x00 then [] else x :: c_str rest
  end.

(** [%s] *)
Definition fmt_s (b : list byte) : string := string_of_list_byte (c_str b).

Definition strlen (b : list byte) : Z := Z.of_nat (List.length (c_str b)).

(** [memset(buf, 0, n)] on a buffer of exactly [n] bytes. *)
Definition memset_zero (n : Z) : list byte := repeat x00 (Z.to_nat n).

(** Storing [d] at the start of [buf]; the bytes of [buf] behind it stay. *)
Definition store (d buf : list byte) : list byte :=
  d ++ skipn (List.length d) buf.

(** What the peer side of a connection offers to one [recv] call. *)
Inductive recv_reply : Type :=
| RecvBytes (avail : list byte)   (* these bytes are queued on the socket *)
| RecvClosed                      (* orderly shutdown by the peer *)
| RecvError.                      (* the call fails *)

(** [recv(fd, buf, len, 0)]: at most [len] bytes are copied to the start
    of [buf]; the result is the number of bytes copied, 0 after an orderly
    shutdown, -1 on error. *)
Definition sys_recv (len : Z) (buf : list byte) (r : recv_reply)
  : Z * list byte :=
  match r with
  | RecvBytes avail =>
      let d := firstn (Z.to_nat len) avail in
      (Z.of_nat (List.length d), store d buf)
  | RecvClosed => (0, buf)
  | RecvError => (-1, buf)
  end.

(** The value a [recv] of [len] bytes returns. *)
Definition returned (len : Z) (r : recv_reply) : Z :=
  fst (sys_recv len [] r).

(** The bytes a [recv] of [len] bytes takes off the socket. *)
Definition taken (len : Z) (r : recv_reply) : list byte :=
  match r with
  | RecvBytes avail => firstn (Z.to_nat len) avail
  | _ => []
  end.

(** The signals the server installs a handler for. *)
Inductive signal : Type := SIGINT | SIGTERM.

Definition signum (s : signal) : Z :=
  match s with SIGINT => 2 | SIGTERM => 15 end.

(** What a process does that the outside can see. *)
Inductive event : Type :=
| Stdout (s : string)
| Stderr (s : string)
| Perror (s : string)
| Delivered (s : signal)
| Gethostbyname (name : string) (found : bool)
| Socket (rc : Z)
| Setsockopt (fd rc : Z)
| Bind (fd port rc : Z)
| Listen (fd backlog rc : Z)
| Accept (fd rc : Z)
| Connect (fd port rc : Z)
| Recv (fd len rc : Z) (data : list byte)
| Send (fd : Z) (payload : list byte) (rc : Z)
| Sleep (secs : Z)
| Close (fd : Z).

(** How a run ends: the process exits, or it stays blocked in a call the
    outside never answers. *)
Inductive outcome : Type :=
| Exit (code : Z)
| Blocked.

(** [htons] keeps the low 16 bits of the port. *)
Definition htons (port : Z) : Z := port mod 65536.

(** Projections of a trace. *)
Definition sent (t : list event) : list (list byte) :=
  flat_map (fun e => match e with Send _ p _ => [p] | _ => [] end) t.

Definition received (t : list event) : list (list byte) :=
  flat_map (fun e => match e with
                     | Recv _ _ rc d => if 0 <? rc then [d] else []
                     | _ => [] end) t.

Definition recv_count (t : list event) : nat :=
  List.length (filter (fun e => match e with Recv _ _ _ _ => true | _ => false end) t).

Definition is_io (e : event) : bool :=
  match e with Recv _ _ _ _ | Send _ _ _ => true | _ => false end.

(** The writes that did not fail, and the reads that did not fail. *)
Definition sends_done (t : list event) : nat :=
  List.length
    (filter (fun e => match e with Send _ _ rc => 0 <=? rc | _ => false end) t).

Definition recvs_done (t : list event) : nat :=
  List.length
    (filter (fun e => match e with Recv _ _ rc _ => 0 <=? rc | _ => false end)
            t).

(** No write and no read of the trace has failed. *)
Definition all_ok (t : list event) : bool :=
  forallb (fun e => match e with
                    | Send _ _ rc => 0 <=? rc
                    | Recv _ _ rc _ => 0 <=? rc
                    | _ => true
                    end) t.

(** What follows the first signal of a trace; nothing when there is
    none. *)
Fixpoint after_first_signal (t : list event) : list event :=
  match t with
  | [] => []
  | Delivered _ :: t' => t'
  | _ :: t' => after_first_signal t'
  end.

Definition has_signal (t : list event) : bool :=
  existsb (fun e => match e with Delivered _ => true | _ => false end) t.

(** Every [recv] of a trace asked for [len] bytes and returned no more. *)
Definition reads_within (len : Z) (t : list event) : Prop :=
  Forall (fun e => match e with
                   | Recv _ l rc d =>
                       l = len /\ rc <= len /\ Z.of_nat (List.length d) <= len
                   | _ => True
                   end) t.

End Libc.

Import Libc.

(* ================================================================== *)
(** ** server.c                                                        *)
(* ================================================================== *)

Module Server.

Definition BUFFER_SIZE : Z := 1024.
Definition MAX_CONNECTIONS : Z := 5.

(** The variables of [main] the echo loop works on, and the global
    [running]. *)
Record state : Type := mkState {
  running : Z;
  buffer : list byte;
  message_count : Z
}.

Definition set_running (st : state) (v : Z) : state :=
  mkState v (buffer st) (message_count st).
Definition set_buffer (st : state) (b : list byte) : state :=
  mkState (running st) b (message_count st).
Definition set_message_count (st : state) (c : Z) : state :=
  mkState (running st) (buffer st) c.

(** [signal_handler] *)
Definition signal_handler (s : signal) (st : state) : state * list event :=
  (set_running st 0,
   [Stdout (nl ++ "Received signal " ++ fmt_d (signum s)
               ++ ", shutting down..." ++ nl)]).

(** The handler runs once for each signal delivered, in order. *)
Fixpoint deliver (sigs : list signal) (st : state) : state * list event :=
  match sigs with
  | [] => (st, [])
  | s :: rest =>
      let '(st1, t1) := signal_handler s st in
      let '(st2, t2) := deliver rest st1 in
      (st2, Delivered s :: t1 ++ t2)
  end.

(** The outside's answers to one pass through the loop body: the signals
    that arrive between the loop test and the return of [recv] (the
    handler runs before [recv] returns), what [recv] finds, the signals
    that arrive once [send] has been called and before its result is
    reported (the handler runs after the call of [send]), and the result
    of [send].  The last two are not looked at when the pass leaves the
    loop at [recv].  Signals at the other points of the body are the
    matter of [pass_reply] below. *)
Record echo_reply : Type := mkReply {
  recv_sigs : list signal;
  recv_res : recv_reply;
  send_sigs : list signal;
  send_res : Z
}.

(** The ways out of the [while (running)] loop; [Pending] stands for the
    process staying blocked in [recv]. *)
Inductive loop_exit : Type :=
| FlagCleared
| PeerClosed
| RecvFailed
| SendFailed
| Pending.

Definition fmt_received (count n : Z) (buf : list byte) : string :=
  "[MSG " ++ fmt_d count ++ "] Received " ++ fmt_d n ++ " bytes: "
          ++ fmt_s buf ++ nl.

Definition fmt_echoed (count : Z) : string :=
  "[MSG " ++ fmt_d count ++ "] Echoed back to client" ++ nl.

(** One pass through the loop body, lines 104-124.  The result says
    whether the pass left the loop by [break], and why. *)
Definition echo_body (client_fd : Z) (st : state) (r : echo_reply)
  : state * list event * option loop_exit :=
  let st := set_buffer st (memset_zero BUFFER_SIZE) in
  let '(st, t_sig1) := deliver (recv_sigs r) st in
  let '(bytes_received, buf) :=
    sys_recv (BUFFER_SIZE - 1) (buffer st) (recv_res r) in
  let st := set_buffer st buf in
  let t_recv :=
    t_sig1 ++ [Recv client_fd (BUFFER_SIZE - 1) bytes_received
                    (taken (BUFFER_SIZE - 1) (recv_res r))] in
  if bytes_received <=? 0 then
    if bytes_received =? 0 then
      (st, t_recv ++ [Stdout ("Client disconnected" ++ nl)], Some PeerClosed)
    else
      (st, t_recv ++ [Perror "ERROR: Receive failed"], Some RecvFailed)
  else
    let st := set_message_count st (wrap_int (message_count st + 1)) in
    let t_msg :=
      [Stdout (fmt_received (message_count st) bytes_received (buffer st))] in
    let payload := firstn (Z.to_nat bytes_received) (buffer st) in
    let '(st, t_sig2) := deliver (send_sigs r) st in
    let t_send := [Send client_fd payload (send_res r)] ++ t_sig2 in
    if send_res r <? 0 then
      (st, t_recv ++ t_msg ++ t_send ++ [Perror "ERROR: Send failed"],
       Some SendFailed)
    else
      (st, t_recv ++ t_msg ++ t_send
                  ++ [Stdout (fmt_echoed (message_count st))], None).

(** Lines 103-125: the loop test, then the body on the next answers. *)
Fixpoint echo_loop (client_fd : Z) (st : state) (script : list echo_reply)
  : state * list event * loop_exit :=
  if running st =? 0 then (st, [], FlagCleared)
  else
    match script with
    | [] => (set_buffer st (memset_zero BUFFER_SIZE), [], Pending)
    | r :: script' =>
        let '(st1, t1, brk) := echo_body client_fd st r in
        match brk with
        | Some why => (st1, t1, why)
        | None =>
            let '(st2, t2, why) := echo_loop client_fd st1 script' in
            (st2, t1 ++ t2, why)
        end
    end.

(** The answers of the outside to a whole run of the server. *)
Record env : Type := mkEnv {
  atoi_port : Z;                 (* atoi(argv[1]) *)
  socket_rc : Z;
  setsockopt_rc : Z;
  bind_rc : Z;
  listen_rc : Z;
  accept_sigs : list signal;     (* signals arriving before [accept] returns *)
  accept_rc : Z;
  peer_addr : string;            (* inet_ntoa(client_addr.sin_addr) *)
  peer_port : Z;                 (* ntohs(client_addr.sin_port) *)
  stack_buffer : list byte;      (* what [buffer] holds before the loop *)
  replies : list echo_reply
}.

Definition banner (port : Z) : list event :=
  [Stdout ("=== TCP Server Starting ===" ++ nl);
   Stdout ("Port: " ++ fmt_d port ++ nl);
   Stdout ("Max connections: " ++ fmt_d MAX_CONNECTIONS ++ nl);
   Stdout ("===========================" ++ nl ++ nl)].

Definition statistics (message_count : Z) : list event :=
  [Stdout (nl ++ "=== Server Statistics ===" ++ nl);
   Stdout ("Total messages: " ++ fmt_d message_count ++ nl);
   Stdout ("========================" ++ nl)].

(** Lines 127-136. *)
Definition cleanup (server_fd client_fd : Z) (st : state) : list event :=
  statistics (message_count st)
    ++ [Close client_fd; Close server_fd;
        Stdout ("Server shutdown complete" ++ nl)].

(** [main] of server.c. *)
Definition main (argv : list string) (e : env) : list event * outcome :=
  if negb (Z.of_nat (List.length argv) =? 2) then
    ([Stderr ("Usage: " ++ nth 0%nat argv EmptyString ++ " <port>" ++ nl)], Exit 1)
  else
    let port := atoi_port e in
    let t := banner port in
    let server_fd := socket_rc e in
    let t := t ++ [Socket server_fd] in
    if server_fd <? 0 then
      (t ++ [Perror "ERROR: Socket creation failed"], Exit 1)
    else
      let t := t ++ [Setsockopt server_fd (setsockopt_rc e)] in
      if setsockopt_rc e <? 0 then
        (t ++ [Perror "ERROR: Setsockopt failed"; Close server_fd], Exit 1)
      else
        let t := t ++ [Bind server_fd (htons port) (bind_rc e)] in
        if bind_rc e <? 0 then
          (t ++ [Perror "ERROR: Bind failed"; Close server_fd], Exit 1)
        else
          let t := t ++ [Listen server_fd MAX_CONNECTIONS (listen_rc e)] in
          if listen_rc e <? 0 then
            (t ++ [Perror "ERROR: Listen failed"; Close server_fd], Exit 1)
          else
            let t :=
              t ++ [Stdout ("Server listening on port " ++ fmt_d port ++ nl);
                    Stdout ("Waiting for connections..." ++ nl ++ nl)] in
            let st := mkState 1 (stack_buffer e) 0 in
            let '(st, t_sig) := deliver (accept_sigs e) st in
            let client_fd := accept_rc e in
            let t := t ++ t_sig ++ [Accept server_fd client_fd] in
            if client_fd <? 0 then
              (t ++ [Perror "ERROR: Accept failed"; Close server_fd], Exit 1)
            else
              let t :=
                t ++ [Stdout ("Client connected from " ++ peer_addr e ++ ":"
                                ++ fmt_d (peer_port e) ++ nl)] in
              let '(st, t_loop, why) := echo_loop client_fd st (replies e) in
              match why with
              | Pending => (t ++ t_loop, Blocked)
              | _ => (t ++ t_loop ++ cleanup server_fd client_fd st, Exit 0)
              end.

(** *** The handler at every point of the loop body

    The handler can run between any two calls of the body, not only inside
    [recv] and [send].  The signals of one pass, by the stretch of the body
    in which they arrive. *)
Record arrivals : Type := mkArrivals {
  in_recv : list signal;      (* loop test to the return of [recv] *)
  after_recv : list signal;   (* return of [recv] to the line that reports it *)
  before_send : list signal;  (* that line to the call of [send] *)
  in_send : list signal;      (* call of [send] to the line that reports it *)
  after_echo : list signal    (* that line to the next loop test *)
}.

(** The answers to one pass: the signals, what [recv] finds and the result
    of [send].  What lies behind the [break] of a pass is not looked at. *)
Record pass_reply : Type := mkPass {
  pass_sigs : arrivals;
  pass_recv : recv_reply;
  pass_send : Z
}.

(** Lines 104-124 again, with the handler at each of these points. *)
Definition echo_body_with (client_fd : Z) (st : state) (p : pass_reply)
  : state * list event * option loop_exit :=
  let a := pass_sigs p in
  let st := set_buffer st (memset_zero BUFFER_SIZE) in
  let '(st, t_sig1) := deliver (in_recv a) st in
  let '(bytes_received, buf) :=
    sys_recv (BUFFER_SIZE - 1) (buffer st) (pass_recv p) in
  let st := set_buffer st buf in
  let t_recv :=
    t_sig1 ++ [Recv client_fd (BUFFER_SIZE - 1) bytes_received
                    (taken (BUFFER_SIZE - 1) (pass_recv p))] in
  let '(st, t_sig2) := deliver (after_recv a) st in
  if bytes_received <=? 0 then
    if bytes_received =? 0 then
      (st, t_recv ++ t_sig2 ++ [Stdout ("Client disconnected" ++ nl)],
       Some PeerClosed)
    else
      (st, t_recv ++ t_sig2 ++ [Perror "ERROR: Receive failed"],
       Some RecvFailed)
  else
    let st := set_message_count st (wrap_int (message_count st + 1)) in
    let t_msg :=
      [Stdout (fmt_received (message_count st) bytes_received (buffer st))] in
    let '(st, t_sig3) := deliver (before_send a) st in
    let payload := firstn (Z.to_nat bytes_received) (buffer st) in
    let t_send := [Send client_fd payload (pass_send p)] in
    let '(st, t_sig4) := deliver (in_send a) st in
    if pass_send p <? 0 then
      (st, t_recv ++ t_sig2 ++ t_msg ++ t_sig3 ++ t_send ++ t_sig4
                  ++ [Perror "ERROR: Send failed"],
       Some SendFailed)
    else
      let t_echo := [Stdout (fmt_echoed (message_count st))] in
      let '(st, t_sig5) := deliver (after_echo a) st in
      (st, t_recv ++ t_sig2 ++ t_msg ++ t_sig3 ++ t_send ++ t_sig4
                  ++ t_echo ++ t_sig5,
       None).

(** Lines 103-125 on such answers. *)
Fixpoint echo_loop_with (client_fd : Z) (st : state) (script : list pass_reply)
  : state * list event * loop_exit :=
  if running st =? 0 then (st, [], FlagCleared)
  else
    match script with
    | [] => (set_buffer st (memset_zero BUFFER_SIZE), [], Pending)
    | p :: script' =>
        let '(st1, t1, brk) := echo_body_with client_fd st p in
        match brk with
        | Some why => (st1, t1, why)
        | None =>
            let '(st2, t2, why) := echo_loop_with client_fd st1 script' in
            (st2, t1 ++ t2, why)
        end
    end.

(** Lines 103-136: [main] from the loop to its return. *)
Definition serve_with (server_fd client_fd : Z) (st : state)
           (script : list pass_reply) : list event * outcome :=
  let '(st, t_loop, why) := echo_loop_with client_fd st script in
  match why with
  | Pending => (t_loop, Blocked)
  | _ => (t_loop ++ cleanup server_fd client_fd st, Exit 0)
  end.

End Server.

(* ================================================================== *)
(** ** client.c                                                        *)
(* ================================================================== *)

Module Client.

Definition BUFFER_SIZE : Z := 1024.
Definition NUM_MESSAGES : Z := 5.

(** The other end of the connection, as the client meets it: it answers
    each [send] with a result and each [recv] with what it has to offer,
    and may change its own state [P] while doing so. *)
Record peer (P : Type) : Type := mkPeer {
  on_send : P -> list byte -> Z * P;
  on_recv : P -> recv_reply * P
}.
Arguments mkPeer {P} _ _.
Arguments on_send {P} _ _ _.
Arguments on_recv {P} _ _.

(** The two arrays of [main]. *)
Record state : Type := mkState {
  message : list byte;
  buffer : list byte
}.

(** [snprintf(message, BUFFER_SIZE, "Message %d from client", i)]: at most
    [BUFFER_SIZE - 1] bytes of the text and a closing NUL are stored. *)
Definition message_text (i : Z) : list byte :=
  list_byte_of_string ("Message " ++ fmt_d i ++ " from client").

Definition snprintf_message (i : Z) (buf : list byte) : list byte :=
  store (firstn (Z.to_nat (BUFFER_SIZE - 1)) (message_text i) ++ [x00]) buf.

Definition fmt_sending (i : Z) (msg : list byte) : string :=
  "[MSG " ++ fmt_d i ++ "] Sending: " ++ fmt_s msg ++ nl.

Definition fmt_sent (i bytes_sent : Z) : string :=
  "[MSG " ++ fmt_d i ++ "] Sent " ++ fmt_d bytes_sent ++ " bytes" ++ nl.

Definition fmt_echo (i : Z) (buf : list byte) (bytes_received : Z) : string :=
  "[MSG " ++ fmt_d i ++ "] Received echo: " ++ fmt_s buf
          ++ " (" ++ fmt_d bytes_received ++ " bytes)" ++ nl.

Section MessageLoop.

Context {P : Type} (srv : peer P).
Variable sock_fd : Z.

(** One pass through the loop body, lines 73-96.  The flag is [false]
    when the pass left the loop by [break]. *)
Definition exchange (i : Z) (st : state) (p : P)
  : state * P * list event * bool :=
  let st := mkState (snprintf_message i (message st)) (buffer st) in
  let t_msg := [Stdout (fmt_sending i (message st))] in
  let payload := firstn (Z.to_nat (strlen (message st))) (message st) in
  let '(bytes_sent, p) := on_send srv p payload in
  let t_send := t_msg ++ [Send sock_fd payload bytes_sent] in
  if bytes_sent <? 0 then
    (st, p, t_send ++ [Perror "ERROR: Send failed"], false)
  else
    let t_send := t_send ++ [Stdout (fmt_sent i bytes_sent)] in
    let st := mkState (message st) (memset_zero BUFFER_SIZE) in
    let '(reply, p) := on_recv srv p in
    let '(bytes_received, buf) :=
      sys_recv (BUFFER_SIZE - 1) (buffer st) reply in
    let st := mkState (message st) buf in
    let t_recv :=
      t_send ++ [Recv sock_fd (BUFFER_SIZE - 1) bytes_received
                      (taken (BUFFER_SIZE - 1) reply)] in
    if bytes_received <? 0 then
      (st, p, t_recv ++ [Perror "ERROR: Receive failed"], false)
    else
      (st, p,
       t_recv ++ [Stdout (fmt_echo i (buffer st) bytes_received); Sleep 1],
       true).

(** Lines 72-97.  [fuel] bounds the number of loop tests; [main] hands
    in one more than the loop can use.  The result carries the value of
    [i] on leaving the loop. *)
Fixpoint message_loop (fuel : nat) (i : Z) (st : state) (p : P)
  : Z * P * list event :=
  match fuel with
  | O => (i, p, [])
  | S fuel' =>
      if i <=? NUM_MESSAGES then
        let '(st1, p1, t1, completed) := exchange i st p in
        if completed then
          let '(i', p', t') :=
            message_loop fuel' (wrap_int (i + 1)) st1 p1 in
          (i', p', t1 ++ t')
        else (i, p1, t1)
      else (i, p, [])
  end.

End MessageLoop.

(** The answers of the outside to a run of the client. *)
Record env (P : Type) : Type := mkEnv {
  atoi_port : Z;                  (* atoi(argv[2]) *)
  host_found : bool;              (* gethostbyname(hostname) != NULL *)
  socket_rc : Z;
  connect_rc : Z;
  stack_message : list byte;      (* what the arrays hold before the loop *)
  stack_buffer : list byte;
  server : peer P;
  server0 : P
}.
Arguments mkEnv {P} _ _ _ _ _ _ _ _.
Arguments atoi_port {P} _.
Arguments host_found {P} _.
Arguments socket_rc {P} _.
Arguments connect_rc {P} _.
Arguments stack_message {P} _.
Arguments stack_buffer {P} _.
Arguments server {P} _.
Arguments server0 {P} _.

Definition banner (hostname : string) (port : Z) : list event :=
  [Stdout ("=== TCP Client Starting ===" ++ nl);
   Stdout ("Server: " ++ hostname ++ nl);
   Stdout ("Port: " ++ fmt_d port ++ nl);
   Stdout ("===========================" ++ nl ++ nl)].

(** Lines 99-106. *)
Definition statistics (i sock_fd : Z) : list event :=
  [Stdout (nl ++ "=== Client Statistics ===" ++ nl);
   Stdout ("Messages sent: " ++ fmt_d (wrap_int (i - 1)) ++ nl);
   Stdout ("========================" ++ nl);
   Close sock_fd;
   Stdout ("Connection closed" ++ nl)].

Definition loop_fuel : nat := S (Z.to_nat NUM_MESSAGES).

(** [main] of client.c: the events of the run and the exit code. *)
Definition main {P : Type} (argv : list string) (e : env P)
  : list event * Z :=
  if negb (Z.of_nat (List.length argv) =? 3) then
    ([Stderr ("Usage: " ++ nth 0%nat argv EmptyString
                        ++ " <hostname> <port>" ++ nl)], 1)
  else
    let hostname := nth 1%nat argv EmptyString in
    let port := atoi_port e in
    let t := banner hostname port ++ [Gethostbyname hostname (host_found e)] in
    if negb (host_found e) then
      (t ++ [Stderr ("ERROR: No such host: " ++ hostname ++ nl)], 1)
    else
      let sock_fd := socket_rc e in
      let t := t ++ [Socket sock_fd] in
      if sock_fd <? 0 then
        (t ++ [Perror "ERROR: Socket creation failed"], 1)
      else
        let t :=
          t ++ [Stdout ("Connecting to server..." ++ nl);
                Connect sock_fd (htons port) (connect_rc e)] in
        if connect_rc e <? 0 then
          (t ++ [Perror "ERROR: Connection failed"; Close sock_fd], 1)
        else
          let t := t ++ [Stdout ("Connected successfully!" ++ nl ++ nl)] in
          let st := mkState (stack_message e) (stack_buffer e) in
          let '(i, _, t_loop) :=
            message_loop (server e) sock_fd loop_fuel 1 st (server0 e) in
          (t ++ t_loop ++ statistics i sock_fd, 0).

End Client.

(* ================================================================== *)
(** ** The client connected to the server                              *)
(* ================================================================== *)

Module Link.

(** The server as the client meets it through a loss-free connection:
    the variables of the server's loop, the way the loop has ended
    ([Pending] while it is still waiting in [recv]), the events of the
    server so far and the echoes not yet read by the client.  Each write
    of the client reaches the server's next [recv] as one chunk, and each
    write of the server succeeds in full. *)
Record wire : Type := mkWire {
  srv_state : Server.state;
  srv_exit : Server.loop_exit;
  srv_trace : list event;
  in_flight : list (list byte)
}.

Definition fresh (stack_buffer : list byte) : wire :=
  mkWire (Server.mkState 1 stack_buffer 0) Server.Pending [] [].

Definition wire_send (server_fd : Z) (w : wire) (payload : list byte)
  : Z * wire :=
  match srv_exit w with
  | Server.Pending =>
      let r :=
        Server.mkReply [] (RecvBytes payload) []
          (Z.of_nat (List.length (taken (Server.BUFFER_SIZE - 1) (RecvBytes payload)))) in
      let '(st, t, why) := Server.echo_loop server_fd (srv_state w) [r] in
      (Z.of_nat (List.length payload),
       mkWire st why (srv_trace w ++ t) (in_flight w ++ sent t))
  | _ => (-1, w)
  end.

Definition wire_recv (w : wire) : recv_reply * wire :=
  match in_flight w with
  | chunk :: rest =>
      (RecvBytes chunk,
       mkWire (srv_state w) (srv_exit w) (srv_trace w) rest)
  | [] => (RecvClosed, w)
  end.

Definition echo_server (server_fd : Z) : Client.peer wire :=
  Client.mkPeer (wire_send server_fd) wire_recv.

End Link.

(* ================================================================== *)
(** ** The behaviour the loops are checked against                     *)
(* ================================================================== *)

Module Contract.

(** *** Server *)

(** The flag after the handler has run for [sigs]. *)
Definition flag_after (sigs : list signal) (running : Z) : Z :=
  match sigs with [] => running | _ :: _ => 0 end.

(** What the handler prints for [sigs]. *)
Definition handler_trace (sigs : list signal) : list event :=
  flat_map (fun s => [Delivered s;
                      Stdout (nl ++ "Received signal " ++ fmt_d (signum s)
                                 ++ ", shutting down..." ++ nl)]) sigs.

(** A buffer of [size] bytes that holds [d] and zeros behind it. *)
Definition filled (size : Z) (d : list byte) : list byte :=
  d ++ repeat x00 (Z.to_nat size - List.length d).

(** The loop body, told from the answers it consumes: the bytes taken off
    the socket are what is printed and what is written back. *)
Definition echo_pass (client_fd : Z) (st : Server.state) (r : Server.echo_reply)
  : Server.state * list event * option Server.loop_exit :=
  let n := returned (Server.BUFFER_SIZE - 1) (Server.recv_res r) in
  let d := taken (Server.BUFFER_SIZE - 1) (Server.recv_res r) in
  let run1 := flag_after (Server.recv_sigs r) (Server.running st) in
  let t_recv :=
    handler_trace (Server.recv_sigs r) ++ [Recv client_fd (Server.BUFFER_SIZE - 1) n d] in
  if n =? 0 then
    (Server.mkState run1 (filled Server.BUFFER_SIZE d) (Server.message_count st),
     t_recv ++ [Stdout ("Client disconnected" ++ nl)], Some Server.PeerClosed)
  else if n <? 0 then
    (Server.mkState run1 (filled Server.BUFFER_SIZE d) (Server.message_count st),
     t_recv ++ [Perror "ERROR: Receive failed"], Some Server.RecvFailed)
  else
    let c := wrap_int (Server.message_count st + 1) in
    let st' := Server.mkState (flag_after (Server.send_sigs r) run1) (filled Server.BUFFER_SIZE d) c in
    let t :=
      t_recv ++ [Stdout (Server.fmt_received c n d);
                 Send client_fd d (Server.send_res r)]
             ++ handler_trace (Server.send_sigs r) in
    if Server.send_res r <? 0 then
      (st', t ++ [Perror "ERROR: Send failed"], Some Server.SendFailed)
    else
      (st', t ++ [Stdout (Server.fmt_echoed c)], None).

(** What one set of answers does to the echo loop, told from the answers
    alone: the peer has closed, the read fails, the echo cannot be
    written, or a signal has arrived by the time of the next loop test. *)
Definition ends_pass (r : Server.echo_reply) : option Server.loop_exit :=
  let n := returned (Server.BUFFER_SIZE - 1) (Server.recv_res r) in
  if n =? 0 then Some Server.PeerClosed
  else if n <? 0 then Some Server.RecvFailed
  else if Server.send_res r <? 0 then Some Server.SendFailed
  else match Server.recv_sigs r ++ Server.send_sigs r with
       | [] => None
       | _ :: _ => Some Server.FlagCleared
       end.

(** The loop goes on until the first answers that end it. *)
Fixpoint loop_exit_of (script : list Server.echo_reply) : Server.loop_exit :=
  match script with
  | [] => Server.Pending
  | r :: script' =>
      match ends_pass r with
      | Some why => why
      | None => loop_exit_of script'
      end
  end.

(** What the trace of the loop ends with, for each way out. *)
Definition last_words (client_fd : Z) (st' : Server.state) (t : list event)
           (why : Server.loop_exit) : Prop :=
  match why with
  | Server.FlagCleared => Server.running st' = 0
  | Server.PeerClosed =>
      exists t0,
        t = t0 ++ [Recv client_fd (Server.BUFFER_SIZE - 1) 0 [];
                   Stdout ("Client disconnected" ++ nl)]
  | Server.RecvFailed =>
      exists t0 rc d,
        rc < 0
        /\ t = t0 ++ [Recv client_fd (Server.BUFFER_SIZE - 1) rc d;
                      Perror "ERROR: Receive failed"]
  | Server.SendFailed =>
      exists t0 payload rc sigs,
        rc < 0
        /\ t = t0 ++ [Send client_fd payload rc] ++ handler_trace sigs
                  ++ [Perror "ERROR: Send failed"]
  | Server.Pending => Server.running st' <> 0
  end.

(** A signal arrives while these answers are consumed. *)
Definition signalled (r : Server.echo_reply) : bool :=
  match Server.recv_sigs r ++ Server.send_sigs r with
  | [] => false
  | _ :: _ => true
  end.

(** The answers of [echo_reply] as answers with the handler at every
    point: its signals arrive inside [recv] and inside [send]. *)
Definition at_calls (r : Server.echo_reply) : Server.pass_reply :=
  Server.mkPass
    (Server.mkArrivals (Server.recv_sigs r) [] [] (Server.send_sigs r) [])
    (Server.recv_res r) (Server.send_res r).

(** All the signals of a pass, in the order of their arrival. *)
Definition arrived (a : Server.arrivals) : list signal :=
  Server.in_recv a ++ Server.after_recv a ++ Server.before_send a
    ++ Server.in_send a ++ Server.after_echo a.

(** The loop body with the handler at every point, told from the answers
    it consumes. *)
Definition echo_pass_with (client_fd : Z) (st : Server.state)
           (p : Server.pass_reply)
  : Server.state * list event * option Server.loop_exit :=
  let a := Server.pass_sigs p in
  let n := returned (Server.BUFFER_SIZE - 1) (Server.pass_recv p) in
  let d := taken (Server.BUFFER_SIZE - 1) (Server.pass_recv p) in
  let run2 :=
    flag_after (Server.after_recv a)
               (flag_after (Server.in_recv a) (Server.running st)) in
  let t_recv :=
    handler_trace (Server.in_recv a)
      ++ [Recv client_fd (Server.BUFFER_SIZE - 1) n d]
      ++ handler_trace (Server.after_recv a) in
  if n =? 0 then
    (Server.mkState run2 (filled Server.BUFFER_SIZE d) (Server.message_count st),
     t_recv ++ [Stdout ("Client disconnected" ++ nl)], Some Server.PeerClosed)
  else if n <? 0 then
    (Server.mkState run2 (filled Server.BUFFER_SIZE d) (Server.message_count st),
     t_recv ++ [Perror "ERROR: Receive failed"], Some Server.RecvFailed)
  else
    let c := wrap_int (Server.message_count st + 1) in
    let run4 :=
      flag_after (Server.in_send a) (flag_after (Server.before_send a) run2) in
    let t :=
      t_recv ++ [Stdout (Server.fmt_received c n d)]
             ++ handler_trace (Server.before_send a)
             ++ [Send client_fd d (Server.pass_send p)]
             ++ handler_trace (Server.in_send a) in
    if Server.pass_send p <? 0 then
      (Server.mkState run4 (filled Server.BUFFER_SIZE d) c,
       t ++ [Perror "ERROR: Send failed"], Some Server.SendFailed)
    else
      (Server.mkState (flag_after (Server.after_echo a) run4)
                      (filled Server.BUFFER_SIZE d) c,
       t ++ [Stdout (Server.fmt_echoed c)]
         ++ handler_trace (Server.after_echo a),
       None).

(** The start-up failures of the server. *)
Definition server_startup_failed (argv : list string) (e : Server.env) : bool :=
  negb (Z.of_nat (List.length argv) =? 2)
  || (Server.socket_rc e <? 0)
  || (Server.setsockopt_rc e <? 0)
  || (Server.bind_rc e <? 0)
  || (Server.listen_rc e <? 0)
  || (Server.accept_rc e <? 0).

(** The events of the server from its start to the loop, when nothing
    fails on the way. *)
Definition server_startup_trace (e : Server.env) : list event :=
  Server.banner (Server.atoi_port e)
    ++ [Socket (Server.socket_rc e);
        Setsockopt (Server.socket_rc e) (Server.setsockopt_rc e);
        Bind (Server.socket_rc e) (htons (Server.atoi_port e))
             (Server.bind_rc e);
        Listen (Server.socket_rc e) Server.MAX_CONNECTIONS
               (Server.listen_rc e);
        Stdout ("Server listening on port "
                  ++ fmt_d (Server.atoi_port e) ++ nl);
        Stdout ("Waiting for connections..." ++ nl ++ nl)]
    ++ handler_trace (Server.accept_sigs e)
    ++ [Accept (Server.socket_rc e) (Server.accept_rc e);
        Stdout ("Client connected from " ++ Server.peer_addr e ++ ":"
                  ++ fmt_d (Server.peer_port e) ++ nl)].

(** The variables of the server on entering the loop. *)
Definition server_loop_entry (e : Server.env) : Server.state :=
  Server.mkState (flag_after (Server.accept_sigs e) 1)
                 (Server.stack_buffer e) 0.

(** The way the server's loop ends in a run that gets that far. *)
Definition server_loop_exit (e : Server.env) : Server.loop_exit :=
  match Server.accept_sigs e with
  | [] => loop_exit_of (Server.replies e)
  | _ :: _ => Server.FlagCleared
  end.

(** *** Client *)

(** The start-up failures of the client. *)
Definition client_startup_failed {P : Type}
  (argv : list string) (e : Client.env P) : bool :=
  negb (Z.of_nat (List.length argv) =? 3)
  || negb (Client.host_found e)
  || (Client.socket_rc e <? 0)
  || (Client.connect_rc e <? 0).

(** The loop body of the client, told from the answers it consumes:
    message [i] is written as it is, and what is printed of the reply is
    the bytes taken off the socket. *)
Definition exchange_pass {P : Type} (srv : Client.peer P) (sock_fd : Z)
           (i : Z) (st : Client.state) (p : P)
  : Client.state * P * list event * bool :=
  let text := Client.message_text i in
  let msg := store (text ++ [x00]) (Client.message st) in
  let '(bytes_sent, p1) := Client.on_send srv p text in
  let t_send :=
    [Stdout (Client.fmt_sending i text); Send sock_fd text bytes_sent] in
  if bytes_sent <? 0 then
    (Client.mkState msg (Client.buffer st), p1,
     t_send ++ [Perror "ERROR: Send failed"], false)
  else
    let '(reply, p2) := Client.on_recv srv p1 in
    let n := returned (Client.BUFFER_SIZE - 1) reply in
    let d := taken (Client.BUFFER_SIZE - 1) reply in
    let st' := Client.mkState msg (filled Client.BUFFER_SIZE d) in
    let t_recv :=
      t_send ++ [Stdout (Client.fmt_sent i bytes_sent);
                 Recv sock_fd (Client.BUFFER_SIZE - 1) n d] in
    if n <? 0 then
      (st', p2, t_recv ++ [Perror "ERROR: Receive failed"], false)
    else
      (st', p2, t_recv ++ [Stdout (Client.fmt_echo i d n); Sleep 1], true).

(** The events of the client from its start to the loop, when nothing
    fails on the way. *)
Definition client_startup_trace {P : Type}
           (argv : list string) (e : Client.env P) : list event :=
  Client.banner (nth 1%nat argv EmptyString) (Client.atoi_port e)
    ++ [Gethostbyname (nth 1%nat argv EmptyString) true;
        Socket (Client.socket_rc e);
        Stdout ("Connecting to server..." ++ nl);
        Connect (Client.socket_rc e) (htons (Client.atoi_port e))
                (Client.connect_rc e);
        Stdout ("Connected successfully!" ++ nl ++ nl)].

(** The reads and writes of the message loop from index [i] on, and the
    index the loop is left with: message [i] is written, its reply is
    read, and only then message [i + 1] is written; the first call that
    fails is the last one. *)
Inductive exchanges (fd : Z) : Z -> list event -> Z -> Prop :=
| ex_done i :
    Client.NUM_MESSAGES < i ->
    exchanges fd i [] i
| ex_send_failed i rc :
    i <= Client.NUM_MESSAGES -> rc < 0 ->
    exchanges fd i [Send fd (Client.message_text i) rc] i
| ex_recv_failed i rc rc' d :
    i <= Client.NUM_MESSAGES -> 0 <= rc -> rc' < 0 ->
    exchanges fd i
      [Send fd (Client.message_text i) rc;
       Recv fd (Client.BUFFER_SIZE - 1) rc' d] i
| ex_next i rc rc' d t j :
    i <= Client.NUM_MESSAGES -> 0 <= rc -> 0 <= rc' ->
    exchanges fd (i + 1) t j ->
    exchanges fd i
      (Send fd (Client.message_text i) rc
         :: Recv fd (Client.BUFFER_SIZE - 1) rc' d :: t) j.

(** The five messages, as text. *)
Definition five_messages : list (list byte) :=
  map list_byte_of_string
      ["Message 1 from client"; "Message 2 from client";
       "Message 3 from client"; "Message 4 from client";
       "Message 5 from client"]%string.

(** A peer that takes every write and has closed its side: every read
    returns 0. *)
Definition closed_peer : Client.peer unit :=
  Client.mkPeer (fun _ payload => (Z.of_nat (List.length payload), tt))
                (fun _ => (RecvClosed, tt)).

End Contract.

(* ================================================================== *)
(** ** Runs used as examples                                           *)
(* ================================================================== *)

Module Scenario.

Definition hi : list byte := list_byte_of_string "hi".

(** A server on port 8080 whose start-up succeeds: listening socket 3,
    connection 4, and [script] for the loop. *)
Definition server_env (script : list Server.echo_reply) : Server.env :=
  Server.mkEnv 8080 3 0 0 0 [] 4 "127.0.0.1" 40000 [] script.

Definition server_argv : list string := ["server"; "8080"]%string.

(** One message arrives and the echo cannot be written. *)
Definition send_fails : list Server.echo_reply :=
  [Server.mkReply [] (RecvBytes hi) [] (-1)].

(** One message is echoed, then the peer closes. *)
Definition peer_closes : list Server.echo_reply :=
  [Server.mkReply [] (RecvBytes hi) [] 2;
   Server.mkReply [] RecvClosed [] 0].

(** SIGINT arrives while the server waits for the second message; a
    third message would be there to read. *)
Definition interrupted : list Server.echo_reply :=
  [Server.mkReply [] (RecvBytes hi) [] 2;
   Server.mkReply [SIGINT] (RecvBytes hi) [] 2;
   Server.mkReply [] (RecvBytes hi) [] 2].

(** SIGINT arrives after the first message has been read, while its echo
    is written; a second message would be there to read. *)
Definition interrupted_after_read : list Server.echo_reply :=
  [Server.mkReply [] (RecvBytes hi) [SIGINT] 2;
   Server.mkReply [] (RecvBytes hi) [] 2].

(** SIGTERM arrives after the first message has been read and before
    its echo is written; a second message would be there to read. *)
Definition interrupted_before_send : list Server.pass_reply :=
  [Server.mkPass (Server.mkArrivals [] [] [SIGTERM] [] []) (RecvBytes hi) 2;
   Server.mkPass (Server.mkArrivals [] [] [] [] []) (RecvBytes hi) 2].

(** The peer has 1024 bytes ready. *)
Definition kilobyte : list byte := repeat "A"%byte 1024.

(** A chunk of exactly 1023 bytes that starts with [d]. *)
Definition kilobyte_less_one (d : list byte) : list byte :=
  firstn 1023 (d ++ kilobyte).

Definition big_read : list Server.echo_reply :=
  [Server.mkReply [] (RecvBytes kilobyte) [] 1023].

(** A client whose start-up succeeds on socket 3, talking to [srv]. *)
Definition client_env {P : Type} (srv : Client.peer P) (p : P)
  : Client.env P :=
  Client.mkEnv 8080 true 3 0 [] [] srv p.

Definition client_argv : list string :=
  ["client"; "localhost"; "8080"]%string.

(** A client whose [connect] is refused. *)
Definition refused_env : Client.env unit :=
  Client.mkEnv 8080 true 3 (-1) [] [] Contract.closed_peer tt.

(** A peer that takes every write and always has 1024 bytes ready. *)
Definition big_peer : Client.peer unit :=
  Client.mkPeer (fun _ payload => (Z.of_nat (List.length payload), tt))
                (fun _ => (RecvBytes kilobyte, tt)).

(** A peer whose second read fails. *)
Definition failing_peer : Client.peer nat :=
  Client.mkPeer (fun k payload => (Z.of_nat (List.length payload), k))
                (fun k => match k with
                          | O => (RecvBytes hi, S k)
                          | S _ => (RecvError, S k)
                          end).

End Scenario.

(* ================================================================== *)
(** ** Further views of a run                                          *)
(* ================================================================== *)

Module Ledger.

(** The descriptors a trace closes, in order. *)
Definition closes (t : list event) : list Z :=
  flat_map (fun e => match e with Close fd => [fd] | _ => [] end) t.

(** The descriptors a trace obtains from [socket] and [accept], in order. *)
Definition opened (t : list event) : list Z :=
  flat_map (fun e => match e with
                     | Socket rc => if rc <? 0 then [] else [rc]
                     | Accept _ rc => if rc <? 0 then [] else [rc]
                     | _ => []
                     end) t.

(** The pauses of a trace. *)
Definition sleeps (t : list event) : nat :=
  List.length
    (filter (fun e => match e with Sleep _ => true | _ => false end) t).

(** Some read of the trace has failed. *)
Definition recv_failed (t : list event) : bool :=
  existsb (fun e => match e with Recv _ _ rc _ => rc <? 0 | _ => false end) t.

(** The calls that set a connection up, and whether such a call succeeded. *)
Definition is_setup (e : event) : bool :=
  match e with
  | Gethostbyname _ _ | Socket _ | Setsockopt _ _ | Bind _ _ _
  | Listen _ _ _ | Accept _ _ | Connect _ _ _ => true
  | _ => false
  end.

Definition setup_calls (t : list event) : list event := filter is_setup t.

Definition call_ok (e : event) : bool :=
  match e with
  | Gethostbyname _ found => found
  | Socket rc | Setsockopt _ rc | Bind _ _ rc | Listen _ _ rc
  | Accept _ rc | Connect _ _ rc => 0 <=? rc
  | _ => true
  end.

(** The set-up calls of the server and of the client in full, with the
    results the outside gives them. *)
Definition server_setup (e : Server.env) : list event :=
  [Socket (Server.socket_rc e);
   Setsockopt (Server.socket_rc e) (Server.setsockopt_rc e);
   Bind (Server.socket_rc e) (htons (Server.atoi_port e)) (Server.bind_rc e);
   Listen (Server.socket_rc e) Server.MAX_CONNECTIONS (Server.listen_rc e);
   Accept (Server.socket_rc e) (Server.accept_rc e)].

Definition client_setup {P : Type} (argv : list string) (e : Client.env P)
  : list event :=
  [Gethostbyname (nth 1%nat argv EmptyString) (Client.host_found e);
   Socket (Client.socket_rc e);
   Connect (Client.socket_rc e) (htons (Client.atoi_port e))
           (Client.connect_rc e)].

(** The events a message loop or an echo loop can produce. *)
Definition is_loop_event (e : event) : bool :=
  match e with
  | Stdout _ | Perror _ | Delivered _ | Recv _ _ _ _ | Send _ _ _ | Sleep _ =>
      true
  | _ => false
  end.

(** The tallies of a trace: reads, writes that did not fail, reads that did
    not fail, pauses, and whether a read failed. *)
Definition tallies_agree (t : list event) : Prop :=
  recv_count t = sends_done t
  /\ sends_done t = (recvs_done t + (if recv_failed t then 1 else 0))%nat
  /\ sleeps t = recvs_done t.

(** Events that are neither a read nor a write nor a pause. *)
Definition is_silent (e : event) : bool :=
  match e with
  | Recv _ _ _ _ | Send _ _ _ | Sleep _ => false
  | _ => true
  end.

(** Answers of a peer that offers [avail] to each read in turn, sends no
    signal and takes every echo in full. *)
Definition offers (avails : list (list byte)) : list Server.echo_reply :=
  map (fun avail =>
         Server.mkReply [] (RecvBytes avail) []
           (Z.of_nat (List.length (taken (Server.BUFFER_SIZE - 1)
                                         (RecvBytes avail)))))
      avails.

(** The answer of a peer that has closed. *)
Definition hangup : Server.echo_reply := Server.mkReply [] RecvClosed [] 0.

(** What is left of a byte stream [s] at each read of [len] bytes, until
    nothing is left. *)
Fixpoint remainders (len : nat) (fuel : nat) (s : list byte)
  : list (list byte) :=
  match fuel with
  | O => []
  | S fuel' =>
      match s with
      | [] => []
      | _ :: _ => s :: remainders len fuel' (skipn len s)
      end
  end.

End Ledger.

(* ================================================================== *)
(** ** Facts about the C library model                                 *)
(* ================================================================== *)

Module LibcFacts.

Lemma wrap_int_id (z : Z) : INT_MIN <= z <= INT_MAX -> wrap_int z = z.
Proof.
  unfold wrap_int, INT_MIN, INT_MAX; intros Hz.
  rewrite Z.mod_small; lia.
Qed.

Lemma firstn_store (d buf : list byte) :
  firstn (List.length d) (store d buf) = d.
Proof.
  unfold store.
  rewrite firstn_app, Nat.sub_diag, firstn_all; simpl.
  apply app_nil_r.
Qed.

Lemma skipn_zeros (k n : nat) :
  skipn k (repeat x00 n) = repeat x00 (n - k).
Proof.
  revert n; induction k as [|k IH]; intros [|n]; simpl; auto.
Qed.

Lemma c_str_nul (d rest : list byte) :
  c_str (d ++ x00 :: rest) = c_str d.
Proof.
  induction d as [|x d IH]; simpl; [reflexivity|].
  destruct (Byte.eqb x x00); [reflexivity | now rewrite IH].
Qed.

Lemma taken_length (len : Z) (r : recv_reply) :
  (List.length (taken len r) <= Z.to_nat len)%nat.
Proof.
  destruct r; simpl; try lia.
  rewrite length_firstn; lia.
Qed.

Lemma sys_recv_rc (len : Z) (buf : list byte) (r : recv_reply) :
  fst (sys_recv len buf r) = returned len r.
Proof. destruct r; reflexivity. Qed.

Lemma sys_recv_buf (len : Z) (buf : list byte) (r : recv_reply) :
  snd (sys_recv len buf r) = store (taken len r) buf.
Proof. destruct r; reflexivity. Qed.

Lemma returned_cases (len : Z) (r : recv_reply) :
  returned len r = Z.of_nat (List.length (taken len r))
  \/ (returned len r = -1 /\ taken len r = []).
Proof. destruct r; simpl; auto. Qed.

Lemma returned_pos (len : Z) (r : recv_reply) :
  0 < returned len r ->
  Z.to_nat (returned len r) = List.length (taken len r).
Proof. destruct (returned_cases len r) as [-> | [-> _]]; lia. Qed.

Lemma returned_le (len : Z) (r : recv_reply) :
  0 <= len -> returned len r <= len.
Proof.
  intros Hlen; pose proof (taken_length len r).
  destruct (returned_cases len r) as [-> | [-> _]]; lia.
Qed.

(** A read into a zeroed buffer leaves the bytes read and zeros. *)
Lemma store_zeroed (size : Z) (d : list byte) :
  store d (memset_zero size) = Contract.filled size d.
Proof.
  unfold store, memset_zero, Contract.filled.
  now rewrite skipn_zeros.
Qed.

(** The string in such a buffer is the string in the bytes read, as long
    as one zero is left behind them. *)
Lemma c_str_filled (size : Z) (d : list byte) :
  (List.length d < Z.to_nat size)%nat ->
  c_str (Contract.filled size d) = c_str d.
Proof.
  intros Hd; unfold Contract.filled.
  destruct (Z.to_nat size - List.length d)%nat as [|k] eqn:Hk; [lia|].
  simpl; apply c_str_nul.
Qed.

Lemma firstn_filled (size : Z) (d : list byte) :
  firstn (List.length d) (Contract.filled size d) = d.
Proof.
  unfold Contract.filled.
  rewrite firstn_app, Nat.sub_diag, firstn_all; simpl.
  apply app_nil_r.
Qed.

Lemma sent_app (t1 t2 : list event) : sent (t1 ++ t2) = sent t1 ++ sent t2.
Proof. apply flat_map_app. Qed.

Lemma received_app (t1 t2 : list event) :
  received (t1 ++ t2) = received t1 ++ received t2.
Proof. apply flat_map_app. Qed.

End LibcFacts.

(* ================================================================== *)
(** ** Facts about the server                                          *)
(* ================================================================== *)

Module ServerFacts.

Import Server Contract LibcFacts.

Lemma deliver_eq (sigs : list signal) (st : state) :
  deliver sigs st =
    (mkState (flag_after sigs (running st)) (buffer st) (message_count st),
     handler_trace sigs).
Proof.
  revert st; induction sigs as [|s sigs IH]; intros [run buf cnt].
  - reflexivity.
  - cbn [deliver signal_handler]; rewrite IH; cbn.
    now destruct sigs.
Qed.

Lemma echo_body_eq (client_fd : Z) (st : state) (r : echo_reply) :
  echo_body client_fd st r = echo_pass client_fd st r.
Proof.
  unfold echo_body, echo_pass.
  rewrite deliver_eq; cbn [buffer running message_count set_buffer].
  pose proof (sys_recv_rc (BUFFER_SIZE - 1) (memset_zero BUFFER_SIZE)
                (recv_res r)) as Hrc.
  pose proof (sys_recv_buf (BUFFER_SIZE - 1) (memset_zero BUFFER_SIZE)
                (recv_res r)) as Hbuf.
  destruct (sys_recv _ _ _) as [n buf]; cbn [fst snd] in Hrc, Hbuf.
  subst n buf; rewrite store_zeroed.
  set (n := returned _ _); set (d := taken _ _).
  destruct (Z.eqb_spec n 0) as [E0|N0].
  - rewrite E0; reflexivity.
  - destruct (Z.ltb_spec n 0) as [Hneg|Hpos].
    + replace (n <=? 0) with true by (symmetry; apply Z.leb_le; lia).
      reflexivity.
    + replace (n <=? 0) with false by (symmetry; apply Z.leb_gt; lia).
      cbn [set_message_count set_buffer buffer running message_count].
      rewrite deliver_eq.
      cbn [set_message_count set_buffer buffer running message_count].
      assert (Hn : Z.to_nat n = List.length d)
        by (apply returned_pos; fold n; lia).
      rewrite Hn; cbn [set_message_count set_buffer buffer running message_count].
      rewrite firstn_filled.
      assert (Hs : fmt_s (filled BUFFER_SIZE d) = fmt_s d).
      { unfold fmt_s; rewrite c_str_filled; [reflexivity|].
        pose proof (taken_length (BUFFER_SIZE - 1) (recv_res r)).
        fold d in H; unfold BUFFER_SIZE in *; lia. }
      unfold fmt_received; rewrite Hs.
      destruct (send_res r <? 0); rewrite <- !app_assoc; reflexivity.
Qed.

(** *** The loop, one pass at a time *)

Lemma echo_loop_stopped (client_fd : Z) (st : state) (script : list echo_reply) :
  running st = 0 -> echo_loop client_fd st script = (st, [], FlagCleared).
Proof. intros H; destruct script; simpl; now rewrite H. Qed.

Lemma echo_loop_nil (client_fd : Z) (st : state) :
  running st <> 0 ->
  echo_loop client_fd st [] =
    (set_buffer st (memset_zero BUFFER_SIZE), [], Pending).
Proof. intros H; simpl; now destruct (Z.eqb_spec (running st) 0). Qed.

Lemma echo_loop_cons (client_fd : Z) (st : state) (r : echo_reply)
      (script : list echo_reply) :
  running st <> 0 ->
  echo_loop client_fd st (r :: script) =
    match echo_pass client_fd st r with
    | (st1, t1, Some why) => (st1, t1, why)
    | (st1, t1, None) =>
        let '(st2, t2, why) := echo_loop client_fd st1 script in
        (st2, t1 ++ t2, why)
    end.
Proof.
  intros H; cbn [echo_loop].
  destruct (Z.eqb_spec (running st) 0); [contradiction|].
  now rewrite echo_body_eq.
Qed.

(** Induction along the passes of a run. *)
Lemma echo_loop_ind (client_fd : Z)
      (Q : state -> list echo_reply -> state * list event * loop_exit -> Prop) :
  (forall st script, running st = 0 -> Q st script (st, [], FlagCleared)) ->
  (forall st, running st <> 0 ->
              Q st [] (set_buffer st (memset_zero BUFFER_SIZE), [], Pending)) ->
  (forall st r script st1 t1 why,
      running st <> 0 ->
      echo_pass client_fd st r = (st1, t1, Some why) ->
      Q st (r :: script) (st1, t1, why)) ->
  (forall st r script st1 t1 st2 t2 why,
      running st <> 0 ->
      echo_pass client_fd st r = (st1, t1, None) ->
      echo_loop client_fd st1 script = (st2, t2, why) ->
      Q st1 script (st2, t2, why) ->
      Q st (r :: script) (st2, t1 ++ t2, why)) ->
  forall st script, Q st script (echo_loop client_fd st script).
Proof.
  intros Hstop Hnil Hbreak Hnext st script; revert st.
  induction script as [|r script IH]; intros st;
    destruct (Z.eq_dec (running st) 0) as [E|N].
  - rewrite echo_loop_stopped by assumption; auto.
  - rewrite echo_loop_nil by assumption; auto.
  - rewrite echo_loop_stopped by assumption; auto.
  - rewrite echo_loop_cons by assumption.
    destruct (echo_pass client_fd st r) as [[st1 t1] [why|]] eqn:Hpass.
    + eauto.
    + specialize (IH st1).
      destruct (echo_loop client_fd st1 script) as [[st2 t2] why] eqn:Hrest.
      eauto.
Qed.

(** Case analysis on a pass [H : echo_pass fd st r = (st1, t1, brk)]. *)
Ltac pass_cases H :=
  unfold echo_pass in H;
  match type of H with
  | context [returned ?len (recv_res ?r) =? 0] =>
      let n := fresh "n" in
      let Hn := fresh "Hn" in
      remember (returned len (recv_res r)) as n eqn:Hn;
      destruct (Z.eqb_spec n 0);
      [ | destruct (Z.ltb_spec n 0);
          [ | destruct (Z.ltb_spec (send_res r) 0) ] ];
      let Hbrk := fresh "Hbrk" in
      let Hst := fresh "Hst" in
      apply pair_equal_spec in H; destruct H as [H Hbrk];
      apply pair_equal_spec in H; destruct H as [Hst H];
      try discriminate Hbrk; try (injection Hbrk as Hbrk); subst;
      try clear Hbrk
  end.

Lemma sent_handler (sigs : list signal) : sent (handler_trace sigs) = [].
Proof. induction sigs; simpl; auto. Qed.

Lemma received_handler (sigs : list signal) :
  received (handler_trace sigs) = [].
Proof. induction sigs; simpl; auto. Qed.

Create Rewrite HintDb trace.
#[export] Hint Rewrite sent_app received_app sent_handler received_handler
     app_nil_r app_nil_l : trace.

Lemma echo_pass_sent_received (client_fd : Z) (st st1 : state)
      (r : echo_reply) (t1 : list event) (brk : option loop_exit) :
  echo_pass client_fd st r = (st1, t1, brk) ->
  sent t1 = received t1
  /\ (sent t1 = [] \/ sent t1 = [taken (BUFFER_SIZE - 1) (recv_res r)]).
Proof.
  intros H; pass_cases H; autorewrite with trace;
    cbn [sent received flat_map app].
  all: try match goal with
           | |- context [0 <? ?x] => destruct (Z.ltb_spec 0 x); try lia
           end.
  all: autorewrite with trace; cbn [app]; auto.
Qed.

Lemma echo_loop_sent_received (client_fd : Z) (st : state)
      (script : list echo_reply) :
  sent (snd (fst (echo_loop client_fd st script)))
  = received (snd (fst (echo_loop client_fd st script))).
Proof.
  apply (echo_loop_ind client_fd
           (fun _ _ res => sent (snd (fst res)) = received (snd (fst res))));
    cbn [fst snd]; intros; autorewrite with trace; auto.
  - eapply echo_pass_sent_received; eauto.
  - f_equal; [eapply echo_pass_sent_received; eauto | assumption].
Qed.

(** *** How the loop ends *)

Lemma flag_after_app (s1 s2 : list signal) (v : Z) :
  flag_after s2 (flag_after s1 v) = flag_after (s1 ++ s2) v.
Proof. destruct s1, s2; reflexivity. Qed.

Lemma echo_pass_ends (client_fd : Z) (st st1 : state) (r : echo_reply)
      (t1 : list event) (brk : option loop_exit) :
  echo_pass client_fd st r = (st1, t1, brk) ->
  running st1 = flag_after (recv_sigs r ++ send_sigs r) (running st)
  \/ brk <> None /\ brk <> Some FlagCleared.
Proof.
  intros H; pass_cases H; cbn [running];
    rewrite ?flag_after_app; auto; right; split; discriminate.
Qed.

Lemma echo_pass_brk (client_fd : Z) (st st1 : state) (r : echo_reply)
      (t1 : list event) (brk : option loop_exit) :
  echo_pass client_fd st r = (st1, t1, brk) ->
  match brk with
  | Some why => ends_pass r = Some why
  | None => ends_pass r = if signalled r then Some FlagCleared else None
  end.
Proof.
  intros H; pass_cases H; unfold ends_pass, signalled.
  - now rewrite e.
  - destruct (Z.eqb_spec (returned (BUFFER_SIZE - 1) (recv_res r)) 0); [lia|].
    destruct (Z.ltb_spec (returned (BUFFER_SIZE - 1) (recv_res r)) 0);
      [reflexivity|lia].
  - destruct (Z.eqb_spec (returned (BUFFER_SIZE - 1) (recv_res r)) 0); [lia|].
    destruct (Z.ltb_spec (returned (BUFFER_SIZE - 1) (recv_res r)) 0); [lia|].
    destruct (Z.ltb_spec (send_res r) 0); [reflexivity|lia].
  - destruct (Z.eqb_spec (returned (BUFFER_SIZE - 1) (recv_res r)) 0); [lia|].
    destruct (Z.ltb_spec (returned (BUFFER_SIZE - 1) (recv_res r)) 0); [lia|].
    destruct (Z.ltb_spec (send_res r) 0); [lia|].
    now destruct (recv_sigs r ++ send_sigs r).
Qed.

Lemma echo_loop_exit (client_fd : Z) (st : state) (script : list echo_reply) :
  snd (echo_loop client_fd st script)
  = if running st =? 0 then FlagCleared else loop_exit_of script.
Proof.
  apply (echo_loop_ind client_fd
           (fun st script res =>
              snd res = if running st =? 0 then FlagCleared
                        else loop_exit_of script));
    cbn [fst snd loop_exit_of]; intros.
  - now rewrite H.
  - now destruct (Z.eqb_spec (running st0) 0).
  - destruct (Z.eqb_spec (running st0) 0); [contradiction|].
    now rewrite (echo_pass_brk _ _ _ _ _ _ H0).
  - destruct (Z.eqb_spec (running st0) 0); [contradiction|].
    pose proof (echo_pass_brk _ _ _ _ _ _ H0) as Hb; cbn in Hb.
    destruct (echo_pass_ends _ _ _ _ _ _ H0) as [Hr | [Hr _]];
      [|congruence].
    rewrite Hb, H2, Hr; unfold signalled.
    destruct (recv_sigs r ++ send_sigs r); cbn [flag_after].
    + now destruct (Z.eqb_spec (running st0) 0).
    + reflexivity.
Qed.

(** *** The counter *)

Lemma echo_pass_count (client_fd : Z) (st st1 : state) (r : echo_reply)
      (t1 : list event) (brk : option loop_exit) :
  0 <= message_count st < INT_MAX ->
  echo_pass client_fd st r = (st1, t1, brk) ->
  message_count st1
  = message_count st + Z.of_nat (List.length (received t1))
  /\ (List.length (received t1) <= 1)%nat.
Proof.
  intros Hc H.
  assert (Hw : wrap_int (message_count st + 1) = message_count st + 1)
    by (apply wrap_int_id; unfold INT_MIN, INT_MAX in *; lia).
  pass_cases H; autorewrite with trace;
    cbn [sent received flat_map app message_count].
  all: try match goal with
           | |- context [0 <? ?x] => destruct (Z.ltb_spec 0 x); try lia
           end.
  all: autorewrite with trace; cbn [app List.length]; rewrite ?Hw; lia.
Qed.

Lemma echo_loop_count (client_fd : Z) (st : state) (script : list echo_reply) :
  0 <= message_count st ->
  message_count st + Z.of_nat (List.length script) <= INT_MAX ->
  message_count (fst (fst (echo_loop client_fd st script)))
  = message_count st
    + Z.of_nat (List.length
                  (received (snd (fst (echo_loop client_fd st script)))))
  /\ (List.length (received (snd (fst (echo_loop client_fd st script))))
      <= List.length script)%nat.
Proof.
  apply (echo_loop_ind client_fd
           (fun st script res =>
              0 <= message_count st ->
              message_count st + Z.of_nat (List.length script) <= INT_MAX ->
              message_count (fst (fst res))
              = message_count st
                + Z.of_nat (List.length (received (snd (fst res))))
              /\ (List.length (received (snd (fst res)))
                  <= List.length script)%nat));
    cbn [fst snd List.length message_count set_buffer].
  - intros; simpl; lia.
  - intros; simpl; lia.
  - intros s r script' s1 t1 why _ Hpass Hc Hlen.
    apply (echo_pass_count _ _ _ _ _ _) in Hpass; [|lia]; lia.
  - intros s r script' s1 t1 s2 t2 why _ Hpass _ IH Hc Hlen.
    apply (echo_pass_count _ _ _ _ _ _) in Hpass; [|lia].
    rewrite received_app, length_app.
    destruct Hpass, IH; lia.
Qed.

(** *** The buffer *)

Lemma echo_pass_buffer (client_fd : Z) (st : state) (b : list byte)
      (r : echo_reply) :
  echo_pass client_fd (set_buffer st b) r = echo_pass client_fd st r.
Proof. reflexivity. Qed.

Lemma echo_loop_buffer_running (client_fd : Z) (st : state) (b : list byte)
      (script : list echo_reply) :
  running st <> 0 ->
  echo_loop client_fd (set_buffer st b) script = echo_loop client_fd st script.
Proof.
  intros H; destruct script as [|r script].
  - now rewrite !echo_loop_nil.
  - now rewrite !echo_loop_cons, echo_pass_buffer.
Qed.

Lemma echo_loop_buffer (client_fd : Z) (st : state) (b : list byte)
      (script : list echo_reply) :
  let run1 := echo_loop client_fd st script in
  let run2 := echo_loop client_fd (set_buffer st b) script in
  snd (fst run2) = snd (fst run1)
  /\ snd run2 = snd run1
  /\ message_count (fst (fst run2)) = message_count (fst (fst run1))
  /\ running (fst (fst run2)) = running (fst (fst run1)).
Proof.
  cbv zeta; destruct (Z.eq_dec (running st) 0) as [E|N].
  - rewrite !echo_loop_stopped by assumption; auto.
  - now rewrite echo_loop_buffer_running.
Qed.

(** *** Runs on longer scripts *)

Lemma echo_pass_not_pending (client_fd : Z) (st st1 : state)
      (r : echo_reply) (t1 : list event) :
  echo_pass client_fd st r <> (st1, t1, Some Pending).
Proof. intros H; pass_cases H. Qed.

Lemma echo_loop_app (client_fd : Z) (st : state) (a b : list echo_reply) :
  echo_loop client_fd st (a ++ b) =
    match echo_loop client_fd st a with
    | (st1, t1, Pending) =>
        let '(st2, t2, why) := echo_loop client_fd st1 b in
        (st2, t1 ++ t2, why)
    | res => res
    end.
Proof.
  revert st; induction a as [|r a IH]; intros st;
    destruct (Z.eq_dec (running st) 0) as [E|N].
  - now rewrite !echo_loop_stopped.
  - rewrite echo_loop_nil by assumption; cbn [app].
    rewrite echo_loop_buffer_running by assumption.
    now destruct (echo_loop client_fd st b) as [[? ?] ?].
  - now rewrite !echo_loop_stopped.
  - cbn [app]; rewrite !echo_loop_cons by assumption.
    destruct (echo_pass client_fd st r) as [[st1 t1] [why|]] eqn:Hpass.
    + destruct why; try reflexivity.
      now apply echo_pass_not_pending in Hpass.
    + rewrite IH.
      destruct (echo_loop client_fd st1 a) as [[st2 t2] why].
      destruct why; try reflexivity.
      destruct (echo_loop client_fd st2 b) as [[st3 t3] why3].
      now rewrite app_assoc.
Qed.

(** *** Reads *)

Lemma reads_within_app (len : Z) (t1 t2 : list event) :
  reads_within len t1 -> reads_within len t2 -> reads_within len (t1 ++ t2).
Proof. unfold reads_within; intros; apply Forall_app; auto. Qed.

Lemma reads_within_handler (len : Z) (sigs : list signal) :
  reads_within len (handler_trace sigs).
Proof.
  unfold reads_within; induction sigs; simpl; repeat constructor; auto.
Qed.

Lemma recv_bounds (r : recv_reply) :
  returned (BUFFER_SIZE - 1) r <= BUFFER_SIZE - 1
  /\ Z.of_nat (List.length (taken (BUFFER_SIZE - 1) r)) <= BUFFER_SIZE - 1.
Proof.
  pose proof (taken_length (BUFFER_SIZE - 1) r).
  pose proof (returned_le (BUFFER_SIZE - 1) r).
  unfold BUFFER_SIZE in *; lia.
Qed.

Lemma echo_pass_reads (client_fd : Z) (st st1 : state) (r : echo_reply)
      (t1 : list event) (brk : option loop_exit) :
  echo_pass client_fd st r = (st1, t1, brk) ->
  reads_within (BUFFER_SIZE - 1) t1.
Proof.
  intros H; pose proof (recv_bounds (recv_res r)) as [Hn Hd].
  pass_cases H; unfold reads_within; rewrite ?Forall_app;
    repeat first [apply (reads_within_handler (BUFFER_SIZE - 1))
                 | constructor];
    auto; lia.
Qed.

Lemma echo_loop_reads (client_fd : Z) (st : state) (script : list echo_reply) :
  reads_within (BUFFER_SIZE - 1) (snd (fst (echo_loop client_fd st script))).
Proof.
  apply (echo_loop_ind client_fd
           (fun _ _ res => reads_within (BUFFER_SIZE - 1) (snd (fst res))));
    cbn [fst snd]; intros;
    eauto using reads_within_app, echo_pass_reads; constructor.
Qed.

(** *** Signals *)

Lemma recv_count_app (t1 t2 : list event) :
  recv_count (t1 ++ t2) = (recv_count t1 + recv_count t2)%nat.
Proof. unfold recv_count; now rewrite filter_app, length_app. Qed.

Lemma recv_count_handler (sigs : list signal) :
  recv_count (handler_trace sigs) = 0%nat.
Proof. induction sigs; simpl; auto. Qed.

Lemma recv_count_after (t : list event) :
  (recv_count (after_first_signal t) <= recv_count t)%nat.
Proof.
  induction t as [|e t IH]; simpl; [lia|].
  destruct e; unfold recv_count in *; simpl; lia.
Qed.

Lemma has_signal_app (t1 t2 : list event) :
  has_signal (t1 ++ t2) = has_signal t1 || has_signal t2.
Proof. apply existsb_app. Qed.

Lemma has_signal_handler (sigs : list signal) :
  has_signal (handler_trace sigs)
  = match sigs with [] => false | _ :: _ => true end.
Proof. now destruct sigs. Qed.

Lemma after_first_signal_app (t1 t2 : list event) :
  after_first_signal (t1 ++ t2)
  = if has_signal t1 then after_first_signal t1 ++ t2
    else after_first_signal t2.
Proof.
  induction t1 as [|e t1 IH]; simpl; [reflexivity|].
  destruct e; simpl; auto.
Qed.

Lemma sends_done_app (t1 t2 : list event) :
  sends_done (t1 ++ t2) = (sends_done t1 + sends_done t2)%nat.
Proof. unfold sends_done; now rewrite filter_app, length_app. Qed.

Lemma sends_done_handler (sigs : list signal) :
  sends_done (handler_trace sigs) = 0%nat.
Proof. induction sigs; simpl; auto. Qed.

Lemma recv_count_cons (e : event) (t : list event) :
  recv_count (e :: t)
  = ((match e with Recv _ _ _ _ => 1 | _ => 0 end) + recv_count t)%nat.
Proof. now destruct e. Qed.

Lemma sends_done_cons (e : event) (t : list event) :
  sends_done (e :: t)
  = ((match e with Send _ _ rc => if (0 <=? rc)%Z then 1 else 0 | _ => 0 end)
     + sends_done t)%nat.
Proof. destruct e; try reflexivity. unfold sends_done; simpl.
       now destruct (0 <=? rc). Qed.

Lemma has_signal_cons (e : event) (t : list event) :
  has_signal (e :: t)
  = (match e with Delivered _ => true | _ => false end) || has_signal t.
Proof. reflexivity. Qed.

#[export] Hint Rewrite recv_count_app recv_count_handler recv_count_cons
     sends_done_app sends_done_handler sends_done_cons
     has_signal_app has_signal_handler has_signal_cons length_app : trace.

Lemma echo_pass_signal (client_fd : Z) (st st1 : state) (r : echo_reply)
      (t1 : list event) (brk : option loop_exit) :
  echo_pass client_fd st r = (st1, t1, brk) ->
  recv_count t1 = 1%nat /\ (has_signal t1 = true -> running st1 = 0).
Proof.
  intros H; pass_cases H; autorewrite with trace; cbn [running];
    (split; [reflexivity|]);
    destruct (recv_sigs r), (send_sigs r); cbn; congruence.
Qed.

Lemma echo_loop_signal (client_fd : Z) (st : state)
      (script : list echo_reply) :
  (recv_count
     (after_first_signal (snd (fst (echo_loop client_fd st script)))) <= 1)%nat.
Proof.
  apply (echo_loop_ind client_fd
           (fun _ _ res =>
              (recv_count (after_first_signal (snd (fst res))) <= 1)%nat));
    cbn [fst snd].
  - intros; unfold recv_count; simpl; lia.
  - intros; unfold recv_count; simpl; lia.
  - intros s r script' s1 t1 why _ Hpass.
    destruct (echo_pass_signal _ _ _ _ _ _ Hpass) as [<- _].
    apply recv_count_after.
  - intros s r script' s1 t1 s2 t2 why _ Hpass Hrest IH.
    destruct (echo_pass_signal _ _ _ _ _ _ Hpass) as [Hc Hs].
    rewrite after_first_signal_app.
    destruct (has_signal t1); [|assumption].
    rewrite echo_loop_stopped in Hrest by auto.
    inversion Hrest; subst; rewrite app_nil_r, <- Hc.
    apply recv_count_after.
Qed.

(** *** The peer closes *)

Lemma returned_zero_taken (len : Z) (r : recv_reply) :
  returned len r = 0 -> taken len r = [].
Proof.
  destruct (returned_cases len r) as [-> | [-> _]]; [|lia].
  destruct (taken len r); simpl; [reflexivity|lia].
Qed.

Lemma echo_pass_closed (client_fd : Z) (st st1 : state) (r : echo_reply)
      (t1 : list event) :
  echo_pass client_fd st r = (st1, t1, Some PeerClosed) ->
  t1 = handler_trace (recv_sigs r)
         ++ [Recv client_fd (BUFFER_SIZE - 1) 0 [];
             Stdout ("Client disconnected" ++ nl)].
Proof.
  intros H; pass_cases H.
  rewrite <- app_assoc, e, (returned_zero_taken _ _ e); reflexivity.
Qed.

Lemma echo_pass_full (client_fd : Z) (st st1 : state) (r : echo_reply)
      (t1 : list event) :
  echo_pass client_fd st r = (st1, t1, None) ->
  sends_done t1 = 1%nat /\ List.length (sent t1) = 1%nat
  /\ List.length (received t1) = 1%nat.
Proof.
  intros H; pass_cases H; autorewrite with trace;
    cbn [sent received flat_map app sends_done filter List.length].
  destruct (Z.leb_spec 0 (send_res r)); [|lia].
  destruct (Z.ltb_spec 0 (returned (BUFFER_SIZE - 1) (recv_res r))); [|lia].
  autorewrite with trace; auto.
Qed.

Lemma echo_loop_closed (client_fd : Z) (st st' : state)
      (script : list echo_reply) (t : list event) :
  echo_loop client_fd st script = (st', t, PeerClosed) ->
  exists t0,
    t = t0 ++ [Recv client_fd (BUFFER_SIZE - 1) 0 [];
               Stdout ("Client disconnected" ++ nl)]
    /\ sends_done t0 = List.length (sent t0)
    /\ recv_count t0 = List.length (received t0).
Proof.
  intros Hrun.
  cut (forall res, res = echo_loop client_fd st script -> snd res = PeerClosed ->
         exists t0,
           snd (fst res) = t0 ++ [Recv client_fd (BUFFER_SIZE - 1) 0 [];
                                  Stdout ("Client disconnected" ++ nl)]
           /\ sends_done t0 = List.length (sent t0)
           /\ recv_count t0 = List.length (received t0)).
  { intros C; apply (C (st', t, PeerClosed)); auto. }
  intros res ->.
  apply (echo_loop_ind client_fd
           (fun _ _ res =>
              snd res = PeerClosed ->
              exists t0,
                snd (fst res) = t0 ++ [Recv client_fd (BUFFER_SIZE - 1) 0 [];
                                       Stdout ("Client disconnected" ++ nl)]
                /\ sends_done t0 = List.length (sent t0)
                /\ recv_count t0 = List.length (received t0)));
    cbn [fst snd]; try discriminate.
  - intros s r script' s1 t1 why _ Hpass ->.
    apply echo_pass_closed in Hpass; subst t1.
    eexists; split; [reflexivity|].
    now autorewrite with trace.
  - intros s r script' s1 t1 s2 t2 why _ Hpass _ IH Hwhy.
    destruct (IH Hwhy) as (t0 & -> & Hs & Hr).
    destruct (echo_pass_full _ _ _ _ _ Hpass) as (Hs1 & Hl1 & Hr1).
    destruct (echo_pass_signal _ _ _ _ _ _ Hpass) as [Hc1 _].
    exists (t1 ++ t0); split; [now rewrite app_assoc|].
    autorewrite with trace; lia.
Qed.

(** *** [main] *)

Lemma server_main_started (argv : list string) (e : env) :
  server_startup_failed argv e = false ->
  main argv e =
    let '(st, t_loop, why) :=
      echo_loop (accept_rc e) (server_loop_entry e) (replies e) in
    match why with
    | Pending => (server_startup_trace e ++ t_loop, Blocked)
    | _ => (server_startup_trace e ++ t_loop
              ++ cleanup (socket_rc e) (accept_rc e) st, Exit 0)
    end.
Proof.
  unfold server_startup_failed; intros H.
  repeat (apply orb_false_iff in H; destruct H as [H ?]).
  unfold main, server_startup_trace, server_loop_entry.
  repeat match goal with
         | E : _ = false |- _ => rewrite E; clear E
         end.
  rewrite deliver_eq; cbn [running buffer message_count].
  destruct (echo_loop _ _ _) as [[st t_loop] why].
  destruct why; repeat rewrite <- app_assoc; reflexivity.
Qed.

Lemma server_main_failed (argv : list string) (e : env) :
  server_startup_failed argv e = true ->
  snd (main argv e) = Exit 1
  /\ recv_count (fst (main argv e)) = 0%nat
  /\ sent (fst (main argv e)) = [].
Proof.
  unfold server_startup_failed, main; intros H.
  destruct (Z.of_nat (List.length argv) =? 2); cbn [negb]; [|now cbn].
  destruct (socket_rc e <? 0); [now autorewrite with trace|].
  destruct (setsockopt_rc e <? 0); [now autorewrite with trace|].
  destruct (bind_rc e <? 0); [now autorewrite with trace|].
  destruct (listen_rc e <? 0); [now autorewrite with trace|].
  rewrite deliver_eq.
  destruct (accept_rc e <? 0); [|discriminate].
  cbn [fst snd]; autorewrite with trace; auto.
Qed.

Lemma recv_count_zero_reads (len : Z) (t : list event) :
  recv_count t = 0%nat -> reads_within len t.
Proof.
  unfold reads_within; induction t as [|e t IH]; [constructor|].
  rewrite recv_count_cons; intros H.
  constructor; [destruct e; auto; lia | apply IH; destruct e; lia].
Qed.

Lemma recv_count_startup (e : env) :
  recv_count (server_startup_trace e) = 0%nat.
Proof.
  unfold server_startup_trace, banner; autorewrite with trace; reflexivity.
Qed.

Lemma has_signal_startup (e : env) :
  has_signal (server_startup_trace e)
  = match accept_sigs e with [] => false | _ :: _ => true end.
Proof.
  unfold server_startup_trace, banner; autorewrite with trace.
  now destruct (accept_sigs e).
Qed.

Lemma recv_count_cleanup (server_fd client_fd : Z) (st : state) :
  recv_count (cleanup server_fd client_fd st) = 0%nat.
Proof. reflexivity. Qed.

Lemma server_main_reads (argv : list string) (e : env) :
  reads_within (BUFFER_SIZE - 1) (fst (main argv e)).
Proof.
  destruct (server_startup_failed argv e) eqn:F.
  - apply recv_count_zero_reads, (server_main_failed argv e F).
  - rewrite (server_main_started argv e F).
    pose proof (echo_loop_reads (accept_rc e) (server_loop_entry e)
                  (replies e)) as Hl.
    destruct (echo_loop _ _ _) as [[st t_loop] why]; cbn [fst snd] in Hl.
    assert (Hs : reads_within (BUFFER_SIZE - 1) (server_startup_trace e))
      by apply recv_count_zero_reads, recv_count_startup.
    assert (Hc : reads_within (BUFFER_SIZE - 1)
                   (cleanup (socket_rc e) (accept_rc e) st))
      by apply recv_count_zero_reads, recv_count_cleanup.
    destruct why; cbn [fst]; auto using reads_within_app.
Qed.

Lemma server_main_signal (argv : list string) (e : env) :
  (recv_count (after_first_signal (fst (main argv e))) <= 1)%nat.
Proof.
  destruct (server_startup_failed argv e) eqn:F.
  - pose proof (recv_count_after (fst (main argv e))).
    destruct (server_main_failed argv e F) as (_ & Hc & _); lia.
  - rewrite (server_main_started argv e F).
    pose proof (echo_loop_signal (accept_rc e) (server_loop_entry e)
                  (replies e)) as Hl.
    destruct (accept_sigs e) as [|s sigs] eqn:Hs.
    + destruct (echo_loop _ _ _) as [[st t_loop] why]; cbn [fst snd] in Hl.
      assert (Hc : forall t,
                 recv_count t = 0%nat ->
                 (recv_count
                    (after_first_signal
                       (server_startup_trace e ++ t_loop ++ t)) <= 1)%nat).
      { intros t Ht.
        rewrite after_first_signal_app, has_signal_startup, Hs.
        rewrite after_first_signal_app.
        destruct (has_signal t_loop).
        - rewrite recv_count_app; lia.
        - pose proof (recv_count_after t); lia. }
      destruct why; cbn [fst];
        try (apply Hc, recv_count_cleanup).
      specialize (Hc [] eq_refl); now rewrite app_nil_r in Hc.
    + unfold server_loop_entry; rewrite Hs; cbn [flag_after].
      rewrite echo_loop_stopped by reflexivity; cbn [fst].
      etransitivity; [apply recv_count_after|].
      rewrite !recv_count_app, recv_count_startup, recv_count_cleanup.
      cbn; lia.
Qed.

Lemma server_main_clean (argv : list string) (e : env) :
  snd (main argv e) = Exit 0 ->
  exists t0 count,
    fst (main argv e)
    = t0 ++ statistics count
         ++ [Close (accept_rc e); Close (socket_rc e);
             Stdout ("Server shutdown complete" ++ nl)].
Proof.
  destruct (server_startup_failed argv e) eqn:F.
  - destruct (server_main_failed argv e F) as (-> & _); discriminate.
  - rewrite (server_main_started argv e F).
    destruct (echo_loop _ _ _) as [[st t_loop] why].
    destruct why; cbn [fst snd]; try discriminate; intros _;
      exists (server_startup_trace e ++ t_loop), (message_count st);
      now rewrite <- app_assoc.
Qed.

Lemma echo_body_count (client_fd : Z) (st : state) (r : echo_reply) :
  message_count (fst (fst (echo_body client_fd st r)))
  = if 0 <? returned (BUFFER_SIZE - 1) (recv_res r)
    then wrap_int (message_count st + 1)
    else message_count st.
Proof.
  rewrite echo_body_eq.
  destruct (echo_pass client_fd st r) as [[st1 t1] brk] eqn:H.
  pass_cases H; cbn [fst message_count];
    match goal with
    | |- context [0 <? ?x] => destruct (Z.ltb_spec 0 x); try lia
    end; reflexivity.
Qed.

Lemma echo_loop_count_prefix (client_fd : Z) (st : state)
      (a b : list echo_reply) :
  0 <= message_count st ->
  message_count st + Z.of_nat (List.length (a ++ b)) <= INT_MAX ->
  message_count st
  <= message_count (fst (fst (echo_loop client_fd st a)))
  <= message_count (fst (fst (echo_loop client_fd st (a ++ b)))).
Proof.
  rewrite length_app; intros H0 Hlen.
  destruct (echo_loop_count client_fd st a H0 ltac:(lia)) as [Ha Hla].
  rewrite echo_loop_app.
  destruct (echo_loop client_fd st a) as [[st1 t1] why]; cbn [fst snd] in *.
  destruct why; cbn [fst]; try lia.
  destruct (echo_loop_count client_fd st1 b ltac:(lia) ltac:(lia)) as [Hb _].
  destruct (echo_loop client_fd st1 b) as [[st2 t2] why2]; cbn [fst snd] in *.
  lia.
Qed.

(** *** Shutdown *)

Lemma ends_pass_not_pending (r : echo_reply) :
  ends_pass r <> Some Pending.
Proof.
  unfold ends_pass.
  destruct (_ =? 0); [discriminate|].
  destruct (_ <? 0); [discriminate|].
  destruct (_ <? 0); [discriminate|].
  destruct (_ ++ _); discriminate.
Qed.

Lemma ends_pass_signalled (r : echo_reply) :
  signalled r = true -> ends_pass r <> None.
Proof.
  unfold ends_pass, signalled.
  destruct (_ =? 0); [discriminate|].
  destruct (_ <? 0); [discriminate|].
  destruct (_ <? 0); [discriminate|].
  destruct (_ ++ _); discriminate.
Qed.

Lemma loop_exit_of_ended (pre rest : list echo_reply) (r : echo_reply) :
  ends_pass r <> None ->
  loop_exit_of (pre ++ r :: rest) <> Pending.
Proof.
  intros Hr; induction pre as [|q pre IH]; cbn [app loop_exit_of].
  - pose proof (ends_pass_not_pending r).
    destruct (ends_pass r) as [why|]; congruence.
  - pose proof (ends_pass_not_pending q).
    destruct (ends_pass q) as [why|]; congruence.
Qed.

Lemma echo_loop_ended (client_fd : Z) (st : state)
      (pre rest : list echo_reply) (r : echo_reply) :
  ends_pass r <> None ->
  echo_loop client_fd st (pre ++ r :: rest)
  = echo_loop client_fd st (pre ++ [r])
  /\ snd (echo_loop client_fd st (pre ++ [r])) <> Pending.
Proof.
  intros Hr.
  assert (Hex : snd (echo_loop client_fd st (pre ++ [r])) <> Pending).
  { rewrite echo_loop_exit.
    destruct (running st =? 0); [discriminate|].
    now apply loop_exit_of_ended. }
  split; [|assumption].
  change (r :: rest) with ([r] ++ rest).
  rewrite app_assoc, echo_loop_app.
  destruct (echo_loop client_fd st (pre ++ [r])) as [[st1 t1] why].
  destruct why; try reflexivity.
  now contradiction Hex.
Qed.

(** *** What the loop reports on its way out *)

Lemma echo_pass_last (client_fd : Z) (st st1 : state) (r : echo_reply)
      (t1 : list event) (why : loop_exit) :
  echo_pass client_fd st r = (st1, t1, Some why) ->
  last_words client_fd st1 t1 why.
Proof.
  intros H; pose proof H as Hc; pass_cases H; cbn [last_words].
  - apply echo_pass_closed in Hc; eauto.
  - exists (handler_trace (recv_sigs r)); do 2 eexists.
    split; [eassumption|]; now rewrite <- app_assoc.
  - exists (handler_trace (recv_sigs r)
              ++ [Recv client_fd (BUFFER_SIZE - 1)
                       (returned (BUFFER_SIZE - 1) (recv_res r))
                       (taken (BUFFER_SIZE - 1) (recv_res r));
                  Stdout (fmt_received
                            (wrap_int (message_count st + 1))
                            (returned (BUFFER_SIZE - 1) (recv_res r))
                            (taken (BUFFER_SIZE - 1) (recv_res r)))]).
    exists (taken (BUFFER_SIZE - 1) (recv_res r)), (send_res r), (send_sigs r).
    split; [assumption|].
    repeat rewrite <- app_assoc; reflexivity.
Qed.

Lemma echo_loop_last (client_fd : Z) (st : state) (script : list echo_reply) :
  let '(st', t, why) := echo_loop client_fd st script in
  last_words client_fd st' t why.
Proof.
  apply (echo_loop_ind client_fd
           (fun _ _ res =>
              let '(st', t, why) := res in last_words client_fd st' t why)).
  - intros; assumption.
  - intros; assumption.
  - intros; eapply echo_pass_last; eauto.
  - intros s r script' s1 t1 s2 t2 why _ _ _ IH.
    destruct why; cbn [last_words] in *; auto.
    + destruct IH as (t0 & ->); exists (t1 ++ t0); now rewrite app_assoc.
    + destruct IH as (t0 & rc & d & Hrc & ->).
      exists (t1 ++ t0), rc, d; now rewrite app_assoc.
    + destruct IH as (t0 & pl & rc & sigs & Hrc & ->).
      exists (t1 ++ t0), pl, rc, sigs; now rewrite app_assoc.
Qed.

(** *** The report after the peer has closed *)

Lemma server_main_closed (argv : list string) (e : env) :
  server_startup_failed argv e = false ->
  Z.of_nat (List.length (replies e)) <= INT_MAX ->
  server_loop_exit e = PeerClosed ->
  exists t0,
    main argv e
    = (server_startup_trace e
         ++ t0
         ++ [Recv (accept_rc e) (BUFFER_SIZE - 1) 0 [];
             Stdout ("Client disconnected" ++ nl)]
         ++ statistics (Z.of_nat (sends_done t0))
         ++ [Close (accept_rc e); Close (socket_rc e);
             Stdout ("Server shutdown complete" ++ nl)],
       Exit 0)
    /\ sends_done t0 = List.length (sent t0)
    /\ recv_count t0 = List.length (received t0)
    /\ sent t0 = received t0.
Proof.
  intros F Hlen Hexit; rewrite (server_main_started argv e F).
  unfold server_loop_exit in Hexit.
  destruct (accept_sigs e) as [|s sigs] eqn:Hs; [|discriminate].
  pose proof (echo_loop_exit (accept_rc e) (server_loop_entry e) (replies e))
    as Hwhy.
  pose proof (echo_loop_count (accept_rc e) (server_loop_entry e) (replies e))
    as Hcount.
  pose proof (echo_loop_sent_received (accept_rc e) (server_loop_entry e)
                (replies e)) as Hecho.
  unfold server_loop_entry in *; rewrite Hs in *.
  cbn [flag_after running message_count] in *.
  rewrite Hexit in Hwhy; cbn in Hwhy.
  destruct (echo_loop _ _ _) as [[st t] why] eqn:Hrun.
  cbn [fst snd] in *; subst why.
  destruct (echo_loop_closed _ _ _ _ _ Hrun) as (t0 & -> & Hsd & Hrc).
  destruct Hcount as [Hcount _]; [lia | lia |].
  autorewrite with trace in Hcount, Hecho.
  cbn [received sent flat_map app] in Hcount, Hecho.
  destruct (0 <? 0) eqn:E0; [discriminate|].
  autorewrite with trace in Hcount, Hecho.
  exists t0; repeat split; auto.
  assert (Hc : message_count st = Z.of_nat (sends_done t0))
    by (rewrite Hcount, Hsd, Hecho; cbn [List.length]; lia).
  unfold cleanup; rewrite Hc, <- !app_assoc.
  reflexivity.
Qed.

(** *** The handler at every point of the body *)

Lemma echo_body_with_eq (client_fd : Z) (st : state) (p : pass_reply) :
  echo_body_with client_fd st p = echo_pass_with client_fd st p.
Proof.
  unfold echo_body_with, echo_pass_with.
  rewrite deliver_eq; cbn [buffer running message_count set_buffer].
  pose proof (sys_recv_rc (BUFFER_SIZE - 1) (memset_zero BUFFER_SIZE)
                (pass_recv p)) as Hrc.
  pose proof (sys_recv_buf (BUFFER_SIZE - 1) (memset_zero BUFFER_SIZE)
                (pass_recv p)) as Hbuf.
  destruct (sys_recv _ _ _) as [n buf]; cbn [fst snd] in Hrc, Hbuf.
  subst n buf; rewrite store_zeroed.
  rewrite deliver_eq; cbn [buffer running message_count set_buffer].
  set (n := returned _ _); set (d := taken _ _).
  destruct (Z.eqb_spec n 0) as [E0|N0].
  - rewrite E0; cbn [Z.leb Z.eqb Z.compare]; now rewrite <- !app_assoc.
  - destruct (Z.ltb_spec n 0) as [Hneg|Hpos].
    + replace (n <=? 0) with true by (symmetry; apply Z.leb_le; lia).
      now rewrite <- !app_assoc.
    + replace (n <=? 0) with false by (symmetry; apply Z.leb_gt; lia).
      cbn [set_message_count set_buffer buffer running message_count].
      rewrite !deliver_eq.
      cbn [set_message_count set_buffer buffer running message_count].
      assert (Hn : Z.to_nat n = List.length d)
        by (apply returned_pos; fold n; lia).
      rewrite Hn, firstn_filled.
      assert (Hs : fmt_s (filled BUFFER_SIZE d) = fmt_s d).
      { unfold fmt_s; rewrite c_str_filled; [reflexivity|].
        pose proof (taken_length (BUFFER_SIZE - 1) (pass_recv p)) as Hl.
        fold d in Hl; unfold BUFFER_SIZE in *; lia. }
      unfold fmt_received; rewrite Hs.
      destruct (pass_send p <? 0); now rewrite <- !app_assoc.
Qed.

(** The answers of [echo_reply] are the answers whose signals arrive
    inside the two calls. *)
Lemma echo_body_at_calls (client_fd : Z) (st : state) (r : echo_reply) :
  echo_body client_fd st r = echo_body_with client_fd st (at_calls r).
Proof.
  rewrite echo_body_eq, echo_body_with_eq.
  unfold echo_pass, echo_pass_with, at_calls.
  cbn [pass_sigs pass_recv pass_send in_recv after_recv before_send in_send
       after_echo handler_trace flat_map flag_after].
  destruct (_ =? 0); [now rewrite <- !app_assoc|].
  destruct (_ <? 0); [now rewrite <- !app_assoc|].
  destruct (send_res r <? 0); rewrite <- !app_assoc; cbn [app];
    rewrite ?app_nil_r; reflexivity.
Qed.

Lemma echo_loop_at_calls (client_fd : Z) (st : state)
      (script : list echo_reply) :
  echo_loop client_fd st script
  = echo_loop_with client_fd st (map at_calls script).
Proof.
  revert st; induction script as [|r script IH]; intros st;
    cbn [echo_loop echo_loop_with map]; [reflexivity|].
  rewrite <- echo_body_at_calls.
  destruct (running st =? 0); [reflexivity|].
  destruct (echo_body client_fd st r) as [[st1 t1] [why|]]; [reflexivity|].
  now rewrite IH.
Qed.

Lemma server_main_serve (argv : list string) (e : env) :
  server_startup_failed argv e = false ->
  main argv e
  = let '(t, out) :=
      serve_with (socket_rc e) (accept_rc e) (server_loop_entry e)
                 (map at_calls (replies e)) in
    (server_startup_trace e ++ t, out).
Proof.
  intros F; rewrite (server_main_started argv e F).
  unfold serve_with; rewrite <- echo_loop_at_calls.
  destruct (echo_loop _ _ _) as [[st t] why]; now destruct why.
Qed.

Lemma echo_loop_with_stopped (client_fd : Z) (st : state)
      (script : list pass_reply) :
  running st = 0 -> echo_loop_with client_fd st script = (st, [], FlagCleared).
Proof. intros H; destruct script; simpl; now rewrite H. Qed.

Lemma echo_loop_with_cons (client_fd : Z) (st : state) (p : pass_reply)
      (script : list pass_reply) :
  running st <> 0 ->
  echo_loop_with client_fd st (p :: script) =
    match echo_pass_with client_fd st p with
    | (st1, t1, Some why) => (st1, t1, why)
    | (st1, t1, None) =>
        let '(st2, t2, why) := echo_loop_with client_fd st1 script in
        (st2, t1 ++ t2, why)
    end.
Proof.
  intros H; cbn [echo_loop_with].
  destruct (Z.eqb_spec (running st) 0); [contradiction|].
  now rewrite echo_body_with_eq.
Qed.

Lemma handler_trace_nil : handler_trace [] = [].
Proof. reflexivity. Qed.

Lemma handler_trace_cons (s : signal) (sigs : list signal) :
  handler_trace (s :: sigs)
  = Delivered s
      :: Stdout (nl ++ "Received signal " ++ fmt_d (signum s)
                    ++ ", shutting down..." ++ nl)
      :: handler_trace sigs.
Proof. reflexivity. Qed.

Lemma flag_after_arrived (a : arrivals) (v : Z) :
  flag_after (after_echo a)
    (flag_after (in_send a)
       (flag_after (before_send a)
          (flag_after (after_recv a) (flag_after (in_recv a) v))))
  = flag_after (arrived a) v.
Proof. unfold arrived; now rewrite !flag_after_app. Qed.

(** Case analysis on a pass [H : echo_pass_with fd st p = (st1, t1, brk)]. *)
Ltac pass_with_cases H :=
  unfold echo_pass_with in H;
  match type of H with
  | context [returned ?len (pass_recv ?p) =? 0] =>
      let n := fresh "n" in
      let Hn := fresh "Hn" in
      remember (returned len (pass_recv p)) as n eqn:Hn;
      destruct (Z.eqb_spec n 0);
      [ | destruct (Z.ltb_spec n 0);
          [ | destruct (Z.ltb_spec (pass_send p) 0) ] ];
      let Hbrk := fresh "Hbrk" in
      let Hst := fresh "Hst" in
      apply pair_equal_spec in H; destruct H as [H Hbrk];
      apply pair_equal_spec in H; destruct H as [Hst H];
      try discriminate Hbrk; try (injection Hbrk as Hbrk); subst;
      try clear Hbrk
  end.

Ltac by_arrival a :=
  destruct (in_recv a), (after_recv a), (before_send a), (in_send a),
    (after_echo a);
  rewrite ?handler_trace_nil, ?handler_trace_cons;
  cbn [app after_first_signal has_signal existsb orb flag_after running].

(** One pass reads once; the flag is down behind a pass that has met a
    signal; and the read of the pass follows the first signal exactly when
    that signal arrives before [recv] returns. *)
Lemma echo_pass_with_signal (client_fd : Z) (st st1 : state) (p : pass_reply)
      (t1 : list event) (brk : option loop_exit) :
  echo_pass_with client_fd st p = (st1, t1, brk) ->
  recv_count t1 = 1%nat
  /\ (has_signal t1 = true -> running st1 = 0)
  /\ recv_count (after_first_signal t1)
     = match in_recv (pass_sigs p) with [] => 0%nat | _ :: _ => 1%nat end
  /\ brk <> Some Pending
  /\ (brk = None ->
      running st1 = flag_after (arrived (pass_sigs p)) (running st)).
Proof.
  intros H; pass_with_cases H;
    (split; [autorewrite with trace; reflexivity|]);
    (split; [|split; [|split; [discriminate|]]]);
    try discriminate;
    try (intros _; cbn [running]; apply flag_after_arrived);
    rewrite <- ?app_assoc;
    by_arrival (pass_sigs p);
    autorewrite with trace; try reflexivity; try discriminate.
Qed.

(** The pass that meets a signal is run to its end, and the loop is left
    at the next test at the latest; nothing behind these answers is looked
    at. *)
Lemma echo_loop_with_signalled (client_fd : Z) (st : state) (p : pass_reply)
      (rest : list pass_reply) :
  running st <> 0 ->
  arrived (pass_sigs p) <> [] ->
  echo_loop_with client_fd st (p :: rest)
  = let '(st1, t1, brk) := echo_pass_with client_fd st p in
    (st1, t1, match brk with Some why => why | None => FlagCleared end).
Proof.
  intros Hrun Hsig; rewrite echo_loop_with_cons by assumption.
  destruct (echo_pass_with client_fd st p) as [[st1 t1] [why|]] eqn:Hpass;
    [reflexivity|].
  destruct (echo_pass_with_signal _ _ _ _ _ _ Hpass) as (_ & _ & _ & _ & Hr).
  rewrite echo_loop_with_stopped, app_nil_r; [reflexivity|].
  rewrite Hr by reflexivity.
  now destruct (arrived (pass_sigs p)).
Qed.

Lemma echo_loop_with_signal (client_fd : Z) (st : state)
      (script : list pass_reply) :
  (recv_count
     (after_first_signal (snd (fst (echo_loop_with client_fd st script))))
   <= 1)%nat.
Proof.
  revert st; induction script as [|p script IH]; intros st;
    destruct (Z.eq_dec (running st) 0) as [E|N].
  - rewrite echo_loop_with_stopped by assumption; cbn; lia.
  - cbn [echo_loop_with]; destruct (running st =? 0); cbn; lia.
  - rewrite echo_loop_with_stopped by assumption; cbn; lia.
  - rewrite echo_loop_with_cons by assumption.
    destruct (echo_pass_with client_fd st p) as [[st1 t1] brk] eqn:Hpass.
    destruct (echo_pass_with_signal _ _ _ _ _ _ Hpass)
      as (Hc & Hs & _ & _ & _).
    destruct brk as [why|]; cbn [fst snd].
    + rewrite <- Hc; apply recv_count_after.
    + specialize (IH st1).
      destruct (echo_loop_with client_fd st1 script) as [[st2 t2] why] eqn:Hrest.
      cbn [fst snd] in *.
      rewrite after_first_signal_app.
      destruct (has_signal t1); [|assumption].
      rewrite echo_loop_with_stopped in Hrest by auto.
      inversion Hrest; subst; rewrite app_nil_r, <- Hc.
      apply recv_count_after.
Qed.

Lemma echo_loop_with_ended (client_fd : Z) (st : state)
      (pre rest : list pass_reply) (p : pass_reply) :
  arrived (pass_sigs p) <> [] ->
  echo_loop_with client_fd st (pre ++ p :: rest)
  = echo_loop_with client_fd st (pre ++ [p])
  /\ snd (echo_loop_with client_fd st (pre ++ [p])) <> Pending.
Proof.
  intros Hsig; revert st; induction pre as [|q pre IH]; intros st;
    destruct (Z.eq_dec (running st) 0) as [E|N];
    try (rewrite !echo_loop_with_stopped by assumption; split;
         [reflexivity|discriminate]);
    cbn [app].
  - rewrite !echo_loop_with_signalled by assumption.
    destruct (echo_pass_with client_fd st p) as [[st1 t1] brk] eqn:Hpass.
    destruct (echo_pass_with_signal _ _ _ _ _ _ Hpass) as (_ & _ & _ & Hb & _).
    split; [reflexivity|].
    destruct brk as [why|]; cbn [snd]; congruence.
  - rewrite !echo_loop_with_cons by assumption.
    destruct (echo_pass_with client_fd st q) as [[st1 t1] brk] eqn:Hpass.
    destruct (echo_pass_with_signal _ _ _ _ _ _ Hpass) as (_ & _ & _ & Hb & _).
    destruct brk as [why|].
    + split; [reflexivity|cbn [snd]; congruence].
    + destruct (IH st1) as [-> Hex].
      destruct (echo_loop_with client_fd st1 (pre ++ [p])) as [[st2 t2] why].
      split; [reflexivity|assumption].
Qed.

End ServerFacts.


(* ================================================================== *)
(** ** Facts about the client                                          *)
(* ================================================================== *)

Module ClientFacts.

Import Client Contract LibcFacts.
Import ServerFacts(recv_count_app, recv_count_cons, sends_done_app,
                   sends_done_cons, recv_bounds).

Lemma message_text_small (i : Z) :
  1 <= i <= NUM_MESSAGES ->
  c_str (message_text i) = message_text i
  /\ List.length (message_text i) = 21%nat.
Proof.
  unfold NUM_MESSAGES; intros Hi.
  assert (Hc : i = 1 \/ i = 2 \/ i = 3 \/ i = 4 \/ i = 5) by lia.
  destruct Hc as [-> | [-> | [-> | [-> | ->]]]]; vm_compute; auto.
Qed.

(** [snprintf] stores the text whole and [strlen] finds it again. *)
Lemma snprintf_message_eq (i : Z) (old : list byte) :
  1 <= i <= NUM_MESSAGES ->
  let msg := snprintf_message i old in
  msg = store (message_text i ++ [x00]) old
  /\ c_str msg = message_text i
  /\ firstn (Z.to_nat (strlen msg)) msg = message_text i.
Proof.
  intros Hi; destruct (message_text_small i Hi) as [Hc Hl]; cbv zeta.
  assert (Hf : firstn (Z.to_nat (BUFFER_SIZE - 1)) (message_text i)
               = message_text i).
  { apply firstn_all2; rewrite Hl; vm_compute; lia. }
  unfold snprintf_message; rewrite Hf.
  assert (Hs : c_str (store (message_text i ++ [x00]) old) = message_text i).
  { unfold store; rewrite <- app_assoc; cbn [app].
    now rewrite c_str_nul. }
  repeat split; [assumption|].
  unfold strlen; rewrite Hs, Nat2Z.id.
  unfold store; rewrite <- app_assoc, firstn_app, Nat.sub_diag, firstn_all.
  cbn [firstn]; apply app_nil_r.
Qed.

Section WithPeer.

Context {P : Type} (srv : peer P) (sock_fd : Z).

Lemma exchange_eq (i : Z) (st : state) (p : P) :
  1 <= i <= NUM_MESSAGES ->
  exchange srv sock_fd i st p = exchange_pass srv sock_fd i st p.
Proof.
  intros Hi; unfold exchange, exchange_pass.
  destruct (snprintf_message_eq i (message st) Hi) as (Hm & Hc & Hp).
  cbn [message buffer]; rewrite Hp.
  destruct (on_send srv p (message_text i)) as [bytes_sent p1].
  assert (Hs : fmt_sending i (snprintf_message i (message st))
               = fmt_sending i (message_text i)).
  { unfold fmt_sending, fmt_s; rewrite Hc.
    now destruct (message_text_small i Hi) as [-> _]. }
  rewrite Hs, Hm.
  destruct (bytes_sent <? 0); [reflexivity|].
  destruct (on_recv srv p1) as [reply p2].
  pose proof (sys_recv_rc (BUFFER_SIZE - 1) (memset_zero BUFFER_SIZE) reply)
    as Hrc.
  pose proof (sys_recv_buf (BUFFER_SIZE - 1) (memset_zero BUFFER_SIZE) reply)
    as Hbuf.
  destruct (sys_recv _ _ _) as [n buf]; cbn [fst snd] in Hrc, Hbuf.
  subst n buf; rewrite store_zeroed.
  assert (He : fmt_s (filled BUFFER_SIZE (taken (BUFFER_SIZE - 1) reply))
               = fmt_s (taken (BUFFER_SIZE - 1) reply)).
  { unfold fmt_s; rewrite c_str_filled; [reflexivity|].
    pose proof (taken_length (BUFFER_SIZE - 1) reply).
    unfold BUFFER_SIZE in *; lia. }
  unfold fmt_echo; rewrite He.
  destruct (returned (BUFFER_SIZE - 1) reply <? 0);
    repeat rewrite <- app_assoc; reflexivity.
Qed.

(** *** The loop, one exchange at a time *)

Lemma message_loop_done (fuel : nat) (i : Z) (st : state) (p : P) :
  NUM_MESSAGES < i ->
  message_loop srv sock_fd (S fuel) i st p = (i, p, []).
Proof.
  intros Hi; cbn [message_loop].
  now destruct (Z.leb_spec i NUM_MESSAGES); [lia|].
Qed.

Lemma message_loop_step (fuel : nat) (i : Z) (st : state) (p : P) :
  1 <= i <= NUM_MESSAGES ->
  message_loop srv sock_fd (S fuel) i st p =
    match exchange_pass srv sock_fd i st p with
    | (st1, p1, t1, true) =>
        let '(i', p', t') := message_loop srv sock_fd fuel (i + 1) st1 p1 in
        (i', p', t1 ++ t')
    | (st1, p1, t1, false) => (i, p1, t1)
    end.
Proof.
  intros Hi; cbn [message_loop].
  destruct (Z.leb_spec i NUM_MESSAGES); [|lia].
  rewrite exchange_eq by assumption.
  rewrite wrap_int_id
    by (unfold NUM_MESSAGES, INT_MIN, INT_MAX in *; lia).
  reflexivity.
Qed.

(** Induction along the exchanges of a run that has fuel enough. *)
Lemma message_loop_ind
      (Q : Z -> state -> P -> Z * P * list event -> Prop) :
  (forall i st p, i = NUM_MESSAGES + 1 -> Q i st p (i, p, [])) ->
  (forall i st p st1 p1 t1,
      1 <= i <= NUM_MESSAGES ->
      exchange_pass srv sock_fd i st p = (st1, p1, t1, false) ->
      Q i st p (i, p1, t1)) ->
  (forall i st p st1 p1 t1 i' p' t',
      1 <= i <= NUM_MESSAGES ->
      exchange_pass srv sock_fd i st p = (st1, p1, t1, true) ->
      Q (i + 1) st1 p1 (i', p', t') ->
      Q i st p (i', p', t1 ++ t')) ->
  forall fuel i st p,
    1 <= i <= NUM_MESSAGES + 1 ->
    NUM_MESSAGES + 1 - i < Z.of_nat fuel ->
    Q i st p (message_loop srv sock_fd fuel i st p).
Proof.
  intros Hdone Hbreak Hnext.
  induction fuel as [|fuel IH]; intros i st p Hi Hfuel; [lia|].
  destruct (Z.eq_dec i (NUM_MESSAGES + 1)) as [E|N].
  - rewrite message_loop_done by lia; auto.
  - rewrite message_loop_step by lia.
    destruct (exchange_pass srv sock_fd i st p)
      as [[[st1 p1] t1] [|]] eqn:Hpass.
    + specialize (IH (i + 1) st1 p1 ltac:(lia) ltac:(lia)).
      destruct (message_loop srv sock_fd fuel (i + 1) st1 p1)
        as [[i' p'] t'].
      eapply Hnext; eauto; lia.
    + eapply Hbreak; eauto; lia.
Qed.

(** Case analysis on an exchange
    [H : exchange_pass srv fd i st p = (st1, p1, t1, ok)]. *)
Ltac exchange_cases H :=
  unfold exchange_pass in H;
  match type of H with
  | context [on_send ?s ?p ?m] =>
      let rc := fresh "bytes_sent" in
      let q := fresh "p" in
      let Hsend := fresh "Hsend" in
      destruct (on_send s p m) as [rc q] eqn:Hsend;
      destruct (Z.ltb_spec rc 0);
      [ | match type of H with
          | context [on_recv ?s ?p'] =>
              let reply := fresh "reply" in
              let q' := fresh "p" in
              let Hrecv := fresh "Hrecv" in
              destruct (on_recv s p') as [reply q'] eqn:Hrecv;
              destruct (Z.ltb_spec (returned (BUFFER_SIZE - 1) reply) 0)
          end ];
      let Hok := fresh "Hok" in
      apply pair_equal_spec in H; destruct H as [H Hok];
      apply pair_equal_spec in H; destruct H as [H ?];
      apply pair_equal_spec in H; destruct H as [? ?];
      try discriminate Hok; subst; try clear Hok
  end.

Lemma exchange_pass_io (i : Z) (st st1 : state) (p p1 : P)
      (t1 : list event) (ok : bool) :
  exchange_pass srv sock_fd i st p = (st1, p1, t1, ok) ->
  exists rc,
    (rc < 0 /\ ok = false
     /\ filter is_io t1 = [Send sock_fd (message_text i) rc])
    \/ exists rc' d,
        0 <= rc
        /\ filter is_io t1 = [Send sock_fd (message_text i) rc;
                              Recv sock_fd (BUFFER_SIZE - 1) rc' d]
        /\ (rc' < 0 /\ ok = false \/ 0 <= rc' /\ ok = true).
Proof.
  intros H; exchange_cases H; exists bytes_sent; cbn [filter is_io app].
  - left; auto.
  - right; do 2 eexists; split; [assumption|]; split; [reflexivity|].
    left; auto.
  - right; do 2 eexists; split; [assumption|]; split; [reflexivity|].
    right; auto.
Qed.

Lemma exchange_pass_stats (i : Z) (st st1 : state) (p p1 : P)
      (t1 : list event) (ok : bool) :
  exchange_pass srv sock_fd i st p = (st1, p1, t1, ok) ->
  sent t1 = [message_text i]
  /\ recvs_done t1 = (if ok then 1 else 0)%nat.
Proof.
  intros H; exchange_cases H;
    cbn [sent flat_map recvs_done filter app List.length]; auto.
  - destruct (Z.leb_spec 0 (returned (BUFFER_SIZE - 1) reply)); [lia|auto].
  - destruct (Z.leb_spec 0 (returned (BUFFER_SIZE - 1) reply)); [auto|lia].
Qed.

(** The messages with the indices [i .. NUM_MESSAGES]. *)
Lemma messages_from_step (i : Z) :
  1 <= i <= NUM_MESSAGES ->
  map message_text
      (map Z.of_nat (seq (Z.to_nat i) (Z.to_nat (NUM_MESSAGES + 1 - i))))
  = message_text i
      :: map message_text
           (map Z.of_nat (seq (Z.to_nat (i + 1))
                              (Z.to_nat (NUM_MESSAGES + 1 - (i + 1))))).
Proof.
  intros Hi.
  replace (Z.to_nat (NUM_MESSAGES + 1 - i))
    with (S (Z.to_nat (NUM_MESSAGES + 1 - (i + 1)))) by lia.
  replace (Z.to_nat (i + 1)) with (S (Z.to_nat i)) by lia.
  cbn [seq map]; now rewrite Z2Nat.id by lia.
Qed.

Lemma recvs_done_app (t1 t2 : list event) :
  recvs_done (t1 ++ t2) = (recvs_done t1 + recvs_done t2)%nat.
Proof. unfold recvs_done; now rewrite filter_app, length_app. Qed.

Lemma message_loop_exchanges (fuel : nat) (i : Z) (st : state) (p : P) :
  1 <= i <= NUM_MESSAGES + 1 ->
  NUM_MESSAGES + 1 - i < Z.of_nat fuel ->
  let res := message_loop srv sock_fd fuel i st p in
  exchanges sock_fd i (filter is_io (snd res)) (fst (fst res))
  /\ i <= fst (fst res) <= NUM_MESSAGES + 1
  /\ Z.of_nat (recvs_done (snd res)) = fst (fst res) - i
  /\ (fst (fst res) = NUM_MESSAGES + 1 ->
      sent (snd res)
      = map message_text
            (map Z.of_nat
                 (seq (Z.to_nat i) (Z.to_nat (NUM_MESSAGES + 1 - i))))).
Proof.
  revert fuel i st p.
  apply (message_loop_ind
           (fun i _ _ res =>
              exchanges sock_fd i (filter is_io (snd res)) (fst (fst res))
              /\ i <= fst (fst res) <= NUM_MESSAGES + 1
              /\ Z.of_nat (recvs_done (snd res)) = fst (fst res) - i
              /\ (fst (fst res) = NUM_MESSAGES + 1 ->
                  sent (snd res)
                  = map message_text
                        (map Z.of_nat
                             (seq (Z.to_nat i)
                                  (Z.to_nat (NUM_MESSAGES + 1 - i)))))));
    cbn [fst snd].
  - intros i st p ->; repeat split; try (cbn; lia).
    apply ex_done; lia.
  - intros i st p st1 p1 t1 Hi Hpass.
    destruct (exchange_pass_stats _ _ _ _ _ _ _ Hpass) as [_ Hr].
    destruct (exchange_pass_io _ _ _ _ _ _ _ Hpass)
      as [rc [(Hrc & _ & ->) | (rc' & d & Hrc & -> & [[Hrc' _] | [_ ?]])]];
      try discriminate;
      (repeat split; [ | lia | lia | rewrite Hr; lia | lia ]).
    + apply ex_send_failed; lia.
    + apply ex_recv_failed; lia.
  - intros i st p st1 p1 t1 i' p' t' Hi Hpass (Hex & Hb & Hdone & Hsent).
    destruct (exchange_pass_stats _ _ _ _ _ _ _ Hpass) as [Hs Hr].
    destruct (exchange_pass_io _ _ _ _ _ _ _ Hpass)
      as [rc [(_ & ? & _) | (rc' & d & Hrc & Hio & [[_ ?] | [Hrc' _]])]];
      try discriminate.
    rewrite filter_app, Hio, recvs_done_app, sent_app, Hs, Hr.
    repeat split; try lia.
    + cbn [app]; apply ex_next; auto; lia.
    + intros E; rewrite (Hsent E), (messages_from_step i) by lia.
      reflexivity.
Qed.

(** *** The receive buffer *)

Lemma exchange_buffer (i : Z) (m b b' : list byte) (p : P) :
  let r := exchange srv sock_fd i (mkState m b) p in
  let r' := exchange srv sock_fd i (mkState m b') p in
  snd r' = snd r /\ snd (fst r') = snd (fst r)
  /\ snd (fst (fst r')) = snd (fst (fst r))
  /\ (snd r = true -> fst (fst (fst r')) = fst (fst (fst r))).
Proof.
  unfold exchange; cbn [message buffer].
  destruct (on_send srv p _) as [bytes_sent p1].
  destruct (bytes_sent <? 0); cbn [fst snd]; [intuition discriminate|].
  destruct (on_recv srv p1) as [reply p2].
  destruct (sys_recv _ _ _) as [n buf].
  destruct (n <? 0); cbn [fst snd]; intuition discriminate.
Qed.

Lemma message_loop_buffer (fuel : nat) (i : Z) (m b b' : list byte) (p : P) :
  message_loop srv sock_fd fuel i (mkState m b') p
  = message_loop srv sock_fd fuel i (mkState m b) p.
Proof.
  destruct fuel as [|fuel]; [reflexivity|]; cbn [message_loop].
  destruct (i <=? NUM_MESSAGES); [|reflexivity].
  pose proof (exchange_buffer i m b b' p) as (Hok & Ht & Hp & Hst).
  cbv zeta in *.
  destruct (exchange srv sock_fd i (mkState m b) p)
    as [[[st1 p1] t1] ok].
  destruct (exchange srv sock_fd i (mkState m b') p)
    as [[[st1' p1'] t1'] ok'].
  cbn [fst snd] in *; subst ok' t1' p1'.
  destruct ok; [|reflexivity].
  now rewrite Hst.
Qed.

(** *** Reads *)

Lemma exchange_reads (i : Z) (st : state) (p : P) :
  reads_within (BUFFER_SIZE - 1)
               (snd (fst (exchange srv sock_fd i st p))).
Proof.
  unfold exchange.
  destruct (on_send srv p _) as [bytes_sent p1].
  destruct (bytes_sent <? 0); cbn [fst snd];
    [unfold reads_within; repeat constructor|].
  destruct (on_recv srv p1) as [reply p2].
  pose proof (sys_recv_rc (BUFFER_SIZE - 1) (memset_zero BUFFER_SIZE) reply)
    as Hrc.
  cbn [buffer].
  destruct (sys_recv _ _ _) as [n buf]; cbn [fst] in Hrc; subst n.
  pose proof (taken_length (BUFFER_SIZE - 1) reply).
  pose proof (returned_le (BUFFER_SIZE - 1) reply).
  destruct (_ <? 0); cbn [fst snd]; unfold reads_within;
    repeat (apply Forall_app; split); repeat constructor;
    unfold BUFFER_SIZE in *; lia.
Qed.

Lemma message_loop_reads (fuel : nat) (i : Z) (st : state) (p : P) :
  reads_within (BUFFER_SIZE - 1)
               (snd (message_loop srv sock_fd fuel i st p)).
Proof.
  revert i st p; induction fuel as [|fuel IH]; intros i st p;
    cbn [message_loop]; [constructor|].
  destruct (i <=? NUM_MESSAGES); [|constructor].
  pose proof (exchange_reads i st p) as Hx.
  destruct (exchange srv sock_fd i st p) as [[[st1 p1] t1] ok].
  destruct ok; [|assumption].
  specialize (IH (wrap_int (i + 1)) st1 p1).
  destruct (message_loop _ _ _ _ _ _) as [[i' p'] t'].
  apply Forall_app; split; assumption.
Qed.

End WithPeer.

(** *** Runs in which nothing fails *)

Lemma all_ok_filter (t : list event) : all_ok (filter is_io t) = all_ok t.
Proof.
  induction t as [|e t IH]; [reflexivity|].
  unfold all_ok in *.
  destruct e; cbn [filter is_io forallb]; rewrite ?IH; reflexivity.
Qed.

Lemma exchanges_all_ok (fd i j : Z) (io : list event) :
  exchanges fd i io j -> all_ok io = true -> NUM_MESSAGES < j.
Proof.
  induction 1 as [i Hi | i rc Hi Hrc | i rc rc' d Hi Hrc Hrc'
                  | i rc rc' d t j Hi Hrc Hrc' Hex IH];
    cbn [all_ok forallb]; intros Hok.
  - assumption.
  - destruct (Z.leb_spec 0 rc); [lia|discriminate].
  - destruct (Z.leb_spec 0 rc'); [lia|].
    rewrite andb_false_r in Hok; discriminate.
  - apply IH.
    apply andb_true_iff in Hok as [_ Hok].
    now apply andb_true_iff in Hok as [_ Hok].
Qed.

Lemma exchanges_failed (fd i j : Z) (io : list event) :
  exchanges fd i io j -> all_ok io = false -> j <= NUM_MESSAGES.
Proof.
  induction 1 as [i Hi | i rc Hi Hrc | i rc rc' d Hi Hrc Hrc'
                  | i rc rc' d t j Hi Hrc Hrc' Hex IH];
    cbn [all_ok forallb]; intros Hok; try lia; try discriminate.
  apply IH.
  destruct (Z.leb_spec 0 rc); [|lia].
  destruct (Z.leb_spec 0 rc'); [|lia].
  exact Hok.
Qed.

Lemma five_messages_eq :
  map message_text
      (map Z.of_nat (seq (Z.to_nat 1) (Z.to_nat (NUM_MESSAGES + 1 - 1))))
  = five_messages.
Proof. reflexivity. Qed.

(** *** [main] *)

Lemma client_main_started {P : Type} (argv : list string) (e : env P) :
  client_startup_failed argv e = false ->
  main argv e =
    let '(i, _, t_loop) :=
      message_loop (server e) (socket_rc e) loop_fuel 1
                   (mkState (stack_message e) (stack_buffer e)) (server0 e) in
    (client_startup_trace argv e ++ t_loop ++ statistics i (socket_rc e), 0).
Proof.
  unfold client_startup_failed; intros H.
  repeat (apply orb_false_iff in H; destruct H as [H ?]).
  unfold main, client_startup_trace.
  repeat match goal with
         | E : negb ?b = false |- _ => apply negb_false_iff in E
         | E : _ = _ |- _ => rewrite E; clear E
         end.
  cbn [negb].
  destruct (message_loop _ _ _ _ _ _) as [[i p] t_loop].
  repeat rewrite <- app_assoc; reflexivity.
Qed.

Lemma client_main_failed {P : Type} (argv : list string) (e : env P) :
  client_startup_failed argv e = true ->
  snd (main argv e) = 1
  /\ sent (fst (main argv e)) = []
  /\ recv_count (fst (main argv e)) = 0%nat.
Proof.
  unfold client_startup_failed, main; intros H.
  destruct (Z.of_nat (List.length argv) =? 3); cbn [negb]; [|now cbn].
  destruct (host_found e); cbn [negb]; [|now cbn].
  destruct (socket_rc e <? 0); [now cbn|].
  destruct (connect_rc e <? 0); [now cbn|discriminate].
Qed.

Lemma client_main_reads {P : Type} (argv : list string) (e : env P) :
  reads_within (BUFFER_SIZE - 1) (fst (main argv e)).
Proof.
  destruct (client_startup_failed argv e) eqn:F.
  - apply ServerFacts.recv_count_zero_reads, (client_main_failed argv e F).
  - rewrite (client_main_started argv e F).
    pose proof (message_loop_reads (server e) (socket_rc e) loop_fuel 1
                  (mkState (stack_message e) (stack_buffer e)) (server0 e))
      as Hl.
    destruct (message_loop _ _ _ _ _ _) as [[i p] t_loop]; cbn [fst snd] in *.
    repeat apply ServerFacts.reads_within_app; auto;
      apply ServerFacts.recv_count_zero_reads; reflexivity.
Qed.

Lemma statistics_eq (i sock_fd : Z) :
  1 <= i <= NUM_MESSAGES + 1 ->
  statistics i sock_fd
  = [Stdout (nl ++ "=== Client Statistics ===" ++ nl);
     Stdout ("Messages sent: " ++ fmt_d (i - 1) ++ nl);
     Stdout ("========================" ++ nl);
     Close sock_fd;
     Stdout ("Connection closed" ++ nl)].
Proof.
  intros Hi; unfold statistics.
  now rewrite wrap_int_id
    by (unfold NUM_MESSAGES, INT_MIN, INT_MAX in *; lia).
Qed.

End ClientFacts.

(* ================================================================== *)
(** ** Facts about the connected pair                                  *)
(* ================================================================== *)

Module LinkFacts.

Import Link Contract.

Lemma session (client_fd server_fd : Z) (m b stack : list byte) :
  let '(i, w, t) :=
    Client.message_loop (echo_server server_fd) client_fd Client.loop_fuel 1
                        (Client.mkState m b) (fresh stack) in
  i = Client.NUM_MESSAGES + 1
  /\ sent t = five_messages
  /\ received t = five_messages
  /\ received (srv_trace w) = five_messages
  /\ Server.message_count (srv_state w) = 5
  /\ in_flight w = [].
Proof. vm_compute; repeat split. Qed.

End LinkFacts.

(* ================================================================== *)
(** ** Properties of the server                                        *)
(* ================================================================== *)

Module ServerProperties.

Import Server Contract Scenario LibcFacts ServerFacts.

(** C1.  Whatever the echo loop reads with a positive length it hands to
    [send] unchanged and in full: in every pass and in every run the
    payloads written are exactly the chunks read, in the same order, and a
    chunk of [n] bytes is written as [n] bytes.  Connected to this server
    over a loss-free stream, the client reads back, in order, exactly the
    five messages it has written. *)
Theorem echo_guarantee :
  (forall client_fd st r,
      let t := snd (fst (echo_body client_fd st r)) in
      let n := returned (BUFFER_SIZE - 1) (recv_res r) in
      let d := taken (BUFFER_SIZE - 1) (recv_res r) in
      sent t = received t
      /\ sent t = (if 0 <? n then [d] else [])
      /\ (if 0 <? n then Z.of_nat (List.length d) = n else True))
  /\ (forall client_fd st script,
         let t := snd (fst (echo_loop client_fd st script)) in
         sent t = received t)
  /\ (forall client_fd server_fd m b stack,
         let '(i, w, t) :=
           Client.message_loop (Link.echo_server server_fd) client_fd
                               Client.loop_fuel 1 (Client.mkState m b)
                               (Link.fresh stack) in
         sent t = five_messages
         /\ received t = sent t
         /\ received (Link.srv_trace w) = sent t).
Proof.
  split; [|split].
  - intros client_fd st r; cbv zeta.
    rewrite echo_body_eq.
    destruct (echo_pass client_fd st r) as [[st1 t1] brk] eqn:Hpass.
    cbn [fst snd].
    destruct (echo_pass_sent_received _ _ _ _ _ _ Hpass) as [Heq _].
    split; [assumption|].
    pose proof (returned_cases (BUFFER_SIZE - 1) (recv_res r)) as Hn.
    pass_cases Hpass; autorewrite with trace;
      cbn [sent flat_map app].
    all: match goal with
         | |- context [0 <? ?x] => destruct (Z.ltb_spec 0 x); try lia
         end.
    all: split; auto; lia.
  - intros; apply echo_loop_sent_received.
  - intros client_fd server_fd m b stack.
    pose proof (LinkFacts.session client_fd server_fd m b stack) as H.
    destruct (Client.message_loop _ _ _ _ _ _) as [[i w] t].
    destruct H as (_ & -> & -> & -> & _); auto.
Qed.

(** C3, as stated, fails: one message arrives, the echo cannot be written,
    and the loop is left although the only read returned 2 bytes and the
    flag still holds 1; the server goes on to its summary and exits. *)
Lemma echo_loop_left_on_send_failure :
  echo_loop 4 (mkState 1 [] 0) send_fails
  = (mkState 1 (filled BUFFER_SIZE hi) 1,
     [Recv 4 1023 2 hi;
      Stdout ("[MSG 1] Received 2 bytes: hi" ++ nl);
      Send 4 hi (-1);
      Perror "ERROR: Send failed"],
     SendFailed)
  /\ snd (main server_argv (server_env send_fails)) = Exit 0.
Proof. split; vm_compute; reflexivity. Qed.

(** C3, as amended.  The echo loop is left on exactly four conditions,
    decided by the first answers that end it: a read of length zero
    (reported with "Client disconnected"), a read that fails (reported
    with perror), a write of the echo that fails (reported with perror),
    or the flag found cleared at the loop test; until then the server
    stays in the loop.  When the peer closes, the read that returns zero
    is the last call of the loop, and the summary shows the number of
    messages echoed before. *)
Theorem echo_loop_exits :
  (forall client_fd st script,
      snd (echo_loop client_fd st script)
      = if running st =? 0 then FlagCleared else loop_exit_of script)
  /\ (forall client_fd st script,
         let '(st', t, why) := echo_loop client_fd st script in
         last_words client_fd st' t why)
  /\ (forall argv e,
         server_startup_failed argv e = false ->
         Z.of_nat (List.length (replies e)) <= INT_MAX ->
         server_loop_exit e = PeerClosed ->
         exists t0,
           main argv e
           = (server_startup_trace e
                ++ t0
                ++ [Recv (accept_rc e) (BUFFER_SIZE - 1) 0 [];
                    Stdout ("Client disconnected" ++ nl)]
                ++ statistics (Z.of_nat (sends_done t0))
                ++ [Close (accept_rc e); Close (socket_rc e);
                    Stdout ("Server shutdown complete" ++ nl)],
              Exit 0)
           /\ sends_done t0 = List.length (sent t0)
           /\ recv_count t0 = List.length (received t0)
           /\ sent t0 = received t0).
Proof.
  split; [|split].
  - apply echo_loop_exit.
  - apply echo_loop_last.
  - apply server_main_closed.
Qed.

Lemma echo_loop_exits_witness :
  exists t0,
    main server_argv (server_env peer_closes)
    = (server_startup_trace (server_env peer_closes)
         ++ t0
         ++ [Recv 4 (BUFFER_SIZE - 1) 0 [];
             Stdout ("Client disconnected" ++ nl)]
         ++ statistics (Z.of_nat (sends_done t0))
         ++ [Close 4; Close 3; Stdout ("Server shutdown complete" ++ nl)],
       Exit 0)
    /\ sends_done t0 = List.length (sent t0)
    /\ recv_count t0 = List.length (received t0)
    /\ sent t0 = received t0.
Proof.
  apply (proj2 (proj2 echo_loop_exits) server_argv (server_env peer_closes)).
  - reflexivity.
  - vm_compute; discriminate.
  - reflexivity.
Defined.

(** C5.  The server exits with code 1 when it is not given exactly one
    argument or when [socket], [setsockopt], [bind], [listen] or [accept]
    fails; otherwise it exits with code 0 as soon as its loop is left, be
    it by the peer closing, a failed read, a failed write or the flag; it
    has no exit code only while it is still blocked in [recv]. *)
Theorem server_exit_code (argv : list string) (e : env) :
  snd (main argv e)
  = if server_startup_failed argv e then Exit 1
    else match server_loop_exit e with
         | Pending => Blocked
         | _ => Exit 0
         end.
Proof.
  destruct (server_startup_failed argv e) eqn:F.
  - apply (server_main_failed argv e F).
  - rewrite (server_main_started argv e F).
    pose proof (echo_loop_exit (accept_rc e) (server_loop_entry e) (replies e))
      as Hwhy.
    unfold server_loop_exit, server_loop_entry in *.
    destruct (echo_loop _ _ _) as [[st t] why]; cbn [snd] in Hwhy.
    subst why.
    destruct (accept_sigs e); cbn [flag_after running].
    + now destruct (loop_exit_of (replies e)).
    + reflexivity.
Qed.

(** C9, as stated, fails: SIGINT arrives after the first message has been
    read, while its echo is written, and a second message is there to
    read.  The server finishes the pass and leaves the loop at the next
    test: no read follows the signal, and the second message is never
    read. *)
Lemma signal_after_read_stops_without_a_read :
  echo_loop 4 (mkState 1 [] 0) interrupted_after_read
  = (mkState 0 (filled BUFFER_SIZE hi) 1,
     [Recv 4 1023 2 hi;
      Stdout ("[MSG 1] Received 2 bytes: hi" ++ nl);
      Send 4 hi 2;
      Delivered SIGINT;
      Stdout (nl ++ "Received signal 2, shutting down..." ++ nl);
      Stdout ("[MSG 1] Echoed back to client" ++ nl)],
     FlagCleared)
  /\ recv_count
       (after_first_signal
          (fst (main server_argv (server_env interrupted_after_read))))
     = 0%nat
  /\ recv_count (fst (main server_argv (server_env interrupted_after_read)))
     = 1%nat
  /\ snd (main server_argv (server_env interrupted_after_read)) = Exit 0.
Proof. vm_compute; repeat split. Qed.

(** C9, as amended.  Each signal delivered runs the handler, which clears
    the flag, and nothing sets it back.  The flag is looked at only at the
    loop test, so the pass that meets a signal, at whatever point of the
    body, is run to its end: a signal that arrives before [recv] has
    returned lets that read complete, and a positive read is still
    counted, printed and echoed; a signal that arrives after the read has
    returned is followed by no read at all.  In both cases the loop is
    left at the next test at the latest, nothing behind is read, and the
    server prints its summary, closes both sockets and exits with code
    0. *)
Theorem signal_shutdown :
  (forall sigs st,
      deliver sigs st
      = (mkState (flag_after sigs (running st)) (buffer st) (message_count st),
         handler_trace sigs))
  /\ (forall client_fd st script,
         running st = 0 ->
         echo_loop_with client_fd st script = (st, [], FlagCleared))
  /\ (forall client_fd st p rest,
         running st <> 0 ->
         arrived (pass_sigs p) <> [] ->
         0 < returned (BUFFER_SIZE - 1) (pass_recv p) ->
         0 <= pass_send p ->
         let a := pass_sigs p in
         let n := returned (BUFFER_SIZE - 1) (pass_recv p) in
         let d := taken (BUFFER_SIZE - 1) (pass_recv p) in
         let c := wrap_int (message_count st + 1) in
         echo_loop_with client_fd st (p :: rest)
         = (mkState 0 (filled BUFFER_SIZE d) c,
            handler_trace (in_recv a)
              ++ [Recv client_fd (BUFFER_SIZE - 1) n d]
              ++ handler_trace (after_recv a)
              ++ [Stdout (fmt_received c n d)]
              ++ handler_trace (before_send a)
              ++ [Send client_fd d (pass_send p)]
              ++ handler_trace (in_send a)
              ++ [Stdout (fmt_echoed c)]
              ++ handler_trace (after_echo a),
            FlagCleared))
  /\ (forall client_fd st p rest,
         running st <> 0 ->
         arrived (pass_sigs p) <> [] ->
         echo_loop_with client_fd st (p :: rest)
         = (let '(st1, t1, brk) := echo_body_with client_fd st p in
            (st1, t1, match brk with Some why => why | None => FlagCleared end))
         /\ recv_count (snd (fst (echo_loop_with client_fd st (p :: rest))))
            = 1%nat
         /\ recv_count
              (after_first_signal
                 (snd (fst (echo_loop_with client_fd st (p :: rest)))))
            = match in_recv (pass_sigs p) with [] => 0%nat | _ :: _ => 1%nat end)
  /\ (forall client_fd st script,
         (recv_count
            (after_first_signal
               (snd (fst (echo_loop_with client_fd st script)))) <= 1)%nat)
  /\ (forall server_fd client_fd st pre p rest,
         arrived (pass_sigs p) <> [] ->
         serve_with server_fd client_fd st (pre ++ p :: rest)
         = (let '(st', t, _) := echo_loop_with client_fd st (pre ++ [p]) in
            (t ++ statistics (message_count st')
               ++ [Close client_fd; Close server_fd;
                   Stdout ("Server shutdown complete" ++ nl)],
             Exit 0)))
  /\ (forall client_fd st r,
         echo_body client_fd st r = echo_body_with client_fd st (at_calls r))
  /\ (forall argv e,
         server_startup_failed argv e = false ->
         main argv e
         = (let '(t, out) :=
              serve_with (socket_rc e) (accept_rc e) (server_loop_entry e)
                         (map at_calls (replies e)) in
            (server_startup_trace e ++ t, out)))
  /\ (forall argv e,
         (recv_count (after_first_signal (fst (main argv e))) <= 1)%nat).
Proof.
  split; [|split; [|split; [|split; [|split; [|split; [|split; [|split]]]]]]].
  - apply deliver_eq.
  - intros; now apply echo_loop_with_stopped.
  - intros client_fd st p rest Hrun Hsig Hn Hs; cbv zeta.
    rewrite echo_loop_with_signalled by assumption.
    unfold echo_pass_with.
    destruct (Z.eqb_spec (returned (BUFFER_SIZE - 1) (pass_recv p)) 0); [lia|].
    destruct (Z.ltb_spec (returned (BUFFER_SIZE - 1) (pass_recv p)) 0); [lia|].
    destruct (Z.ltb_spec (pass_send p) 0); [lia|].
    rewrite flag_after_arrived.
    destruct (arrived (pass_sigs p)); [contradiction|].
    cbn [flag_after]; now rewrite <- !app_assoc.
  - intros client_fd st p rest Hrun Hsig.
    rewrite echo_loop_with_signalled, echo_body_with_eq by assumption.
    split; [reflexivity|].
    destruct (echo_pass_with client_fd st p) as [[st1 t1] brk] eqn:Hpass.
    destruct (echo_pass_with_signal _ _ _ _ _ _ Hpass) as (Hc & _ & Ha & _).
    cbn [fst snd]; split; assumption.
  - apply echo_loop_with_signal.
  - intros server_fd client_fd st pre p rest Hsig; unfold serve_with.
    destruct (echo_loop_with_ended client_fd st pre rest p Hsig) as [-> Hex].
    destruct (echo_loop_with _ _ _) as [[st' t] why]; cbn [snd] in Hex.
    now destruct why.
  - apply echo_body_at_calls.
  - apply server_main_serve.
  - apply server_main_signal.
Qed.

Lemma signal_shutdown_witness :
  echo_loop_with 4 (mkState 1 [] 0) interrupted_before_send
  = (mkState 0 (filled BUFFER_SIZE hi) 1,
     [Recv 4 1023 2 hi;
      Stdout ("[MSG 1] Received 2 bytes: hi" ++ nl);
      Delivered SIGTERM;
      Stdout (nl ++ "Received signal 15, shutting down..." ++ nl);
      Send 4 hi 2;
      Stdout ("[MSG 1] Echoed back to client" ++ nl)],
     FlagCleared)
  /\ recv_count
       (after_first_signal
          (snd (fst (echo_loop_with 4 (mkState 1 [] 0) interrupted_before_send))))
     = 0%nat
  /\ snd (serve_with 3 4 (mkState 1 [] 0) interrupted_before_send) = Exit 0
  /\ snd (main server_argv (server_env interrupted)) = Exit 0.
Proof.
  destruct signal_shutdown
    as (_ & _ & Hpass & Hgen & _ & Hserve & _ & Hmain & _).
  split; [|split; [|split]].
  - apply (Hpass 4 (mkState 1 [] 0)
                 (mkPass (mkArrivals [] [] [SIGTERM] [] []) (RecvBytes hi) 2)
                 [mkPass (mkArrivals [] [] [] [] []) (RecvBytes hi) 2]).
    + discriminate.
    + discriminate.
    + reflexivity.
    + vm_compute; discriminate.
  - apply (Hgen 4 (mkState 1 [] 0)
                (mkPass (mkArrivals [] [] [SIGTERM] [] []) (RecvBytes hi) 2)
                [mkPass (mkArrivals [] [] [] [] []) (RecvBytes hi) 2]);
      discriminate.
  - pose proof
      (Hserve 3 4 (mkState 1 [] 0) []
         (mkPass (mkArrivals [] [] [SIGTERM] [] []) (RecvBytes hi) 2)
         [mkPass (mkArrivals [] [] [] [] []) (RecvBytes hi) 2]) as H.
    cbn [app] in H; unfold interrupted_before_send.
    rewrite H by discriminate.
    reflexivity.
  - rewrite (Hmain server_argv (server_env interrupted) eq_refl).
    reflexivity.
Defined.

End ServerProperties.

(* ================================================================== *)
(** ** Properties of the client                                        *)
(* ================================================================== *)

Module ClientProperties.

Import Client Contract Scenario LibcFacts ClientFacts.

(** C2.  After a successful start-up the client writes message 1, reads
    its reply, and only then writes message 2, and so on up to message 5;
    message [i] is the text "Message i from client".  The first write or
    read that fails is the last call of the loop.  The summary then shows
    the number of exchanges whose read did not fail: 5 when nothing
    failed, fewer otherwise. *)
Theorem client_exchanges {P : Type} (argv : list string) (e : env P) :
  client_startup_failed argv e = false ->
  exists i t,
    fst (main argv e)
    = client_startup_trace argv e ++ t ++ statistics i (socket_rc e)
    /\ exchanges (socket_rc e) 1 (filter is_io t) i
    /\ statistics i (socket_rc e)
       = [Stdout (nl ++ "=== Client Statistics ===" ++ nl);
          Stdout ("Messages sent: " ++ fmt_d (Z.of_nat (recvs_done t)) ++ nl);
          Stdout ("========================" ++ nl);
          Close (socket_rc e);
          Stdout ("Connection closed" ++ nl)]
    /\ (if all_ok t
        then sent t = five_messages /\ recvs_done t = 5%nat
        else (recvs_done t < 5)%nat)
    /\ map message_text [1; 2; 3; 4; 5] = five_messages.
Proof.
  intros F; rewrite (client_main_started argv e F).
  pose proof (message_loop_exchanges (server e) (socket_rc e) loop_fuel 1
                (mkState (stack_message e) (stack_buffer e)) (server0 e))
    as H.
  destruct (message_loop _ _ _ _ _ _) as [[i p] t]; cbn [fst snd] in *.
  destruct H as (Hex & Hi & Hdone & Hsent);
    [unfold NUM_MESSAGES; lia | vm_compute; reflexivity |].
  exists i, t; repeat split; auto.
  - rewrite statistics_eq by lia.
    now replace (i - 1) with (Z.of_nat (recvs_done t)) by lia.
  - destruct (all_ok t) eqn:Hok; rewrite <- all_ok_filter in Hok.
    + pose proof (exchanges_all_ok _ _ _ _ Hex Hok) as Hj.
      assert (Ei : i = NUM_MESSAGES + 1) by lia.
      rewrite (Hsent Ei), five_messages_eq.
      unfold NUM_MESSAGES in *; split; [reflexivity|lia].
    + pose proof (exchanges_failed _ _ _ _ Hex Hok) as Hj.
      unfold NUM_MESSAGES in *; lia.
Qed.

Lemma client_exchanges_witness :
  exists i t,
    fst (main client_argv (client_env failing_peer 0%nat))
    = client_startup_trace client_argv (client_env failing_peer 0%nat)
        ++ t ++ statistics i 3
    /\ exchanges 3 1 (filter is_io t) i
    /\ statistics i 3
       = [Stdout (nl ++ "=== Client Statistics ===" ++ nl);
          Stdout ("Messages sent: " ++ fmt_d (Z.of_nat (recvs_done t)) ++ nl);
          Stdout ("========================" ++ nl);
          Close 3;
          Stdout ("Connection closed" ++ nl)]
    /\ (if all_ok t
        then sent t = five_messages /\ recvs_done t = 5%nat
        else (recvs_done t < 5)%nat)
    /\ map message_text [1; 2; 3; 4; 5] = five_messages.
Proof.
  exact (client_exchanges client_argv (client_env failing_peer 0%nat)
                          eq_refl).
Defined.

(** C4.  The client exits with code 1 when it is not given exactly two
    arguments, when the host is not found, when [socket] fails or when
    [connect] fails, and in none of these cases does it write to or read
    from a connection; in every other case it exits with code 0, whatever
    happens in the message loop. *)
Theorem client_exit_code {P : Type} (argv : list string) (e : env P) :
  snd (main argv e) = (if client_startup_failed argv e then 1 else 0)
  /\ (client_startup_failed argv e = true ->
      sent (fst (main argv e)) = []
      /\ recv_count (fst (main argv e)) = 0%nat).
Proof.
  destruct (client_startup_failed argv e) eqn:F.
  - destruct (client_main_failed argv e F) as (Hc & Hs & Hr); auto.
  - split; [|discriminate].
    rewrite (client_main_started argv e F).
    now destruct (message_loop _ _ _ _ _ _) as [[i p] t].
Qed.

Lemma client_exit_code_witness :
  let e := mkEnv 8080 true 3 (-1) [] [] closed_peer tt in
  snd (main client_argv e) = 1
  /\ sent (fst (main client_argv e)) = []
  /\ recv_count (fst (main client_argv e)) = 0%nat.
Proof.
  intros e.
  destruct (client_exit_code client_argv e) as [Hcode Hquiet].
  split; [exact Hcode | exact (Hquiet eq_refl)].
Defined.

(** C10.  In an exchange whose write did not fail, the loop is left at
    the read only when [recv] returns a negative value.  A read of length
    zero completes the exchange: the client prints an empty echo with
    "(0 bytes)", pauses and goes on to the next message.  Against a peer
    that has closed its side the client therefore still writes all five
    messages and reports five. *)
Theorem zero_length_reply_completes :
  (forall (P : Type) (srv : peer P) sock_fd i st p rc p1 reply p2,
      1 <= i <= NUM_MESSAGES ->
      on_send srv p (message_text i) = (rc, p1) ->
      0 <= rc ->
      on_recv srv p1 = (reply, p2) ->
      snd (exchange srv sock_fd i st p)
      = negb (returned (BUFFER_SIZE - 1) reply <? 0)
      /\ (returned (BUFFER_SIZE - 1) reply = 0 ->
          snd (fst (exchange srv sock_fd i st p))
          = [Stdout (fmt_sending i (message_text i));
             Send sock_fd (message_text i) rc;
             Stdout (fmt_sent i rc);
             Recv sock_fd (BUFFER_SIZE - 1) 0 [];
             Stdout ("[MSG " ++ fmt_d i ++ "] Received echo:  (0 bytes)"
                             ++ nl);
             Sleep 1]))
  /\ (let t := fst (main client_argv (client_env closed_peer tt)) in
      sent t = five_messages
      /\ received t = []
      /\ recv_count t = 5%nat
      /\ In (Stdout ("Messages sent: 5" ++ nl)) t
      /\ snd (main client_argv (client_env closed_peer tt)) = 0).
Proof.
  split.
  - intros P srv sock_fd i st p rc p1 reply p2 Hi Hsend Hrc Hrecv.
    rewrite exchange_eq by assumption.
    unfold exchange_pass; rewrite Hsend.
    destruct (Z.ltb_spec rc 0); [lia|].
    rewrite Hrecv.
    destruct (returned (BUFFER_SIZE - 1) reply <? 0) eqn:Hneg;
      cbn [fst snd negb]; (split; [reflexivity|]); intros Hz.
    + rewrite Hz in Hneg; discriminate.
    + rewrite Hz, (ServerFacts.returned_zero_taken _ _ Hz); reflexivity.
  - cbv zeta; repeat split; try (vm_compute; reflexivity).
    vm_compute; repeat (first [left; reflexivity | right]).
Qed.

Lemma zero_length_reply_completes_witness :
  snd (exchange closed_peer 3 1 (mkState [] []) tt) = true
  /\ snd (fst (exchange closed_peer 3 1 (mkState [] []) tt))
     = [Stdout (fmt_sending 1 (message_text 1));
        Send 3 (message_text 1) 21;
        Stdout (fmt_sent 1 21);
        Recv 3 (BUFFER_SIZE - 1) 0 [];
        Stdout ("[MSG " ++ fmt_d 1 ++ "] Received echo:  (0 bytes)" ++ nl);
        Sleep 1].
Proof.
  destruct (proj1 zero_length_reply_completes unit closed_peer 3 1
                  (mkState [] []) tt 21 tt RecvClosed tt)
    as [Hok Ht].
  - unfold NUM_MESSAGES; lia.
  - reflexivity.
  - lia.
  - reflexivity.
  - split; [exact Hok | exact (Ht eq_refl)].
Defined.

End ClientProperties.

(* ================================================================== *)
(** ** Properties of the counter and of the receive buffer             *)
(* ================================================================== *)

Module BufferProperties.

Import Contract Scenario LibcFacts.

(** C6, as stated, fails on the server: a message arrives, its echo
    cannot be written, and the summary still counts it; and the counter
    is printed with the message, before the summary. *)
Lemma failed_echo_is_counted :
  let t := fst (Server.main server_argv (server_env send_fails)) in
  sends_done t = 0%nat
  /\ skipn 12 t
     = [Recv 4 1023 2 hi;
        Stdout ("[MSG 1] Received 2 bytes: hi" ++ nl);
        Send 4 hi (-1);
        Perror "ERROR: Send failed";
        Stdout (nl ++ "=== Server Statistics ===" ++ nl);
        Stdout ("Total messages: 1" ++ nl);
        Stdout ("========================" ++ nl);
        Close 4; Close 3;
        Stdout ("Server shutdown complete" ++ nl)].
Proof. vm_compute; split; reflexivity. Qed.

(** C6, as amended.  The server's counter is a tally of the messages
    received: each pass adds one exactly when its read returns a positive
    length, whether or not the echo is then written, and prints the new
    value with the message; over a run that cannot overflow an [int] the
    counter is its initial value plus the number of such reads, and it
    never decreases as the run goes on.  The client has no counter of its
    own: its summary shows the loop index less one, the number of
    exchanges whose read did not fail. *)
Theorem message_counter :
  (forall client_fd st r,
      Server.message_count (fst (fst (Server.echo_body client_fd st r)))
      = if 0 <? returned (Server.BUFFER_SIZE - 1) (Server.recv_res r)
        then wrap_int (Server.message_count st + 1)
        else Server.message_count st)
  /\ (forall client_fd st r,
         Server.echo_body client_fd st r = echo_pass client_fd st r)
  /\ (forall client_fd st script,
         0 <= Server.message_count st ->
         Server.message_count st + Z.of_nat (List.length script) <= INT_MAX ->
         let '(st', t, _) := Server.echo_loop client_fd st script in
         Server.message_count st'
         = Server.message_count st + Z.of_nat (List.length (received t)))
  /\ (forall client_fd st a b,
         0 <= Server.message_count st ->
         Server.message_count st + Z.of_nat (List.length (a ++ b)) <= INT_MAX ->
         Server.message_count st
         <= Server.message_count (fst (fst (Server.echo_loop client_fd st a)))
         <= Server.message_count
              (fst (fst (Server.echo_loop client_fd st (a ++ b)))))
  /\ (forall (P : Type) (srv : Client.peer P) sock_fd st p,
         let '(i, _, t) :=
           Client.message_loop srv sock_fd Client.loop_fuel 1 st p in
         i - 1 = Z.of_nat (recvs_done t)).
Proof.
  split; [|split; [|split; [|split]]].
  - apply ServerFacts.echo_body_count.
  - apply ServerFacts.echo_body_eq.
  - intros client_fd st script H0 Hlen.
    pose proof (ServerFacts.echo_loop_count client_fd st script H0 Hlen)
      as [Hc _].
    now destruct (Server.echo_loop client_fd st script) as [[st' t] why].
  - apply ServerFacts.echo_loop_count_prefix.
  - intros P srv sock_fd st p.
    pose proof (ClientFacts.message_loop_exchanges srv sock_fd
                  Client.loop_fuel 1 st p) as H.
    destruct (Client.message_loop _ _ _ _ _ _) as [[i p'] t].
    cbn [fst snd] in H.
    destruct H as (_ & _ & Hdone & _);
      [unfold Client.NUM_MESSAGES; lia | vm_compute; reflexivity | lia].
Qed.

Lemma message_counter_witness :
  Server.message_count
    (fst (fst (Server.echo_loop 4 (Server.mkState 1 [] 0) peer_closes)))
  = 0 + Z.of_nat
          (List.length
             (received
                (snd (fst (Server.echo_loop 4 (Server.mkState 1 [] 0)
                                            peer_closes)))))
  /\ 0 <= Server.message_count
            (fst (fst (Server.echo_loop 4 (Server.mkState 1 [] 0)
                                        (firstn 1 peer_closes))))
       <= Server.message_count
            (fst (fst (Server.echo_loop 4 (Server.mkState 1 [] 0)
                                        peer_closes))).
Proof.
  destruct message_counter as (_ & _ & Hrun & Hmono & _).
  split.
  - specialize (Hrun 4 (Server.mkState 1 [] 0) peer_closes).
    destruct (Server.echo_loop 4 (Server.mkState 1 [] 0) peer_closes)
      as [[st' t] why].
    apply Hrun; vm_compute; discriminate.
  - apply (Hmono 4 (Server.mkState 1 [] 0)
                 [Server.mkReply [] (RecvBytes hi) [] 2]
                 [Server.mkReply [] RecvClosed [] 0]);
      vm_compute; discriminate.
Defined.

(** C7.  Both loops zero the receive buffer before every [recv], so that
    after the read the buffer holds the bytes just taken off the socket,
    however few or many were offered, and zeros behind them.  What a pass
    prints and writes is therefore told by the bytes of its own read
    alone, and a run does not depend on what the buffer held before. *)
Theorem receive_buffer_cleared :
  (forall r,
      snd (sys_recv (Server.BUFFER_SIZE - 1)
                    (memset_zero Server.BUFFER_SIZE) r)
      = filled Server.BUFFER_SIZE (taken (Server.BUFFER_SIZE - 1) r)
      /\ fmt_s (filled Server.BUFFER_SIZE (taken (Server.BUFFER_SIZE - 1) r))
         = fmt_s (taken (Server.BUFFER_SIZE - 1) r))
  /\ (forall client_fd st r,
         Server.echo_body client_fd st r = echo_pass client_fd st r)
  /\ (forall client_fd st b script,
         let run1 := Server.echo_loop client_fd st script in
         let run2 := Server.echo_loop client_fd (Server.set_buffer st b) script in
         snd (fst run2) = snd (fst run1)
         /\ snd run2 = snd run1
         /\ Server.message_count (fst (fst run2))
            = Server.message_count (fst (fst run1))
         /\ Server.running (fst (fst run2)) = Server.running (fst (fst run1)))
  /\ (forall (P : Type) (srv : Client.peer P) sock_fd i st p,
         1 <= i <= Client.NUM_MESSAGES ->
         Client.exchange srv sock_fd i st p = exchange_pass srv sock_fd i st p)
  /\ (forall (P : Type) (srv : Client.peer P) sock_fd fuel i m b b' p,
         Client.message_loop srv sock_fd fuel i (Client.mkState m b') p
         = Client.message_loop srv sock_fd fuel i (Client.mkState m b) p).
Proof.
  split; [|split; [|split; [|split]]].
  - intros r; split.
    + now rewrite sys_recv_buf, store_zeroed.
    + unfold fmt_s; rewrite c_str_filled; [reflexivity|].
      pose proof (taken_length (Server.BUFFER_SIZE - 1) r).
      unfold Server.BUFFER_SIZE in *; lia.
  - apply ServerFacts.echo_body_eq.
  - apply ServerFacts.echo_loop_buffer.
  - intros; now apply ClientFacts.exchange_eq.
  - intros; apply ClientFacts.message_loop_buffer.
Qed.

Lemma receive_buffer_cleared_witness :
  Client.exchange big_peer 3 1 (Client.mkState hi kilobyte) tt
  = exchange_pass big_peer 3 1 (Client.mkState hi kilobyte) tt.
Proof.
  apply (proj1 (proj2 (proj2 (proj2 receive_buffer_cleared)))).
  unfold Client.NUM_MESSAGES; lia.
Defined.

(** A read of 1023 bytes followed by a short one: the second message is
    printed and echoed as it is. *)
Example short_after_long :
  let script :=
    [Server.mkReply [] (RecvBytes kilobyte) [] 1023;
     Server.mkReply [] (RecvBytes hi) [] 2] in
  skipn 4 (snd (fst (Server.echo_loop 4 (Server.mkState 1 [] 0) script)))
  = [Recv 4 1023 2 hi;
     Stdout ("[MSG 2] Received 2 bytes: hi" ++ nl);
     Send 4 hi 2;
     Stdout ("[MSG 2] Echoed back to client" ++ nl)].
Proof. vm_compute; reflexivity. Qed.

(** C8, as stated, fails: with 1024 bytes ready, a read of the server and
    a read of the client each return 1023 of them. *)
Lemma read_of_a_kilobyte :
  List.length kilobyte = 1024%nat
  /\ hd (Close 0)
        (snd (fst (Server.echo_loop 4 (Server.mkState 1 [] 0) big_read)))
     = Recv 4 1023 1023 (repeat "A"%byte 1023)
  /\ nth 3 (snd (fst (Client.exchange big_peer 3 1 (Client.mkState [] []) tt)))
           (Close 0)
     = Recv 3 1023 1023 (repeat "A"%byte 1023).
Proof. vm_compute; repeat split. Qed.

(** C8, as amended.  Each [recv] of the server's echo loop and of the
    client's message loop asks for [BUFFER_SIZE - 1] = 1023 bytes, one
    less than the buffer holds, and returns at most that many; 1023 is
    reached. *)
Theorem read_bound :
  Server.BUFFER_SIZE - 1 = 1023
  /\ Client.BUFFER_SIZE - 1 = 1023
  /\ (forall argv e, reads_within 1023 (fst (Server.main argv e)))
  /\ (forall (P : Type) argv (e : Client.env P),
         reads_within 1023 (fst (Client.main argv e)))
  /\ returned (Server.BUFFER_SIZE - 1) (RecvBytes kilobyte) = 1023.
Proof.
  repeat split.
  - apply ServerFacts.server_main_reads.
  - intros; apply ClientFacts.client_main_reads.
Qed.

End BufferProperties.

(* ================================================================== *)
(** ** Facts about whole runs                                          *)
(* ================================================================== *)

Module RunFacts.

Import Contract Ledger LibcFacts ServerFacts.

(** *** The loops only print, read, write and pause *)

Lemma loop_only_app (t1 t2 : list event) :
  forallb is_loop_event t1 = true ->
  forallb is_loop_event t2 = true ->
  forallb is_loop_event (t1 ++ t2) = true.
Proof. intros H1 H2; now rewrite forallb_app, H1, H2. Qed.

Lemma loop_only_handler (sigs : list signal) :
  forallb is_loop_event (handler_trace sigs) = true.
Proof. induction sigs; simpl; auto. Qed.

Lemma echo_pass_loop_only (client_fd : Z) (st st1 : Server.state)
      (r : Server.echo_reply) (t1 : list event)
      (brk : option Server.loop_exit) :
  echo_pass client_fd st r = (st1, t1, brk) ->
  forallb is_loop_event t1 = true.
Proof.
  intros H; pass_cases H; rewrite !forallb_app, !loop_only_handler;
    reflexivity.
Qed.

Lemma echo_loop_loop_only (client_fd : Z) (st : Server.state)
      (script : list Server.echo_reply) :
  forallb is_loop_event (snd (fst (Server.echo_loop client_fd st script)))
  = true.
Proof.
  apply (echo_loop_ind client_fd
           (fun _ _ res => forallb is_loop_event (snd (fst res)) = true));
    cbn [fst snd]; intros; auto.
  - eapply echo_pass_loop_only; eauto.
  - apply loop_only_app; [eapply echo_pass_loop_only; eauto | assumption].
Qed.

Lemma exchange_loop_only {P : Type} (srv : Client.peer P) (sock_fd i : Z)
      (st : Client.state) (p : P) :
  forallb is_loop_event (snd (fst (Client.exchange srv sock_fd i st p)))
  = true.
Proof.
  unfold Client.exchange.
  destruct (Client.on_send srv p _) as [bytes_sent p1].
  destruct (bytes_sent <? 0); [reflexivity|].
  destruct (Client.on_recv srv p1) as [reply p2].
  destruct (sys_recv _ _ _) as [n buf].
  destruct (n <? 0); reflexivity.
Qed.

Lemma message_loop_loop_only {P : Type} (srv : Client.peer P) (sock_fd : Z)
      (fuel : nat) (i : Z) (st : Client.state) (p : P) :
  forallb is_loop_event (snd (Client.message_loop srv sock_fd fuel i st p))
  = true.
Proof.
  revert i st p; induction fuel as [|fuel IH]; intros i st p;
    cbn [Client.message_loop]; [reflexivity|].
  destruct (i <=? Client.NUM_MESSAGES); [|reflexivity].
  pose proof (exchange_loop_only srv sock_fd i st p) as Hx.
  destruct (Client.exchange srv sock_fd i st p) as [[[st1 p1] t1] ok].
  destruct ok; [|assumption].
  specialize (IH (wrap_int (i + 1)) st1 p1).
  destruct (Client.message_loop _ _ _ _ _ _) as [[i' p'] t'].
  now apply loop_only_app.
Qed.

Lemma loop_only_quiet (t : list event) :
  forallb is_loop_event t = true ->
  closes t = [] /\ opened t = [] /\ setup_calls t = [].
Proof.
  induction t as [|e t IH]; [auto|]; cbn [forallb].
  intros H; apply andb_true_iff in H as [He Ht].
  destruct (IH Ht) as (Hc & Ho & Hs).
  unfold closes, opened, setup_calls in *.
  destruct e; try discriminate; cbn [flat_map filter is_setup app];
    rewrite ?Hc, ?Ho, ?Hs; auto.
Qed.

(** *** Descriptors *)

Lemma closes_app (t1 t2 : list event) :
  closes (t1 ++ t2) = closes t1 ++ closes t2.
Proof. apply flat_map_app. Qed.

Lemma opened_app (t1 t2 : list event) :
  opened (t1 ++ t2) = opened t1 ++ opened t2.
Proof. apply flat_map_app. Qed.

Lemma setup_calls_app (t1 t2 : list event) :
  setup_calls (t1 ++ t2) = setup_calls t1 ++ setup_calls t2.
Proof. apply filter_app. Qed.

Lemma handler_quiet (sigs : list signal) :
  closes (handler_trace sigs) = []
  /\ opened (handler_trace sigs) = []
  /\ setup_calls (handler_trace sigs) = [].
Proof. apply loop_only_quiet, loop_only_handler. Qed.

(** Splitting [server_startup_failed argv e = false] into its parts. *)
Lemma server_started_parts (argv : list string) (e : Server.env) :
  server_startup_failed argv e = false ->
  Z.of_nat (List.length argv) = 2
  /\ 0 <= Server.socket_rc e /\ 0 <= Server.setsockopt_rc e
  /\ 0 <= Server.bind_rc e /\ 0 <= Server.listen_rc e
  /\ 0 <= Server.accept_rc e.
Proof.
  unfold server_startup_failed; intros H.
  repeat (apply orb_false_iff in H; destruct H as [H ?]).
  apply negb_false_iff, Z.eqb_eq in H.
  repeat match goal with
         | E : (_ <? 0) = false |- _ => apply Z.ltb_ge in E
         end.
  repeat split; assumption.
Qed.

Lemma server_startup_ledger (e : Server.env) :
  0 <= Server.socket_rc e -> 0 <= Server.accept_rc e ->
  closes (server_startup_trace e) = []
  /\ opened (server_startup_trace e)
     = [Server.socket_rc e; Server.accept_rc e]
  /\ setup_calls (server_startup_trace e) = server_setup e.
Proof.
  intros Hs Ha; destruct (handler_quiet (Server.accept_sigs e)) as (Hc & Ho & Hu).
  unfold server_startup_trace, Server.banner.
  rewrite !closes_app, !opened_app, !setup_calls_app, Hc, Ho, Hu.
  cbn [closes opened setup_calls flat_map filter is_setup app].
  destruct (Z.ltb_spec (Server.socket_rc e) 0); [lia|].
  destruct (Z.ltb_spec (Server.accept_rc e) 0); [lia|].
  auto.
Qed.

(** *** A peer that sends, is echoed, and closes *)

Lemma taken_nonempty (avail : list byte) :
  avail <> [] ->
  0 < Z.of_nat (List.length (taken (Server.BUFFER_SIZE - 1) (RecvBytes avail))).
Proof.
  destruct avail as [|x avail]; [contradiction|]; intros _.
  unfold taken.
  change (Z.to_nat (Server.BUFFER_SIZE - 1)) with (S 1022).
  cbn [firstn List.length]; lia.
Qed.

Lemma echo_pass_offer (client_fd : Z) (st : Server.state) (avail : list byte) :
  avail <> [] ->
  let d := taken (Server.BUFFER_SIZE - 1) (RecvBytes avail) in
  let n := Z.of_nat (List.length d) in
  let c := wrap_int (Server.message_count st + 1) in
  echo_pass client_fd st (Server.mkReply [] (RecvBytes avail) [] n)
  = (Server.mkState (Server.running st) (filled Server.BUFFER_SIZE d) c,
     [Recv client_fd (Server.BUFFER_SIZE - 1) n d;
      Stdout (Server.fmt_received c n d);
      Send client_fd d n;
      Stdout (Server.fmt_echoed c)],
     None).
Proof.
  intros Ha; pose proof (taken_nonempty avail Ha) as Hn; cbv zeta.
  unfold echo_pass;
    cbn [Server.recv_res Server.recv_sigs Server.send_sigs Server.send_res
         handler_trace flat_map flag_after app].
  change (returned (Server.BUFFER_SIZE - 1) (RecvBytes avail))
    with (Z.of_nat (List.length
                      (taken (Server.BUFFER_SIZE - 1) (RecvBytes avail)))).
  set (n := Z.of_nat _) in *.
  destruct (Z.eqb_spec n 0); [lia|].
  destruct (Z.ltb_spec n 0); [lia|].
  destruct (Z.ltb_spec n 0); [lia|].
  reflexivity.
Qed.

Lemma echo_loop_offers (client_fd : Z) (avails : list (list byte)) :
  Forall (fun avail => avail <> []) avails ->
  forall st,
    Server.running st <> 0 ->
    0 <= Server.message_count st ->
    Server.message_count st + Z.of_nat (List.length avails) <= INT_MAX ->
    exists st1 t1,
      Server.echo_loop client_fd st (offers avails) = (st1, t1, Server.Pending)
      /\ Server.running st1 = Server.running st
      /\ Server.message_count st1
         = Server.message_count st + Z.of_nat (List.length avails)
      /\ sent t1 = map (firstn (Z.to_nat (Server.BUFFER_SIZE - 1))) avails
      /\ recv_count t1 = List.length avails.
Proof.
  induction 1 as [|avail avails Ha _ IH]; intros st Hrun Hc Hlen.
  - exists (Server.set_buffer st (memset_zero Server.BUFFER_SIZE)), [].
    cbn [offers map]; rewrite echo_loop_nil by assumption.
    cbn; repeat split; lia.
  - cbn [offers map List.length] in *.
    rewrite echo_loop_cons, echo_pass_offer by assumption.
    set (st1 := Server.mkState _ _ _).
    assert (Hw : wrap_int (Server.message_count st + 1)
                 = Server.message_count st + 1)
      by (apply wrap_int_id; unfold INT_MIN, INT_MAX in *; lia).
    destruct (IH st1) as (st2 & t2 & Hrun2 & Hr & Hm & Hs & Hn);
      try (subst st1; cbn [Server.running Server.message_count];
           rewrite ?Hw; auto; lia).
    fold (offers avails); rewrite Hrun2.
    exists st2; eexists; split; [reflexivity|].
    subst st1; cbn [Server.running Server.message_count] in *.
    rewrite Hw in Hm.
    repeat split; try lia; try assumption.
    + rewrite sent_app, Hs; reflexivity.
    + rewrite recv_count_app, Hn; reflexivity.
Qed.

Lemma echo_loop_hangup (client_fd : Z) (st : Server.state)
      (rest : list Server.echo_reply) :
  Server.running st <> 0 ->
  Server.echo_loop client_fd st (hangup :: rest)
  = (Server.mkState (Server.running st)
                    (filled Server.BUFFER_SIZE []) (Server.message_count st),
     [Recv client_fd (Server.BUFFER_SIZE - 1) 0 [];
      Stdout ("Client disconnected" ++ nl)],
     Server.PeerClosed).
Proof. intros Hrun; now rewrite echo_loop_cons. Qed.

(** The run of [main] against such a peer. *)
Lemma server_main_offers (argv : list string) (e : Server.env)
      (avails : list (list byte)) (rest : list Server.echo_reply) :
  server_startup_failed argv e = false ->
  Server.accept_sigs e = [] ->
  Server.replies e = offers avails ++ hangup :: rest ->
  Forall (fun avail => avail <> []) avails ->
  Z.of_nat (List.length avails) <= INT_MAX ->
  exists t0,
    Server.main argv e
    = (server_startup_trace e
         ++ t0
         ++ [Recv (Server.accept_rc e) (Server.BUFFER_SIZE - 1) 0 [];
             Stdout ("Client disconnected" ++ nl)]
         ++ Server.statistics (Z.of_nat (List.length avails))
         ++ [Close (Server.accept_rc e); Close (Server.socket_rc e);
             Stdout ("Server shutdown complete" ++ nl)],
       Exit 0)
    /\ sent t0 = map (firstn (Z.to_nat (Server.BUFFER_SIZE - 1))) avails
    /\ recv_count t0 = List.length avails.
Proof.
  intros F Hsig Hrep Hav Hlen.
  rewrite (server_main_started argv e F), Hrep, echo_loop_app.
  unfold server_loop_entry; rewrite Hsig; cbn [flag_after].
  destruct (echo_loop_offers (Server.accept_rc e) avails Hav
              (Server.mkState 1 (Server.stack_buffer e) 0))
    as (st1 & t1 & Hrun & Hr & Hm & Hs & Hn);
    cbn [Server.running Server.message_count]; try lia.
  rewrite Hrun, echo_loop_hangup
    by (rewrite Hr; cbn [Server.running]; discriminate).
  exists t1; split; [|auto].
  unfold Server.cleanup; cbn [Server.message_count] in *.
  rewrite Hm, <- !app_assoc; reflexivity.
Qed.

(** *** A byte stream read in pieces *)

Lemma remainders_nonempty (len fuel : nat) (s : list byte) :
  Forall (fun avail => avail <> []) (remainders len fuel s).
Proof.
  revert s; induction fuel as [|fuel IH]; intros s; cbn [remainders];
    [constructor|].
  destruct s as [|x s]; constructor; [discriminate | apply IH].
Qed.

Lemma concat_remainders (len fuel : nat) (s : list byte) :
  (0 < len)%nat -> (List.length s <= fuel)%nat ->
  List.concat (map (firstn len) (remainders len fuel s)) = s.
Proof.
  intros Hlen; revert s; induction fuel as [|fuel IH]; intros s Hs.
  - destruct s; [reflexivity | simpl in Hs; lia].
  - destruct s as [|x s]; [reflexivity|].
    cbn [remainders map List.concat].
    rewrite IH; [apply firstn_skipn|].
    rewrite length_skipn; cbn [List.length] in *; lia.
Qed.

Lemma length_remainders (len fuel : nat) (s : list byte) :
  (0 < len)%nat -> (List.length s <= fuel)%nat ->
  (List.length s <= List.length (remainders len fuel s) * len
   < List.length s + len)%nat.
Proof.
  intros Hlen; revert s; induction fuel as [|fuel IH]; intros s Hs.
  - destruct s; simpl in *; lia.
  - destruct s as [|x s]; [simpl; lia|].
    cbn [remainders List.length].
    assert (Hk : (List.length (skipn len (x :: s)) <= fuel)%nat)
      by (rewrite length_skipn; cbn [List.length] in *; lia).
    specialize (IH (skipn len (x :: s)) Hk).
    rewrite length_skipn in IH; cbn [List.length] in *.
    set (k := List.length (remainders len fuel (skipn len (x :: s)))) in *.
    destruct (Nat.le_gt_cases (S (List.length s)) len) as [Hshort|Hlong].
    + replace (S (List.length s) - len)%nat with 0%nat in IH by lia.
      assert (Hz : k = 0%nat) by nia.
      rewrite Hz; lia.
    + nia.
Qed.

(** *** Writes that do not fail *)

Lemma loop_exit_of_sends_ok (script : list Server.echo_reply) :
  Forall (fun r => 0 <= Server.send_res r) script ->
  loop_exit_of script <> Server.SendFailed.
Proof.
  induction 1 as [|r script Hr _ IH]; cbn [loop_exit_of]; [discriminate|].
  unfold ends_pass.
  destruct (_ =? 0); [discriminate|].
  destruct (_ <? 0); [discriminate|].
  destruct (Z.ltb_spec (Server.send_res r) 0); [lia|].
  destruct (_ ++ _); [assumption|discriminate].
Qed.

Lemma echo_pass_sends_ok (client_fd : Z) (st st1 : Server.state)
      (r : Server.echo_reply) (t1 : list event)
      (brk : option Server.loop_exit) :
  0 <= Server.send_res r ->
  echo_pass client_fd st r = (st1, t1, brk) ->
  sends_done t1 = List.length (sent t1).
Proof.
  intros Hr H; pass_cases H; try lia; autorewrite with trace;
    cbn [sent flat_map app List.length]; autorewrite with trace;
    try reflexivity.
  destruct (Z.leb_spec 0 (Server.send_res r)); [reflexivity|lia].
Qed.

Lemma echo_loop_sends_ok (client_fd : Z) (st : Server.state)
      (script : list Server.echo_reply) :
  Forall (fun r => 0 <= Server.send_res r) script ->
  sends_done (snd (fst (Server.echo_loop client_fd st script)))
  = List.length (sent (snd (fst (Server.echo_loop client_fd st script)))).
Proof.
  apply (echo_loop_ind client_fd
           (fun _ script res =>
              Forall (fun r => 0 <= Server.send_res r) script ->
              sends_done (snd (fst res)) = List.length (sent (snd (fst res)))));
    cbn [fst snd]; try reflexivity.
  - intros s r script' s1 t1 why _ Hpass Hok.
    inversion Hok; subst; eapply echo_pass_sends_ok; eauto.
  - intros s r script' s1 t1 s2 t2 why _ Hpass _ IH Hok.
    inversion Hok; subst.
    rewrite sends_done_app, sent_app, length_app, IH by assumption.
    f_equal; eapply echo_pass_sends_ok; eauto.
Qed.

(** *** Strings without NUL *)

Lemma c_str_id (d : list byte) : ~ In x00 d -> c_str d = d.
Proof.
  induction d as [|x d IH]; [reflexivity|]; cbn [c_str In]; intros Hd.
  destruct (Byte.eqb x x00) eqn:E.
  - apply Byte.byte_dec_bl in E; subst; tauto.
  - rewrite IH; [reflexivity | tauto].
Qed.

End RunFacts.

(* ================================================================== *)
(** ** Further properties of the server                                *)
(* ================================================================== *)

Module ServerRuns.

Import Server Contract Ledger Scenario LibcFacts ServerFacts RunFacts.

(** Bookkeeping of descriptors and set-up calls over a concatenated trace. *)
Ltac ledger :=
  rewrite ?closes_app, ?opened_app, ?setup_calls_app;
  cbn [closes opened setup_calls flat_map filter is_setup app banner
       rev List.length firstn removelast forallb call_ok].

(** X1.  In every run of the server that exits, each descriptor obtained
    from [socket] or [accept] is closed exactly once, the connection before
    the listening socket, and nothing else is closed; while the server is
    still blocked in [recv] it has closed nothing. *)
Theorem server_descriptors_closed (argv : list string) (e : env) :
  (snd (main argv e) <> Blocked ->
   closes (fst (main argv e)) = rev (opened (fst (main argv e))))
  /\ (snd (main argv e) = Blocked -> closes (fst (main argv e)) = []).
Proof.
  destruct (server_startup_failed argv e) eqn:F.
  - split; [intros _ | intros Hb; destruct (server_main_failed argv e F);
                       congruence].
    unfold server_startup_failed in F; unfold main.
    destruct (Z.of_nat (List.length argv) =? 2); cbn [negb orb] in *;
      [|reflexivity].
    destruct (socket_rc e <? 0) eqn:Hs; cbn [fst orb] in *.
    { ledger; now rewrite Hs. }
    destruct (setsockopt_rc e <? 0); cbn [fst orb] in *.
    { ledger; now rewrite Hs. }
    destruct (bind_rc e <? 0); cbn [fst orb] in *.
    { ledger; now rewrite Hs. }
    destruct (listen_rc e <? 0); cbn [fst orb] in *.
    { ledger; now rewrite Hs. }
    rewrite deliver_eq.
    destruct (accept_rc e <? 0) eqn:Ha; [|discriminate].
    cbn [fst]; destruct (handler_quiet (accept_sigs e)) as (Hc & Hop & _).
    ledger; rewrite Hc, Hop; cbn [app]; now rewrite Hs, Ha.
  - destruct (server_started_parts argv e F) as (_ & Hs & _ & _ & _ & Ha).
    destruct (server_startup_ledger e Hs Ha) as (Hc & Ho & _).
    rewrite (server_main_started argv e F).
    pose proof (echo_loop_loop_only (accept_rc e) (server_loop_entry e)
                  (replies e)) as Hl.
    destruct (echo_loop _ _ _) as [[st t] why]; cbn [fst snd] in Hl.
    destruct (loop_only_quiet t Hl) as (Hcl & Hol & _).
    destruct why; cbn [fst snd]; (split; [intros Hx | intros Hx]);
      try discriminate; try congruence;
      rewrite ?closes_app, ?opened_app, ?Hc, ?Ho, ?Hcl, ?Hol; reflexivity.
Qed.

Lemma server_descriptors_closed_witness :
  closes (fst (main server_argv (server_env peer_closes))) = [4; 3]
  /\ opened (fst (main server_argv (server_env peer_closes))) = [3; 4].
Proof.
  pose proof (proj1 (server_descriptors_closed
                       server_argv (server_env peer_closes))) as H.
  assert (Hx : snd (main server_argv (server_env peer_closes)) <> Blocked)
    by (vm_compute; discriminate).
  specialize (H Hx).
  split; [rewrite H|]; reflexivity.
Defined.

(** Deciding the tests [0 <=? rc] of a goal from the hypotheses. *)
Ltac decide_calls :=
  repeat match goal with
         | |- context [0 <=? ?x] => destruct (Z.leb_spec 0 x); try lia
         end.

Ltac finish_calls :=
  cbn [Nat.sub firstn forallb call_ok]; decide_calls;
  repeat split; auto; try lia.

(** The set-up calls of a run are an initial part of [server_setup], all
    but the last of them successful. *)
Lemma server_setup_prefix (argv : list string) (e : env) :
  Z.of_nat (List.length argv) = 2 ->
  exists k,
    (1 <= k <= 5)%nat
    /\ setup_calls (fst (main argv e)) = firstn k (server_setup e)
    /\ forallb call_ok (firstn (k - 1) (server_setup e)) = true
    /\ ((k < 5)%nat -> forallb call_ok (setup_calls (fst (main argv e))) = false).
Proof.
  intros Hargc.
  destruct (server_startup_failed argv e) eqn:F.
  - unfold server_startup_failed in F; unfold main, server_setup.
    rewrite Hargc in *; cbn [Z.eqb Pos.eqb negb orb] in *.
    destruct (Z.ltb_spec (socket_rc e) 0); cbn [fst orb] in *.
    { exists 1%nat; ledger; finish_calls. }
    destruct (Z.ltb_spec (setsockopt_rc e) 0); cbn [fst orb] in *.
    { exists 2%nat; ledger; finish_calls. }
    destruct (Z.ltb_spec (bind_rc e) 0); cbn [fst orb] in *.
    { exists 3%nat; ledger; finish_calls. }
    destruct (Z.ltb_spec (listen_rc e) 0); cbn [fst orb] in *.
    { exists 4%nat; ledger; finish_calls. }
    rewrite deliver_eq.
    destruct (Z.ltb_spec (accept_rc e) 0); [|discriminate].
    cbn [fst]; destruct (handler_quiet (accept_sigs e)) as (_ & _ & Hu).
    exists 5%nat; ledger; rewrite Hu; cbn [app]; finish_calls.
  - destruct (server_started_parts argv e F) as (_ & Hs & Ho & Hb & Hl & Ha).
    destruct (server_startup_ledger e Hs Ha) as (_ & _ & Hu).
    rewrite (server_main_started argv e F).
    pose proof (echo_loop_loop_only (accept_rc e) (server_loop_entry e)
                  (replies e)) as Hlo.
    destruct (echo_loop _ _ _) as [[st t] why]; cbn [fst snd] in Hlo.
    destruct (loop_only_quiet t Hlo) as (_ & _ & Hut).
    exists 5%nat.
    assert (Hcalls : forall t', setup_calls t' = [] ->
              setup_calls (server_startup_trace e ++ t ++ t')
              = firstn 5 (server_setup e)).
    { intros t' Ht'; now rewrite !setup_calls_app, Hu, Hut, Ht'. }
    assert (Hok : forallb call_ok (firstn (5 - 1) (server_setup e)) = true).
    { unfold server_setup; cbn [Nat.sub firstn forallb call_ok].
      decide_calls; reflexivity. }
    destruct why; cbn [fst];
      (repeat split; [lia | lia | | assumption | lia]);
      try (apply Hcalls; reflexivity).
    specialize (Hcalls [] eq_refl); now rewrite app_nil_r in Hcalls.
Qed.

(** X2.  The server makes its set-up calls in the order [socket],
    [setsockopt], [bind], [listen], [accept], each on the socket it created
    and each only after all earlier ones have succeeded; the first call that
    fails is the last one made.  With a wrong number of arguments it makes
    none.  Unless all five have succeeded it neither reads from nor writes
    to a connection. *)
Theorem server_setup_order (argv : list string) (e : env) :
  let calls := setup_calls (fst (main argv e)) in
  (Z.of_nat (List.length argv) <> 2 -> calls = [])
  /\ (Z.of_nat (List.length argv) = 2 ->
      exists k,
        (1 <= k <= 5)%nat
        /\ calls = firstn k (server_setup e)
        /\ forallb call_ok (firstn (k - 1) (server_setup e)) = true
        /\ ((k < 5)%nat -> forallb call_ok calls = false))
  /\ (server_startup_failed argv e = true ->
      recv_count (fst (main argv e)) = 0%nat
      /\ sent (fst (main argv e)) = []).
Proof.
  cbv zeta; split; [|split].
  - intros Hargc; unfold main.
    destruct (Z.eqb_spec (Z.of_nat (List.length argv)) 2); [contradiction|].
    reflexivity.
  - apply server_setup_prefix.
  - intros F; destruct (server_main_failed argv e F) as (_ & Hr & Hs); auto.
Qed.

Lemma server_setup_order_witness :
  let e := mkEnv 8080 3 0 (-1) 0 [] 4 "127.0.0.1" 40000 [] peer_closes in
  setup_calls (fst (main server_argv e))
  = [Socket 3; Setsockopt 3 0; Bind 3 8080 (-1)]
  /\ recv_count (fst (main server_argv e)) = 0%nat.
Proof.
  intros e.
  destruct (server_setup_order server_argv e) as (_ & Hcalls & Hquiet).
  destruct (Hcalls eq_refl) as (k & Hk & Heq & Hok & Hfail).
  split; [|exact (proj1 (Hquiet eq_refl))].
  reflexivity.
Defined.

(** X3.  A peer sends any number of chunks, each non-empty and no longer
    than a read, takes each echo and then closes.  The server echoes every
    chunk as it is, in order, reports their number in its summary, closes
    both sockets and exits with code 0; whatever would follow the close is
    never read. *)
Theorem orderly_session (argv : list string) (e : env)
        (chunks : list (list byte)) (rest : list echo_reply) :
  server_startup_failed argv e = false ->
  accept_sigs e = [] ->
  replies e = offers chunks ++ hangup :: rest ->
  Forall (fun c => c <> [] /\ Z.of_nat (List.length c) <= BUFFER_SIZE - 1)
         chunks ->
  Z.of_nat (List.length chunks) <= INT_MAX ->
  exists t0,
    main argv e
    = (server_startup_trace e
         ++ t0
         ++ [Recv (accept_rc e) (BUFFER_SIZE - 1) 0 [];
             Stdout ("Client disconnected" ++ nl)]
         ++ statistics (Z.of_nat (List.length chunks))
         ++ [Close (accept_rc e); Close (socket_rc e);
             Stdout ("Server shutdown complete" ++ nl)],
       Exit 0)
    /\ sent t0 = chunks
    /\ recv_count t0 = List.length chunks.
Proof.
  intros F Hsig Hrep Hch Hlen.
  destruct (server_main_offers argv e chunks rest F Hsig Hrep)
    as (t0 & Hmain & Hs & Hn); [|assumption|].
  { eapply Forall_impl; [|exact Hch]; now intros c [Hc _]. }
  exists t0; repeat split; try assumption.
  rewrite Hs; clear - Hch.
  induction Hch as [|c chunks [_ Hc] _ IH]; [reflexivity|].
  cbn [map]; rewrite IH, firstn_all2; [reflexivity|].
  unfold BUFFER_SIZE in *; lia.
Qed.

Lemma orderly_session_witness :
  let e := server_env (offers [hi; kilobyte_less_one hi] ++ [hangup]) in
  exists t0,
    main server_argv e
    = (server_startup_trace e
         ++ t0
         ++ [Recv 4 (BUFFER_SIZE - 1) 0 [];
             Stdout ("Client disconnected" ++ nl)]
         ++ statistics 2
         ++ [Close 4; Close 3; Stdout ("Server shutdown complete" ++ nl)],
       Exit 0)
    /\ sent t0 = [hi; kilobyte_less_one hi]
    /\ recv_count t0 = 2%nat.
Proof.
  intros e.
  apply (orderly_session server_argv e [hi; kilobyte_less_one hi] []).
  - reflexivity.
  - reflexivity.
  - reflexivity.
  - repeat constructor; try discriminate; vm_compute; discriminate.
  - vm_compute; discriminate.
Defined.

(** X4.  A byte stream of any length that stays readable until it is used
    up is echoed whole: the server takes it in reads of at most 1023 bytes,
    writes each piece back at once, and the pieces written make up the
    stream again.  Each piece counts as one message, so a stream of [L]
    bytes is reported as the least [k] with [L <= 1023 * k] messages. *)
Theorem stream_echoed_in_pieces (argv : list string) (e : env)
        (s : list byte) (rest : list echo_reply) :
  server_startup_failed argv e = false ->
  accept_sigs e = [] ->
  replies e
  = offers (remainders (Z.to_nat (BUFFER_SIZE - 1)) (List.length s) s)
      ++ hangup :: rest ->
  Z.of_nat (List.length s) <= INT_MAX ->
  exists t0 k,
    main argv e
    = (server_startup_trace e
         ++ t0
         ++ [Recv (accept_rc e) (BUFFER_SIZE - 1) 0 [];
             Stdout ("Client disconnected" ++ nl)]
         ++ statistics (Z.of_nat k)
         ++ [Close (accept_rc e); Close (socket_rc e);
             Stdout ("Server shutdown complete" ++ nl)],
       Exit 0)
    /\ List.concat (sent t0) = s
    /\ recv_count t0 = k
    /\ (List.length s <= k * 1023 < List.length s + 1023)%nat.
Proof.
  intros F Hsig Hrep Hlen.
  set (len := Z.to_nat (BUFFER_SIZE - 1)) in *.
  assert (Hpos : (0 < len)%nat) by (subst len; vm_compute; lia).
  pose proof (length_remainders len (List.length s) s Hpos (le_n _)) as Hk.
  pose proof (concat_remainders len (List.length s) s Hpos (le_n _)) as Hcat.
  destruct (server_main_offers argv e _ rest F Hsig Hrep
              (remainders_nonempty len (List.length s) s))
    as (t0 & Hmain & Hs & Hn).
  { set (k := List.length (remainders len (List.length s) s)) in *.
    change len with 1023%nat in Hk; unfold INT_MAX in *; lia. }
  exists t0, (List.length (remainders len (List.length s) s)).
  split; [assumption|]; split; [now rewrite Hs|]; split; [assumption|].
  set (k := List.length (remainders len (List.length s) s)) in *.
  change len with 1023%nat in Hk; exact Hk.
Qed.

Lemma stream_echoed_in_pieces_witness :
  let s := kilobyte ++ kilobyte ++ hi in
  let e := server_env
             (offers (remainders (Z.to_nat (BUFFER_SIZE - 1))
                                 (List.length s) s) ++ [hangup]) in
  exists t0 k,
    main server_argv e
    = (server_startup_trace e
         ++ t0
         ++ [Recv 4 (BUFFER_SIZE - 1) 0 [];
             Stdout ("Client disconnected" ++ nl)]
         ++ statistics (Z.of_nat k)
         ++ [Close 4; Close 3; Stdout ("Server shutdown complete" ++ nl)],
       Exit 0)
    /\ List.concat (sent t0) = s
    /\ recv_count t0 = k
    /\ (List.length s <= k * 1023 < List.length s + 1023)%nat.
Proof.
  intros s e.
  apply (stream_echoed_in_pieces server_argv e s []).
  - reflexivity.
  - reflexivity.
  - reflexivity.
  - vm_compute; discriminate.
Defined.

(** X5.  A run of the server does not depend on what its buffer holds
    before the loop: the array is declared without a value, and the events
    and the outcome of the run are the same for any contents. *)
Theorem server_ignores_stack_contents
        (argv : list string) (port s so b l : Z) (sigs : list signal)
        (a : Z) (addr : string) (pport : Z) (stack stack' : list byte)
        (script : list echo_reply) :
  main argv (mkEnv port s so b l sigs a addr pport stack' script)
  = main argv (mkEnv port s so b l sigs a addr pport stack script).
Proof.
  set (e' := mkEnv port s so b l sigs a addr pport stack' script).
  set (e := mkEnv port s so b l sigs a addr pport stack script).
  destruct (server_startup_failed argv e) eqn:F.
  - unfold main; cbn [atoi_port socket_rc setsockopt_rc bind_rc listen_rc
                      accept_sigs accept_rc peer_addr peer_port stack_buffer
                      replies e e'].
    unfold server_startup_failed in F;
      cbn [socket_rc setsockopt_rc bind_rc listen_rc accept_rc e] in F.
    destruct (negb (Z.of_nat (List.length argv) =? 2)); [reflexivity|].
    destruct (s <? 0); [reflexivity|].
    destruct (so <? 0); [reflexivity|].
    destruct (b <? 0); [reflexivity|].
    destruct (l <? 0); [reflexivity|].
    rewrite !deliver_eq.
    destruct (a <? 0); [reflexivity|discriminate].
  - assert (F' : server_startup_failed argv e' = false) by exact F.
    rewrite (server_main_started argv e F), (server_main_started argv e' F').
    change (server_startup_trace e') with (server_startup_trace e).
    change (server_loop_entry e')
      with (set_buffer (server_loop_entry e) stack').
    cbn [accept_rc socket_rc replies e e'].
    pose proof (echo_loop_buffer a (server_loop_entry e) stack' script)
      as (Ht & Hw & Hc & _).
    cbv zeta in *.
    destruct (echo_loop a (server_loop_entry e) script) as [[st t] why].
    destruct (echo_loop a (set_buffer (server_loop_entry e) stack') script)
      as [[st' t'] why'].
    cbn [fst snd] in *; subst t' why'.
    unfold cleanup; rewrite Hc; reflexivity.
Qed.

(** X6.  A chunk that holds a NUL byte is written back whole, while the
    line that reports it shows only the bytes before the first NUL, next to
    the full byte count. *)
Theorem nul_cuts_the_print_only
        (client_fd : Z) (st : state) (r : echo_reply) (d1 d2 : list byte) :
  recv_res r = RecvBytes (d1 ++ x00 :: d2) ->
  Z.of_nat (List.length (d1 ++ x00 :: d2)) <= BUFFER_SIZE - 1 ->
  ~ In x00 d1 ->
  let t := snd (fst (echo_body client_fd st r)) in
  let n := Z.of_nat (List.length (d1 ++ x00 :: d2)) in
  In (Stdout ("[MSG " ++ fmt_d (wrap_int (message_count st + 1))
                      ++ "] Received " ++ fmt_d n ++ " bytes: "
                      ++ string_of_list_byte d1 ++ nl)) t
  /\ sent t = [d1 ++ x00 :: d2].
Proof.
  intros Hr Hlen Hd1; cbv zeta.
  assert (Htaken : taken (BUFFER_SIZE - 1) (recv_res r) = d1 ++ x00 :: d2).
  { rewrite Hr; unfold taken; apply firstn_all2.
    unfold BUFFER_SIZE in *; lia. }
  assert (Hret : returned (BUFFER_SIZE - 1) (recv_res r)
                 = Z.of_nat (List.length (d1 ++ x00 :: d2))).
  { rewrite <- Htaken, Hr; reflexivity. }
  assert (Hpos : 0 < Z.of_nat (List.length (d1 ++ x00 :: d2)))
    by (rewrite length_app; cbn [List.length]; lia).
  rewrite echo_body_eq; unfold echo_pass; rewrite Hret, Htaken.
  set (n := Z.of_nat _) in *.
  destruct (Z.eqb_spec n 0); [lia|].
  destruct (Z.ltb_spec n 0); [lia|].
  assert (Hs : fmt_received (wrap_int (message_count st + 1)) n
                            (d1 ++ x00 :: d2)
               = ("[MSG " ++ fmt_d (wrap_int (message_count st + 1))
                          ++ "] Received " ++ fmt_d n ++ " bytes: "
                          ++ string_of_list_byte d1 ++ nl)%string).
  { unfold fmt_received, fmt_s; now rewrite c_str_nul, c_str_id. }
  rewrite Hs.
  destruct (send_res r <? 0); cbn [fst snd];
    autorewrite with trace; cbn [sent flat_map app];
    autorewrite with trace;
    (split; [|reflexivity]);
    rewrite !in_app_iff; left; right; now left.
Qed.

Lemma nul_cuts_the_print_only_witness :
  let r := mkReply [] (RecvBytes (hi ++ x00 :: hi)) [] 5 in
  let t := snd (fst (echo_body 4 (mkState 1 [] 0) r)) in
  In (Stdout ("[MSG 1] Received 5 bytes: hi" ++ nl)) t
  /\ sent t = [hi ++ x00 :: hi].
Proof.
  intros r.
  apply (nul_cuts_the_print_only 4 (mkState 1 [] 0) r hi hi).
  - reflexivity.
  - vm_compute; discriminate.
  - intros [H | [H | []]]; discriminate.
Defined.

(** X7.  The server takes any non-negative result of [send] as a written
    echo, also when fewer bytes were written than it asked for: the pass
    reports the echo and the loop goes on, each chunk is handed to [send]
    once and never again, and a run whose writes all return non-negative
    values is never left because of a write. *)
Theorem short_write_is_not_retried :
  (forall client_fd st r,
      0 < returned (BUFFER_SIZE - 1) (recv_res r) ->
      0 <= send_res r ->
      snd (echo_body client_fd st r) = None
      /\ sent (snd (fst (echo_body client_fd st r)))
         = [taken (BUFFER_SIZE - 1) (recv_res r)]
      /\ In (Stdout (fmt_echoed (wrap_int (message_count st + 1))))
            (snd (fst (echo_body client_fd st r))))
  /\ (forall client_fd st script,
         Forall (fun r => 0 <= send_res r) script ->
         let run := echo_loop client_fd st script in
         snd run <> SendFailed
         /\ sends_done (snd (fst run)) = List.length (sent (snd (fst run)))
         /\ sent (snd (fst run)) = received (snd (fst run))).
Proof.
  split.
  - intros client_fd st r Hn Hs; rewrite echo_body_eq; unfold echo_pass.
    destruct (Z.eqb_spec (returned (BUFFER_SIZE - 1) (recv_res r)) 0); [lia|].
    destruct (Z.ltb_spec (returned (BUFFER_SIZE - 1) (recv_res r)) 0); [lia|].
    destruct (Z.ltb_spec (send_res r) 0); [lia|].
    cbn [fst snd]; autorewrite with trace; cbn [sent flat_map app].
    autorewrite with trace.
    repeat split; rewrite !in_app_iff; right; now left.
  - intros client_fd st script Hok; cbv zeta; split; [|split].
    + rewrite echo_loop_exit.
      destruct (running st =? 0); [discriminate|].
      now apply loop_exit_of_sends_ok.
    + now apply echo_loop_sends_ok.
    + apply echo_loop_sent_received.
Qed.

Lemma short_write_is_not_retried_witness :
  let r := mkReply [] (RecvBytes hi) [] 0 in
  snd (echo_body 4 (mkState 1 [] 0) r) = None
  /\ sent (snd (fst (echo_body 4 (mkState 1 [] 0) r))) = [hi]
  /\ snd (echo_loop 4 (mkState 1 [] 0) [r; r]) <> SendFailed.
Proof.
  intros r.
  destruct short_write_is_not_retried as [Hpass Hrun].
  destruct (Hpass 4 (mkState 1 [] 0) r) as (Hb & Hs & _);
    [vm_compute; reflexivity | vm_compute; discriminate |].
  split; [exact Hb|]; split; [exact Hs|].
  apply (Hrun 4 (mkState 1 [] 0) [r; r]).
  repeat constructor; vm_compute; discriminate.
Defined.

(** X8.  When a signal arrives before a client has connected, the server
    still waits for the connection; once [accept] returns it leaves at the
    first loop test, without reading or writing, reports no messages,
    closes both sockets and exits with code 0. *)
Theorem signal_before_connection (argv : list string) (e : env) :
  server_startup_failed argv e = false ->
  accept_sigs e <> [] ->
  main argv e
  = (server_startup_trace e
       ++ statistics 0
       ++ [Close (accept_rc e); Close (socket_rc e);
           Stdout ("Server shutdown complete" ++ nl)],
     Exit 0)
  /\ recv_count (fst (main argv e)) = 0%nat
  /\ sent (fst (main argv e)) = []
  /\ In (Accept (socket_rc e) (accept_rc e)) (fst (main argv e)).
Proof.
  intros F Hsig.
  assert (Hmain : main argv e
                  = (server_startup_trace e
                       ++ statistics 0
                       ++ [Close (accept_rc e); Close (socket_rc e);
                           Stdout ("Server shutdown complete" ++ nl)],
                     Exit 0)).
  { rewrite (server_main_started argv e F).
    rewrite echo_loop_stopped; [reflexivity|].
    unfold server_loop_entry; cbn [running].
    destruct (accept_sigs e); [contradiction|reflexivity]. }
  rewrite Hmain; cbn [fst]; split; [reflexivity|].
  repeat split.
  - rewrite recv_count_app, recv_count_startup; reflexivity.
  - unfold server_startup_trace, banner; autorewrite with trace.
    reflexivity.
  - unfold server_startup_trace; rewrite !in_app_iff.
    left; right; right; right; now left.
Qed.

Lemma signal_before_connection_witness :
  let e := mkEnv 8080 3 0 0 0 [SIGTERM] 4 "127.0.0.1" 40000 [] peer_closes in
  main server_argv e
  = (server_startup_trace e
       ++ statistics 0
       ++ [Close 4; Close 3; Stdout ("Server shutdown complete" ++ nl)],
     Exit 0)
  /\ recv_count (fst (main server_argv e)) = 0%nat
  /\ sent (fst (main server_argv e)) = []
  /\ In (Accept 3 4) (fst (main server_argv e)).
Proof.
  intros e.
  apply (signal_before_connection server_argv e); [reflexivity|discriminate].
Defined.

End ServerRuns.

(* ================================================================== *)
(** ** Further properties of the client                                *)
(* ================================================================== *)

Module ClientRuns.

Import Client Contract Ledger Scenario LibcFacts ClientFacts RunFacts.
Import ServerFacts(recv_count_app, sends_done_app).

Ltac ledger :=
  rewrite ?closes_app, ?opened_app, ?setup_calls_app;
  cbn [closes opened setup_calls flat_map filter is_setup app banner
       rev List.length firstn removelast forallb call_ok].

Ltac decide_calls :=
  repeat match goal with
         | |- context [0 <=? ?x] => destruct (Z.leb_spec 0 x); try lia
         end.

Ltac finish_calls :=
  cbn [Nat.sub firstn forallb call_ok]; decide_calls;
  repeat split; auto; try lia.

Lemma client_started_parts {P : Type} (argv : list string) (e : env P) :
  client_startup_failed argv e = false ->
  Z.of_nat (List.length argv) = 3
  /\ host_found e = true
  /\ 0 <= socket_rc e /\ 0 <= connect_rc e.
Proof.
  unfold client_startup_failed; intros H.
  repeat (apply orb_false_iff in H; destruct H as [H ?]).
  apply negb_false_iff, Z.eqb_eq in H.
  repeat match goal with
         | E : (_ <? 0) = false |- _ => apply Z.ltb_ge in E
         | E : negb _ = false |- _ => apply negb_false_iff in E
         end.
  repeat split; assumption.
Qed.

Lemma client_startup_ledger {P : Type} (argv : list string) (e : env P) :
  host_found e = true -> 0 <= socket_rc e ->
  closes (client_startup_trace argv e) = []
  /\ opened (client_startup_trace argv e) = [socket_rc e]
  /\ setup_calls (client_startup_trace argv e) = client_setup argv e.
Proof.
  intros Hh Hs; unfold client_startup_trace, client_setup; ledger.
  rewrite Hh.
  destruct (Z.ltb_spec (socket_rc e) 0); [lia|auto].
Qed.

(** The set-up calls of a run are an initial part of [client_setup], all
    but the last of them successful. *)
Lemma client_setup_prefix {P : Type} (argv : list string) (e : env P) :
  Z.of_nat (List.length argv) = 3 ->
  exists k,
    (1 <= k <= 3)%nat
    /\ setup_calls (fst (main argv e)) = firstn k (client_setup argv e)
    /\ forallb call_ok (firstn (k - 1) (client_setup argv e)) = true
    /\ ((k < 3)%nat -> forallb call_ok (setup_calls (fst (main argv e))) = false).
Proof.
  intros Hargc.
  destruct (client_startup_failed argv e) eqn:F.
  - unfold client_startup_failed in F; unfold main, client_setup.
    rewrite Hargc in *; cbn [Z.eqb Pos.eqb negb orb] in *.
    destruct (host_found e); cbn [negb fst orb] in *.
    2: { exists 1%nat; ledger; finish_calls. }
    destruct (Z.ltb_spec (socket_rc e) 0); cbn [fst orb] in *.
    { exists 2%nat; ledger; finish_calls. }
    destruct (Z.ltb_spec (connect_rc e) 0); [|discriminate].
    cbn [fst]; exists 3%nat; ledger; finish_calls.
  - destruct (client_started_parts argv e F) as (_ & Hh & Hs & Hc).
    destruct (client_startup_ledger argv e Hh Hs) as (_ & _ & Hu).
    rewrite (client_main_started argv e F).
    pose proof (message_loop_loop_only (server e) (socket_rc e) loop_fuel 1
                  (mkState (stack_message e) (stack_buffer e)) (server0 e))
      as Hlo.
    destruct (message_loop _ _ _ _ _ _) as [[i p] t]; cbn [fst snd] in *.
    destruct (loop_only_quiet t Hlo) as (_ & _ & Hut).
    exists 3%nat; rewrite !setup_calls_app, Hu, Hut.
    unfold client_setup; rewrite Hh; cbn [statistics]; ledger; finish_calls.
Qed.

(** X9.  In every run of the client the socket, once [socket] has returned
    it, is closed exactly once, and nothing else is closed.  In a run that
    reaches the loop the close is the last call of the run: it follows the
    three lines of the summary, only the line that reports it comes
    behind, and nothing is closed before or inside the loop.  When
    [connect] fails the close comes right after the report of the failure
    and ends the run.  When no socket was obtained nothing is closed. *)
Theorem client_descriptor_closed {P : Type} (argv : list string) (e : env P) :
  closes (fst (main argv e)) = opened (fst (main argv e))
  /\ (List.length (opened (fst (main argv e))) <= 1)%nat
  /\ (client_startup_failed argv e = false ->
      let '(i, _, t_loop) :=
        message_loop (server e) (socket_rc e) loop_fuel 1
                     (mkState (stack_message e) (stack_buffer e)) (server0 e) in
      main argv e
      = (client_startup_trace argv e ++ t_loop
           ++ [Stdout (nl ++ "=== Client Statistics ===" ++ nl);
               Stdout ("Messages sent: " ++ fmt_d (wrap_int (i - 1)) ++ nl);
               Stdout ("========================" ++ nl);
               Close (socket_rc e);
               Stdout ("Connection closed" ++ nl)],
         0)
      /\ closes (client_startup_trace argv e ++ t_loop) = [])
  /\ (Z.of_nat (List.length argv) = 3 ->
      host_found e = true ->
      0 <= socket_rc e ->
      connect_rc e < 0 ->
      main argv e
      = (banner (nth 1%nat argv EmptyString) (atoi_port e)
           ++ [Gethostbyname (nth 1%nat argv EmptyString) true;
               Socket (socket_rc e);
               Stdout ("Connecting to server..." ++ nl);
               Connect (socket_rc e) (htons (atoi_port e)) (connect_rc e);
               Perror "ERROR: Connection failed";
               Close (socket_rc e)],
         1))
  /\ (Z.of_nat (List.length argv) <> 3
      \/ host_found e = false
      \/ socket_rc e < 0 ->
      closes (fst (main argv e)) = [] /\ snd (main argv e) = 1).
Proof.
  split; [|split; [|split; [|split]]].
  - destruct (client_startup_failed argv e) eqn:F.
    + unfold client_startup_failed in F; unfold main.
      destruct (Z.of_nat (List.length argv) =? 3); cbn [negb orb] in *;
        [|reflexivity].
      destruct (host_found e); cbn [negb fst orb] in *; [|reflexivity].
      destruct (socket_rc e <? 0) eqn:Hs; cbn [fst orb] in *.
      { ledger; now rewrite Hs. }
      destruct (connect_rc e <? 0); [|discriminate].
      cbn [fst]; ledger; now rewrite Hs.
    + destruct (client_started_parts argv e F) as (_ & Hh & Hs & Hc).
      destruct (client_startup_ledger argv e Hh Hs) as (Hcl & Ho & _).
      rewrite (client_main_started argv e F).
      pose proof (message_loop_loop_only (server e) (socket_rc e) loop_fuel 1
                    (mkState (stack_message e) (stack_buffer e)) (server0 e))
        as Hlo.
      destruct (message_loop _ _ _ _ _ _) as [[i p] t]; cbn [fst snd] in *.
      destruct (loop_only_quiet t Hlo) as (Hct & Hot & _).
      now rewrite !closes_app, !opened_app, Hcl, Ho, Hct, Hot.
  - destruct (client_startup_failed argv e) eqn:F.
    + unfold client_startup_failed in F; unfold main.
      destruct (Z.of_nat (List.length argv) =? 3); cbn [negb orb] in *;
        [|cbn; lia].
      destruct (host_found e); cbn [negb fst orb] in *; [|cbn; lia].
      destruct (socket_rc e <? 0) eqn:Hs; cbn [fst orb] in *.
      { ledger; rewrite Hs; cbn; lia. }
      destruct (connect_rc e <? 0); [|discriminate].
      cbn [fst]; ledger; rewrite Hs; cbn; lia.
    + destruct (client_started_parts argv e F) as (_ & Hh & Hs & Hc).
      destruct (client_startup_ledger argv e Hh Hs) as (Hcl & Ho & _).
      rewrite (client_main_started argv e F).
      pose proof (message_loop_loop_only (server e) (socket_rc e) loop_fuel 1
                    (mkState (stack_message e) (stack_buffer e)) (server0 e))
        as Hlo.
      destruct (message_loop _ _ _ _ _ _) as [[i p] t]; cbn [fst snd] in *.
      destruct (loop_only_quiet t Hlo) as (Hct & Hot & _).
      rewrite !opened_app, Ho, Hot; cbn; lia.
  - intros F.
    destruct (client_started_parts argv e F) as (_ & Hh & Hs & Hc).
    destruct (client_startup_ledger argv e Hh Hs) as (Hcl & _ & _).
    rewrite (client_main_started argv e F).
    pose proof (message_loop_loop_only (server e) (socket_rc e) loop_fuel 1
                  (mkState (stack_message e) (stack_buffer e)) (server0 e))
      as Hlo.
    destruct (message_loop _ _ _ _ _ _) as [[i p] t]; cbn [fst snd] in *.
    destruct (loop_only_quiet t Hlo) as (Hct & _ & _).
    split; [reflexivity|].
    now rewrite closes_app, Hcl, Hct.
  - intros Hargc Hh Hs Hc; unfold main.
    rewrite Hargc, Hh; cbn [Z.eqb Pos.eqb negb].
    destruct (Z.ltb_spec (socket_rc e) 0); [lia|].
    destruct (Z.ltb_spec (connect_rc e) 0); [|lia].
    now rewrite <- !app_assoc.
  - intros H; unfold main.
    destruct (Z.eqb_spec (Z.of_nat (List.length argv)) 3) as [Ea|Na];
      cbn [negb]; [|split; reflexivity].
    destruct (host_found e) eqn:Hh; cbn [negb].
    2: { split; [ledger|]; reflexivity. }
    destruct (Z.ltb_spec (socket_rc e) 0) as [Hs|Hs].
    { split; [ledger|]; reflexivity. }
    destruct H as [H | [H | H]]; [contradiction|discriminate|lia].
Qed.

Lemma client_descriptor_closed_witness :
  (closes (fst (main client_argv (client_env closed_peer tt))) = [3]
   /\ exists t,
       fst (main client_argv (client_env closed_peer tt))
       = t ++ [Stdout (nl ++ "=== Client Statistics ===" ++ nl);
               Stdout ("Messages sent: 5" ++ nl);
               Stdout ("========================" ++ nl);
               Close 3;
               Stdout ("Connection closed" ++ nl)]
       /\ closes t = [])
  /\ main client_argv refused_env
     = (banner "localhost" 8080
          ++ [Gethostbyname "localhost" true;
              Socket 3;
              Stdout ("Connecting to server..." ++ nl);
              Connect 3 8080 (-1);
              Perror "ERROR: Connection failed";
              Close 3],
        1)
  /\ closes (fst (main ["client"%string] (client_env closed_peer tt))) = [].
Proof.
  split; [|split].
  - destruct (client_descriptor_closed client_argv (client_env closed_peer tt))
      as (_ & _ & H & _).
    specialize (H eq_refl).
    destruct (message_loop _ _ _ _ _ _) as [[i p] t] eqn:Hloop.
    destruct H as [Hmain Hquiet].
    vm_compute in Hloop.
    injection Hloop as Hi _ Ht.
    rewrite Hmain; cbn [fst]; split.
    + rewrite app_assoc, closes_app, Hquiet; reflexivity.
    + eexists; split; [|exact Hquiet].
      rewrite app_assoc; subst i; reflexivity.
  - apply (client_descriptor_closed client_argv refused_env).
    + reflexivity.
    + reflexivity.
    + vm_compute; discriminate.
    + reflexivity.
  - apply (client_descriptor_closed ["client"%string]
             (client_env closed_peer tt)).
    left; vm_compute; discriminate.
Defined.

(** X10.  The client resolves the host, creates the socket and connects,
    in this order, each step only after the one before has succeeded; the
    first step that fails is the last one made, and with a wrong number of
    arguments none is made. *)
Theorem client_setup_order {P : Type} (argv : list string) (e : env P) :
  let calls := setup_calls (fst (main argv e)) in
  (Z.of_nat (List.length argv) <> 3 -> calls = [])
  /\ (Z.of_nat (List.length argv) = 3 ->
      exists k,
        (1 <= k <= 3)%nat
        /\ calls = firstn k (client_setup argv e)
        /\ forallb call_ok (firstn (k - 1) (client_setup argv e)) = true
        /\ ((k < 3)%nat -> forallb call_ok calls = false)).
Proof.
  cbv zeta; split.
  - intros Hargc; unfold main.
    destruct (Z.eqb_spec (Z.of_nat (List.length argv)) 3); [contradiction|].
    reflexivity.
  - apply client_setup_prefix.
Qed.

Lemma client_setup_order_witness :
  let e := mkEnv 8080 false 3 0 [] [] closed_peer tt in
  exists k,
    (1 <= k <= 3)%nat
    /\ setup_calls (fst (main client_argv e)) = firstn k (client_setup client_argv e)
    /\ forallb call_ok (firstn (k - 1) (client_setup client_argv e)) = true
    /\ ((k < 3)%nat -> forallb call_ok (setup_calls (fst (main client_argv e))) = false).
Proof.
  intros e.
  exact (proj2 (client_setup_order client_argv e) eq_refl).
Defined.

(** *** Counting the calls of the message loop *)

Lemma sleeps_app (t1 t2 : list event) :
  sleeps (t1 ++ t2) = (sleeps t1 + sleeps t2)%nat.
Proof. unfold sleeps; now rewrite filter_app, length_app. Qed.

Lemma recv_failed_app (t1 t2 : list event) :
  recv_failed (t1 ++ t2) = recv_failed t1 || recv_failed t2.
Proof. apply existsb_app. Qed.

Lemma tallies_app (t1 t2 : list event) :
  tallies_agree t1 -> recv_failed t1 = false -> tallies_agree t2 ->
  tallies_agree (t1 ++ t2).
Proof.
  unfold tallies_agree; intros (H1 & H2 & H3) Hf (K1 & K2 & K3).
  rewrite recv_count_app, sends_done_app, recvs_done_app, sleeps_app,
    recv_failed_app, Hf in *.
  cbn [orb]; lia.
Qed.

Lemma silent_tallies (t : list event) :
  forallb is_silent t = true ->
  recv_count t = 0%nat /\ sends_done t = 0%nat /\ recvs_done t = 0%nat
  /\ sleeps t = 0%nat /\ recv_failed t = false /\ sent t = [].
Proof.
  induction t as [|e t IH]; [repeat split|]; cbn [forallb].
  intros H; apply andb_true_iff in H as [He Ht].
  destruct (IH Ht) as (H1 & H2 & H3 & H4 & H5 & H6).
  unfold recv_count, sends_done, recvs_done, sleeps, recv_failed, sent in *.
  destruct e; try discriminate; cbn [filter existsb flat_map orb app];
    repeat split; assumption.
Qed.

Lemma tallies_framed (t1 t t2 : list event) :
  forallb is_silent t1 = true -> forallb is_silent t2 = true ->
  tallies_agree t -> tallies_agree (t1 ++ t ++ t2).
Proof.
  intros H1 H2 (K1 & K2 & K3).
  destruct (silent_tallies t1 H1) as (A1 & A2 & A3 & A4 & A5 & _).
  destruct (silent_tallies t2 H2) as (B1 & B2 & B3 & B4 & B5 & _).
  unfold tallies_agree.
  rewrite !recv_count_app, !sends_done_app, !recvs_done_app, !sleeps_app,
    !recv_failed_app, A1, A2, A3, A4, A5, B1, B2, B3, B4, B5, orb_false_r.
  cbn [orb]; lia.
Qed.

Lemma exchange_tallies {P : Type} (srv : peer P) (sock_fd i : Z)
      (st : state) (p : P) :
  let t := snd (fst (exchange srv sock_fd i st p)) in
  tallies_agree t
  /\ (snd (exchange srv sock_fd i st p) = true -> recv_failed t = false).
Proof.
  unfold exchange, tallies_agree.
  destruct (on_send srv p _) as [bytes_sent p1].
  destruct (Z.ltb_spec bytes_sent 0); cbn [fst snd].
  - unfold recv_count, sends_done, recvs_done, sleeps, recv_failed.
    cbn [filter existsb app List.length orb].
    destruct (Z.leb_spec 0 bytes_sent); [lia|].
    cbn [List.length]; repeat split; discriminate.
  - destruct (on_recv srv p1) as [reply p2].
    destruct (sys_recv _ _ _) as [n buf].
    destruct (Z.ltb_spec n 0) as [Hn|Hn]; cbn [fst snd];
      unfold recv_count, sends_done, recvs_done, sleeps, recv_failed;
      cbn [filter existsb app List.length orb];
      destruct (Z.leb_spec 0 bytes_sent); try lia;
      destruct (Z.leb_spec 0 n); try lia;
      destruct (Z.ltb_spec n 0); try lia;
      cbn [List.length orb]; repeat split; auto; discriminate.
Qed.

Lemma message_loop_tallies {P : Type} (srv : peer P) (sock_fd : Z)
      (fuel : nat) (i : Z) (st : state) (p : P) :
  tallies_agree (snd (message_loop srv sock_fd fuel i st p)).
Proof.
  revert i st p; induction fuel as [|fuel IH]; intros i st p;
    cbn [message_loop]; [repeat split|].
  destruct (i <=? NUM_MESSAGES); [|repeat split].
  pose proof (exchange_tallies srv sock_fd i st p) as [Hx Hok].
  destruct (exchange srv sock_fd i st p) as [[[st1 p1] t1] ok].
  cbn [fst snd] in *.
  destruct ok; [|assumption].
  specialize (IH (wrap_int (i + 1)) st1 p1).
  destruct (message_loop _ _ _ _ _ _) as [[i' p'] t'].
  apply tallies_app; auto.
Qed.

Lemma client_main_silent_or_loop {P : Type} (argv : list string) (e : env P) :
  exists t1 t t2,
    fst (main argv e) = t1 ++ t ++ t2
    /\ forallb is_silent t1 = true /\ forallb is_silent t2 = true
    /\ (t = [] \/
        t = snd (message_loop (server e) (socket_rc e) loop_fuel 1
                              (mkState (stack_message e) (stack_buffer e))
                              (server0 e))).
Proof.
  destruct (client_startup_failed argv e) eqn:F.
  - exists (fst (main argv e)), [], []; rewrite app_nil_r.
    split; [reflexivity|]; split; [|split; [reflexivity|now left]].
    unfold client_startup_failed in F; unfold main.
    destruct (Z.of_nat (List.length argv) =? 3); [|reflexivity].
    destruct (host_found e); [|reflexivity].
    destruct (socket_rc e <? 0); [reflexivity|].
    destruct (connect_rc e <? 0); [reflexivity|discriminate].
  - rewrite (client_main_started argv e F).
    destruct (message_loop _ _ _ _ _ _) as [[i p] t]; cbn [fst snd].
    exists (client_startup_trace argv e), t, (statistics i (socket_rc e)).
    repeat split; now right.
Qed.

(** *** What the client writes *)

Lemma message_loop_sent {P : Type} (srv : peer P) (sock_fd : Z)
      (fuel : nat) (i : Z) (st : state) (p : P) :
  1 <= i <= NUM_MESSAGES + 1 ->
  NUM_MESSAGES + 1 - i < Z.of_nat fuel ->
  let t := snd (message_loop srv sock_fd fuel i st p) in
  sent t = map message_text
               (map Z.of_nat (seq (Z.to_nat i) (List.length (sent t))))
  /\ Z.of_nat (List.length (sent t)) <= NUM_MESSAGES + 1 - i.
Proof.
  revert fuel i st p.
  apply (message_loop_ind srv sock_fd
           (fun i _ _ res =>
              sent (snd res)
              = map message_text
                    (map Z.of_nat
                         (seq (Z.to_nat i) (List.length (sent (snd res)))))
              /\ Z.of_nat (List.length (sent (snd res)))
                 <= NUM_MESSAGES + 1 - i));
    cbn [fst snd].
  - intros i st p ->; cbn; split; [reflexivity|lia].
  - intros i st p st1 p1 t1 Hi Hpass.
    destruct (exchange_pass_stats _ _ _ _ _ _ _ _ _ Hpass) as [-> _].
    cbn [List.length seq map]; rewrite Z2Nat.id by lia.
    split; [reflexivity|lia].
  - intros i st p st1 p1 t1 i' p' t' Hi Hpass [IH Hlen].
    destruct (exchange_pass_stats _ _ _ _ _ _ _ _ _ Hpass) as [Hs _].
    rewrite sent_app, Hs; cbn [app List.length seq map].
    rewrite Z2Nat.id by lia.
    replace (S (Z.to_nat i)) with (Z.to_nat (i + 1)) by lia.
    rewrite <- IH; split; [reflexivity|lia].
Qed.

Lemma five_messages_prefix (k : nat) :
  (k <= 5)%nat ->
  map message_text (map Z.of_nat (seq 1 k)) = firstn k five_messages.
Proof.
  intros Hk.
  do 6 (destruct k as [|k]; [reflexivity|]); lia.
Qed.

Lemma sends_done_le_sent (t : list event) :
  (sends_done t <= List.length (sent t))%nat.
Proof.
  induction t as [|e t IH]; [cbn; lia|].
  unfold sends_done, sent in *.
  destruct e; cbn [filter flat_map app List.length]; try lia.
  destruct (0 <=? rc); cbn [List.length]; lia.
Qed.

Lemma client_main_sent {P : Type} (argv : list string) (e : env P) :
  sent (fst (main argv e))
  = firstn (List.length (sent (fst (main argv e)))) five_messages
  /\ (List.length (sent (fst (main argv e))) <= 5)%nat.
Proof.
  destruct (client_main_silent_or_loop argv e)
    as (t1 & t & t2 & -> & H1 & H2 & Ht).
  destruct (silent_tallies t1 H1) as (_ & _ & _ & _ & _ & S1).
  destruct (silent_tallies t2 H2) as (_ & _ & _ & _ & _ & S2).
  rewrite !sent_app, S1, S2, app_nil_r; cbn [app].
  destruct Ht as [-> | ->]; [split; [reflexivity|cbn; lia]|].
  destruct (message_loop_sent (server e) (socket_rc e) loop_fuel 1
              (mkState (stack_message e) (stack_buffer e)) (server0 e))
    as [Hs Hl]; [unfold NUM_MESSAGES; lia | vm_compute; reflexivity |].
  cbv zeta in *; unfold NUM_MESSAGES in Hl.
  split; [|lia].
  rewrite Hs at 1; apply five_messages_prefix; lia.
Qed.

Lemma client_main_tallies {P : Type} (argv : list string) (e : env P) :
  tallies_agree (fst (main argv e)).
Proof.
  destruct (client_main_silent_or_loop argv e)
    as (t1 & t & t2 & -> & H1 & H2 & Ht).
  apply tallies_framed; try assumption.
  destruct Ht as [-> | ->]; [repeat split | apply message_loop_tallies].
Qed.

(** X11.  In every run of the client a read is attempted after each write
    that did not fail and at no other time.  The number of exchanges the
    summary counts is the number of writes that did not fail, less one when
    the last read failed: after a failed read the summary understates the
    messages written by one. *)
Theorem client_reads_follow_writes {P : Type}
        (argv : list string) (e : env P) :
  let t := fst (main argv e) in
  recv_count t = sends_done t
  /\ sends_done t = (recvs_done t + (if recv_failed t then 1 else 0))%nat
  /\ (sends_done t <= List.length (sent t) <= 5)%nat.
Proof.
  cbv zeta; destruct (client_main_tallies argv e) as (H1 & H2 & _).
  split; [assumption|]; split; [assumption|]; split.
  - apply sends_done_le_sent.
  - apply client_main_sent.
Qed.

(** X12.  The client pauses after every exchange that completes, the last
    one included, and never after one that failed: the pauses of a run are
    as many as its completed exchanges, so a full run pauses five times,
    once more than there are gaps between its messages. *)
Theorem client_pauses_after_each_exchange {P : Type}
        (argv : list string) (e : env P) :
  sleeps (fst (main argv e)) = recvs_done (fst (main argv e))
  /\ (all_ok (fst (main argv e)) = true ->
      client_startup_failed argv e = false ->
      sleeps (fst (main argv e)) = 5%nat).
Proof.
  split; [apply (client_main_tallies argv e)|].
  intros Hok F.
  destruct (client_main_tallies argv e) as (_ & _ & ->).
  rewrite (client_main_started argv e F) in *.
  pose proof (message_loop_exchanges (server e) (socket_rc e) loop_fuel 1
                (mkState (stack_message e) (stack_buffer e)) (server0 e))
    as H.
  destruct (message_loop _ _ _ _ _ _) as [[i p] t]; cbn [fst snd] in *.
  destruct H as (Hex & Hi & Hdone & _);
    [unfold NUM_MESSAGES; lia | vm_compute; reflexivity |].
  assert (Hokt : all_ok t = true).
  { unfold all_ok in *; rewrite !forallb_app in Hok.
    apply andb_true_iff in Hok as [_ Hok].
    now apply andb_true_iff in Hok as [Hok _]. }
  rewrite <- all_ok_filter in Hokt.
  pose proof (exchanges_all_ok _ _ _ _ Hex Hokt) as Hj.
  rewrite !recvs_done_app.
  replace (recvs_done (client_startup_trace argv e)) with 0%nat
    by reflexivity.
  replace (recvs_done (statistics i (socket_rc e))) with 0%nat
    by reflexivity.
  unfold NUM_MESSAGES in *; lia.
Qed.

Lemma client_pauses_after_each_exchange_witness :
  sleeps (fst (main client_argv (client_env closed_peer tt))) = 5%nat.
Proof.
  apply (proj2 (client_pauses_after_each_exchange
                  client_argv (client_env closed_peer tt)));
    reflexivity.
Defined.

(** X13.  Whatever the peer does, the payloads the client writes are the
    first messages of the fixed five, in order and each at most once: it
    never writes anything else and never writes a message again. *)
Theorem client_writes_a_prefix {P : Type} (argv : list string) (e : env P) :
  sent (fst (main argv e))
  = firstn (List.length (sent (fst (main argv e)))) five_messages
  /\ (List.length (sent (fst (main argv e))) <= 5)%nat
  /\ NoDup five_messages.
Proof.
  destruct (client_main_sent argv e) as [Hs Hl].
  split; [assumption|]; split; [assumption|].
  repeat constructor; cbn [In]; intros H;
    repeat (destruct H as [H|H]; [discriminate H|]); exact H.
Qed.

(** *** The arrays of [main] *)

Lemma exchange_pass_state {P : Type} (srv : peer P) (sock_fd i : Z)
      (st st' : state) (p : P) :
  let r := exchange_pass srv sock_fd i st p in
  let r' := exchange_pass srv sock_fd i st' p in
  snd r' = snd r /\ snd (fst r') = snd (fst r)
  /\ snd (fst (fst r')) = snd (fst (fst r)).
Proof.
  unfold exchange_pass.
  destruct (on_send srv p _) as [bytes_sent p1].
  destruct (bytes_sent <? 0); [repeat split|].
  destruct (on_recv srv p1) as [reply p2].
  destruct (_ <? 0); repeat split.
Qed.

Lemma message_loop_state {P : Type} (srv : peer P) (sock_fd : Z)
      (fuel : nat) (i : Z) (st st' : state) (p : P) :
  1 <= i <= NUM_MESSAGES + 1 ->
  message_loop srv sock_fd fuel i st' p = message_loop srv sock_fd fuel i st p.
Proof.
  revert i st st' p; induction fuel as [|fuel IH]; intros i st st' p Hi;
    [reflexivity|].
  destruct (Z.eq_dec i (NUM_MESSAGES + 1)) as [E|N].
  - now rewrite !message_loop_done by lia.
  - rewrite !message_loop_step by lia.
    pose proof (exchange_pass_state srv sock_fd i st st' p) as (Hok & Ht & Hp).
    cbv zeta in *.
    destruct (exchange_pass srv sock_fd i st p) as [[[st1 p1] t1] ok].
    destruct (exchange_pass srv sock_fd i st' p) as [[[st1' p1'] t1'] ok'].
    cbn [fst snd] in *; subst ok' t1' p1'.
    destruct ok; [|reflexivity].
    now rewrite (IH (i + 1) st1 st1' p1) by lia.
Qed.

(** X14.  A run of the client does not depend on what its two arrays hold
    before the loop: both are declared without a value, [message] is
    written by [snprintf] and [buffer] is zeroed before either is read, and
    the events and the exit code are the same for any contents. *)
Theorem client_ignores_stack_contents {P : Type}
        (argv : list string) (port : Z) (found : bool) (s c : Z)
        (m m' b b' : list byte) (srv : peer P) (p0 : P) :
  main argv (mkEnv port found s c m' b' srv p0)
  = main argv (mkEnv port found s c m b srv p0).
Proof.
  unfold main; cbn [atoi_port host_found socket_rc connect_rc stack_message
                    stack_buffer server server0].
  destruct (negb (Z.of_nat (List.length argv) =? 3)); [reflexivity|].
  destruct (negb found); [reflexivity|].
  destruct (s <? 0); [reflexivity|].
  destruct (c <? 0); [reflexivity|].
  rewrite (message_loop_state srv s loop_fuel 1 (mkState m b) (mkState m' b'))
    by (unfold NUM_MESSAGES; lia).
  reflexivity.
Qed.

End ClientRuns.

(* ================================================================== *)
(** ** The port number                                                 *)
(* ================================================================== *)

Module PortProperties.

Import Contract Ledger Scenario LibcFacts ServerFacts RunFacts.

Lemma in_firstn {A : Type} (x : A) (n : nat) (l : list A) :
  In x (firstn n l) -> In x l.
Proof.
  intros H; rewrite <- (firstn_skipn n l); apply in_or_app; now left.
Qed.

Lemma in_setup_calls (x : event) (t : list event) :
  In x t -> is_setup x = true -> In x (setup_calls t).
Proof. intros; apply filter_In; auto. Qed.

Lemma htons_range (port : Z) : 0 <= htons port < 65536.
Proof. unfold htons; apply Z.mod_pos_bound; lia. Qed.

(** X15.  Neither program checks the port it is given.  The value of
    [atoi] is announced as it is, but what is bound, or connected to, is
    that value cut to 16 bits: every [bind] of the server and every
    [connect] of the client uses the port modulo 65536, so a port outside
    0..65535 silently becomes another one. *)
Theorem port_is_cut_to_16_bits :
  (forall argv e fd port rc,
      In (Bind fd port rc) (fst (Server.main argv e)) ->
      port = Server.atoi_port e mod 65536 /\ 0 <= port < 65536)
  /\ (forall (P : Type) argv (e : Client.env P) fd port rc,
         In (Connect fd port rc) (fst (Client.main argv e)) ->
         port = Client.atoi_port e mod 65536 /\ 0 <= port < 65536)
  /\ (forall script,
         let e := Server.mkEnv 70000 3 0 0 0 [] 4 "127.0.0.1" 40000 [] script in
         In (Stdout ("Port: 70000" ++ nl)) (fst (Server.main server_argv e))
         /\ In (Bind 3 4464 0) (fst (Server.main server_argv e))).
Proof.
  split; [|split].
  - intros argv e fd port rc Hin.
    apply in_setup_calls in Hin; [|reflexivity].
    destruct (Z.eq_dec (Z.of_nat (List.length argv)) 2) as [Hargc|Hargc].
    + destruct (ServerRuns.server_setup_prefix argv e Hargc)
        as (k & _ & Hcalls & _).
      rewrite Hcalls in Hin; apply in_firstn in Hin.
      unfold server_setup in Hin; cbn [In] in Hin.
      destruct Hin as [H|[H|[H|[H|[H|[]]]]]]; try discriminate H.
      injection H as _ <- _.
      split; [reflexivity | apply htons_range].
    + unfold Server.main in Hin.
      destruct (Z.eqb_spec (Z.of_nat (List.length argv)) 2); [contradiction|].
      destruct Hin.
  - intros P argv e fd port rc Hin.
    apply in_setup_calls in Hin; [|reflexivity].
    destruct (Z.eq_dec (Z.of_nat (List.length argv)) 3) as [Hargc|Hargc].
    + destruct (ClientRuns.client_setup_prefix argv e Hargc)
        as (k & _ & Hcalls & _).
      rewrite Hcalls in Hin; apply in_firstn in Hin.
      unfold client_setup in Hin; cbn [In] in Hin.
      destruct Hin as [H|[H|[H|[]]]]; try discriminate H.
      injection H as _ <- _.
      split; [reflexivity | apply htons_range].
    + unfold Client.main in Hin.
      destruct (Z.eqb_spec (Z.of_nat (List.length argv)) 3); [contradiction|].
      destruct Hin.
  - intros script e.
    assert (F : server_startup_failed server_argv e = false) by reflexivity.
    rewrite (server_main_started server_argv e F).
    destruct (Server.echo_loop _ _ _) as [[st t] why].
    assert (Hs : In (Stdout ("Port: 70000" ++ nl)) (server_startup_trace e)
                 /\ In (Bind 3 4464 0) (server_startup_trace e)).
    { split; vm_compute; auto 10. }
    destruct why; cbn [fst]; rewrite !in_app_iff; tauto.
Qed.

Lemma port_is_cut_to_16_bits_witness :
  let e := Server.mkEnv 70000 3 0 0 0 [] 4 "127.0.0.1" 40000 [] peer_closes in
  4464 = Server.atoi_port e mod 65536 /\ 0 <= 4464 < 65536.
Proof.
  intros e.
  destruct port_is_cut_to_16_bits as (Hbind & _ & Hex).
  apply (Hbind server_argv e 3 4464 0).
  exact (proj2 (Hex peer_closes)).
Defined.

End PortProperties.
